(** * PulseOps core: authorization and session security

    A shallow embedding of [src/core/permissions.py] and
    [src/core/security.py] of the PulseOps backend, and the properties of
    the authorization subsystem proved about it.

    Conventions of the embedding.
    - A Python [dict] with string keys is a [gmap string _]; a Python [set]
      is a [gset _]; a Python [list] is a [list].
    - A function that may raise returns a [result]: [Ok v] for a normal
      return, [Raise e] for an exception [e].
    - A [datetime] is its POSIX time in whole seconds, a [Z]; a [timedelta]
      is a number of seconds.
    - What Python reads from its environment (the clock, [uuid.uuid4()],
      the settings objects) is an explicit argument.
    - Calls to the logging module have no effect on any result and are
      left out. *)

From Stdlib Require Import ZArith Lia Bool Ascii.
From stdpp Require Import gmap strings list fin_maps.

Local Open Scope Z_scope.
Local Open Scope string_scope.

(* ===================================================================== *)
(** * Python values, truthiness and exceptions *)
(* ===================================================================== *)

Module Py.

(** The values a decoded JSON payload can hold. *)
#[warnings="-register-all"]
Inductive value : Type :=
| VNone
| VBool (b : bool)
| VInt (n : Z)
| VStr (s : string)
| VList (l : list value).

(** [bool(v)]: [None], [False], [0], [""] and [[]] are falsy. *)
Definition truthy (v : value) : bool :=
  match v with
  | VNone => false
  | VBool b => b
  | VInt n => negb (n =? 0)%Z
  | VStr s => negb (String.eqb s "")
  | VList l => match l with [] => false | _ => true end
  end.

(** [bool(o)] for an [Optional[str]] argument. *)
Definition truthy_opt (o : option string) : bool :=
  match o with
  | None => false
  | Some s => negb (String.eqb s "")
  end.

(** [v == s] for a string [s]: only an equal string compares equal. *)
Definition eq_str (v : value) (s : string) : bool :=
  match v with
  | VStr s' => String.eqb s' s
  | _ => false
  end.

Definition of_opt (o : option string) : value :=
  match o with
  | None => VNone
  | Some s => VStr s
  end.

(** The [details] argument of the project's exceptions: absent, a dict,
    or (as one call site passes it) a bare string. *)
Inductive details : Type :=
| NoDetails
| DetailsDict (kv : list (string * value))
| DetailsStr (s : string).

(** Exceptions: Python's own, those of the two JWT libraries, and the
    project's ([src/core/exceptions.py]). *)
Inductive exc : Type :=
| ValueError
| TypeError
| AttributeError
| JoseJWTError                    (* jose.JWTError *)
| JoseExpiredSignatureError       (* jose.ExpiredSignatureError *)
| PyJWTInvalidTokenError          (* jwt.InvalidTokenError *)
| PyJWTExpiredSignatureError      (* jwt.ExpiredSignatureError *)
| FernetInvalidToken              (* cryptography.fernet.InvalidToken *)
| BinasciiError                   (* binascii.Error *)
| InvalidTokenError (d : details)
| TokenExpiredError
| AuthorizationError (error_code : string)
| SecurityError
| RateLimitExceededError (identifier : string) (limit window_seconds : Z).

Inductive result (A : Type) : Type :=
| Ok (a : A)
| Raise (e : exc).
Arguments Ok {A} a.
Arguments Raise {A} e.

#[global] Instance result_ret : MRet result := @Ok.
#[global] Instance result_bind : MBind result := λ A B k r,
  match r with
  | Ok a => k a
  | Raise e => Raise e
  end.

(** [try: r  except Exception as e: h e]. *)
Definition try_except {A} (r : result A) (h : exc → result A) : result A :=
  match r with
  | Ok a => Ok a
  | Raise e => h e
  end.

Definition is_ok {A} (r : result A) : bool :=
  match r with
  | Ok _ => true
  | Raise _ => false
  end.

End Py.

Import Py.


(* ===================================================================== *)
(** * The JWT libraries (python-jose and PyJWT), symbolically *)
(* ===================================================================== *)

(** A bearer token is modelled by what it carries: a well-formed token
    holds its claims together with the key and the algorithm it was signed
    with; anything else is a malformed string.  The base64 wire encoding
    and the HMAC itself are not modelled: a signature verifies exactly when
    the verifier's key and algorithm are the signer's.  Of the libraries'
    checks on registered claims only expiry is modelled; the others (the
    types of [iat], [sub] and [jti], and in recent versions of PyJWT an
    [iat] that lies in the future) pass on every payload this program
    issues, when it is presented no earlier than it was issued. *)
Module JWT.

Inductive token : Type :=
| Signed (claims : gmap string value) (key algorithm : string)
| Malformed (raw : string).

(** [jwt.encode(payload, key, algorithm=alg)] *)
Definition encode (payload : gmap string value) (key alg : string) : token :=
  Signed payload key alg.

(** [jose.jwt.get_unverified_claims(token)] *)
Definition get_unverified_claims (t : token) : result (gmap string value) :=
  match t with
  | Signed claims _ _ => Ok claims
  | Malformed _ => Raise JoseJWTError
  end.

Definition signature_ok (t : token) (key alg : string) : option (gmap string value) :=
  match t with
  | Signed claims k a =>
      if String.eqb k key && String.eqb a alg then Some claims else None
  | Malformed _ => None
  end.

(** [jose.jwt.decode(token, key, algorithms=[alg],
    options={"verify_exp": True, "verify_iat": True})] at time [now]:
    python-jose rejects [exp < now]. *)
Definition jose_decode (t : token) (key alg : string) (now : Z)
  : result (gmap string value) :=
  match signature_ok t key alg with
  | None => Raise JoseJWTError
  | Some claims =>
      match claims !! "exp" with
      | None => Ok claims
      | Some (VInt e) =>
          if (e <? now)%Z then Raise JoseExpiredSignatureError else Ok claims
      | Some _ => Raise JoseJWTError
      end
  end.

(** [jwt.decode(token, key, algorithms=[alg])] of PyJWT at time [now]:
    PyJWT rejects [exp <= now]. *)
Definition pyjwt_decode (t : token) (key alg : string) (now : Z)
  : result (gmap string value) :=
  match signature_ok t key alg with
  | None => Raise PyJWTInvalidTokenError
  | Some claims =>
      match claims !! "exp" with
      | None => Ok claims
      | Some (VInt e) =>
          if (e <=? now)%Z then Raise PyJWTExpiredSignatureError else Ok claims
      | Some _ => Raise PyJWTInvalidTokenError
      end
  end.

End JWT.

(** [auth_config]: the settings of [src/core/config/auth.py] that the core
    reads. *)
Record AuthConfig : Type := {
  jwt_secret_key : string;
  jwt_algorithm : string;
  jwt_access_token_expire_minutes : Z;
  jwt_refresh_token_expire_days : Z;
  otp_length : Z;
  otp_expire_minutes : Z;
  otp_max_attempts : Z;
  otp_rate_limit_per_hour : Z
}.

(** [security_config]: the two switches of [src/core/config/security.py]. *)
Record SecurityConfig : Type := {
  data_encryption_enabled : bool;
  pii_masking_enabled : bool
}.

(* ===================================================================== *)
(** * [src/core/permissions.py]: roles, permissions and the catalog *)
(* ===================================================================== *)

Module Permissions.

(** [class UserRole(str, Enum)] *)
Inductive UserRole : Type := ADMIN | DOCTOR.

Definition UserRole_value (r : UserRole) : string :=
  match r with
  | ADMIN => "ADMIN"
  | DOCTOR => "DOCTOR"
  end.

(** [UserRole(v)]: the member whose value is [v], or [ValueError]. *)
Definition UserRole_of (v : value) : result UserRole :=
  match v with
  | VStr s =>
      if String.eqb s "ADMIN" then Ok ADMIN
      else if String.eqb s "DOCTOR" then Ok DOCTOR
      else Raise ValueError
  | _ => Raise ValueError
  end.

#[global] Instance UserRole_eq_dec : EqDecision UserRole.
Proof. solve_decision. Defined.

(** [class Permission(str, Enum)] *)
Inductive Permission : Type :=
| MANAGE_DOCTORS
| VIEW_ALL_DOCTORS
| ADD_DOCTOR
| EDIT_DOCTOR
| REMOVE_DOCTOR
| VIEW_ALL_QUEUES
| MANAGE_ALL_QUEUES
| START_ANY_QUEUE
| PAUSE_ANY_QUEUE
| CLOSE_ANY_QUEUE
| VIEW_ALL_PATIENT_ASSOCIATIONS
| VIEW_ALL_VISIT_RECORDS
| VIEW_ALL_MEDICAL_NOTES
| VIEW_DOCTOR_NOTES
| EXPORT_PATIENT_DATA
| MANAGE_PATIENT_PRIVACY
| VIEW_SUBSCRIPTION
| MANAGE_SUBSCRIPTION
| MANAGE_PAYMENTS
| VIEW_REVENUE
| VIEW_BILLING_HISTORY
| DOWNLOAD_REPORTS
| MANAGE_PRICING
| CONFIGURE_WHATSAPP
| MANAGE_SETTINGS
| MANAGE_USERS
| VIEW_AUDIT_LOGS
| MANAGE_CLINIC_PROFILE
| VIEW_CLINIC_ANALYTICS
| VIEW_DOCTOR_PERFORMANCE
| GENERATE_REPORTS
| EXPORT_ANALYTICS
| VIEW_OWN_QUEUE
| MANAGE_OWN_QUEUE
| START_OWN_QUEUE
| PAUSE_OWN_QUEUE
| CLOSE_OWN_QUEUE
| CALL_NEXT_PATIENT
| SKIP_PATIENT
| MANAGE_OWN_TOKENS
| CREATE_TOKEN
| UPDATE_TOKEN_STATUS
| CANCEL_TOKEN
| VIEW_TOKEN_HISTORY
| VIEW_OWN_PATIENTS
| MANAGE_OWN_PATIENT_ASSOCIATIONS
| ADD_PATIENT_ASSOCIATION
| UPDATE_PATIENT_ASSOCIATION
| REMOVE_PATIENT_ASSOCIATION
| ADD_VISIT_NOTES
| EDIT_VISIT_NOTES
| ADD_DIAGNOSIS
| EDIT_DIAGNOSIS
| ADD_PRESCRIPTION
| EDIT_PRESCRIPTION
| ADD_PRIVATE_NOTES
| VIEW_OWN_VISIT_HISTORY
| VIEW_OWN_STATISTICS
| VIEW_OWN_PERFORMANCE
| VIEW_OWN_REVENUE
| SEND_PATIENT_MESSAGES
| MANAGE_PATIENT_NOTIFICATIONS
| VIEW_OTHER_DOCTOR_PATIENTS
| VIEW_OTHER_DOCTOR_NOTES
| VIEW_CROSS_CLINIC_PATIENT_DATA
| MANAGE_OTHER_QUEUES
| VIEW_OTHER_DOCTOR_REVENUE.

Definition Permission_value (p : Permission) : string :=
  match p with
  | MANAGE_DOCTORS => "manage_doctors"
  | VIEW_ALL_DOCTORS => "view_all_doctors"
  | ADD_DOCTOR => "add_doctor"
  | EDIT_DOCTOR => "edit_doctor"
  | REMOVE_DOCTOR => "remove_doctor"
  | VIEW_ALL_QUEUES => "view_all_queues"
  | MANAGE_ALL_QUEUES => "manage_all_queues"
  | START_ANY_QUEUE => "start_any_queue"
  | PAUSE_ANY_QUEUE => "pause_any_queue"
  | CLOSE_ANY_QUEUE => "close_any_queue"
  | VIEW_ALL_PATIENT_ASSOCIATIONS => "view_all_patient_associations"
  | VIEW_ALL_VISIT_RECORDS => "view_all_visit_records"
  | VIEW_ALL_MEDICAL_NOTES => "view_all_medical_notes"
  | VIEW_DOCTOR_NOTES => "view_doctor_notes"
  | EXPORT_PATIENT_DATA => "export_patient_data"
  | MANAGE_PATIENT_PRIVACY => "manage_patient_privacy"
  | VIEW_SUBSCRIPTION => "view_subscription"
  | MANAGE_SUBSCRIPTION => "manage_subscription"
  | MANAGE_PAYMENTS => "manage_payments"
  | VIEW_REVENUE => "view_revenue"
  | VIEW_BILLING_HISTORY => "view_billing_history"
  | DOWNLOAD_REPORTS => "download_reports"
  | MANAGE_PRICING => "manage_pricing"
  | CONFIGURE_WHATSAPP => "configure_whatsapp"
  | MANAGE_SETTINGS => "manage_settings"
  | MANAGE_USERS => "manage_users"
  | VIEW_AUDIT_LOGS => "view_audit_logs"
  | MANAGE_CLINIC_PROFILE => "manage_clinic_profile"
  | VIEW_CLINIC_ANALYTICS => "view_clinic_analytics"
  | VIEW_DOCTOR_PERFORMANCE => "view_doctor_performance"
  | GENERATE_REPORTS => "generate_reports"
  | EXPORT_ANALYTICS => "export_analytics"
  | VIEW_OWN_QUEUE => "view_own_queue"
  | MANAGE_OWN_QUEUE => "manage_own_queue"
  | START_OWN_QUEUE => "start_own_queue"
  | PAUSE_OWN_QUEUE => "pause_own_queue"
  | CLOSE_OWN_QUEUE => "close_own_queue"
  | CALL_NEXT_PATIENT => "call_next_patient"
  | SKIP_PATIENT => "skip_patient"
  | MANAGE_OWN_TOKENS => "manage_own_tokens"
  | CREATE_TOKEN => "create_token"
  | UPDATE_TOKEN_STATUS => "update_token_status"
  | CANCEL_TOKEN => "cancel_token"
  | VIEW_TOKEN_HISTORY => "view_token_history"
  | VIEW_OWN_PATIENTS => "view_own_patients"
  | MANAGE_OWN_PATIENT_ASSOCIATIONS => "manage_own_patient_associations"
  | ADD_PATIENT_ASSOCIATION => "add_patient_association"
  | UPDATE_PATIENT_ASSOCIATION => "update_patient_association"
  | REMOVE_PATIENT_ASSOCIATION => "remove_patient_association"
  | ADD_VISIT_NOTES => "add_visit_notes"
  | EDIT_VISIT_NOTES => "edit_visit_notes"
  | ADD_DIAGNOSIS => "add_diagnosis"
  | EDIT_DIAGNOSIS => "edit_diagnosis"
  | ADD_PRESCRIPTION => "add_prescription"
  | EDIT_PRESCRIPTION => "edit_prescription"
  | ADD_PRIVATE_NOTES => "add_private_notes"
  | VIEW_OWN_VISIT_HISTORY => "view_own_visit_history"
  | VIEW_OWN_STATISTICS => "view_own_statistics"
  | VIEW_OWN_PERFORMANCE => "view_own_performance"
  | VIEW_OWN_REVENUE => "view_own_revenue"
  | SEND_PATIENT_MESSAGES => "send_patient_messages"
  | MANAGE_PATIENT_NOTIFICATIONS => "manage_patient_notifications"
  | VIEW_OTHER_DOCTOR_PATIENTS => "view_other_doctor_patients"
  | VIEW_OTHER_DOCTOR_NOTES => "view_other_doctor_notes"
  | VIEW_CROSS_CLINIC_PATIENT_DATA => "view_cross_clinic_patient_data"
  | MANAGE_OTHER_QUEUES => "manage_other_queues"
  | VIEW_OTHER_DOCTOR_REVENUE => "view_other_doctor_revenue"
  end.

Definition all_permissions : list Permission :=
  [MANAGE_DOCTORS; VIEW_ALL_DOCTORS; ADD_DOCTOR;
   EDIT_DOCTOR; REMOVE_DOCTOR; VIEW_ALL_QUEUES;
   MANAGE_ALL_QUEUES; START_ANY_QUEUE; PAUSE_ANY_QUEUE;
   CLOSE_ANY_QUEUE; VIEW_ALL_PATIENT_ASSOCIATIONS; VIEW_ALL_VISIT_RECORDS;
   VIEW_ALL_MEDICAL_NOTES; VIEW_DOCTOR_NOTES; EXPORT_PATIENT_DATA;
   MANAGE_PATIENT_PRIVACY; VIEW_SUBSCRIPTION; MANAGE_SUBSCRIPTION;
   MANAGE_PAYMENTS; VIEW_REVENUE; VIEW_BILLING_HISTORY;
   DOWNLOAD_REPORTS; MANAGE_PRICING; CONFIGURE_WHATSAPP;
   MANAGE_SETTINGS; MANAGE_USERS; VIEW_AUDIT_LOGS;
   MANAGE_CLINIC_PROFILE; VIEW_CLINIC_ANALYTICS; VIEW_DOCTOR_PERFORMANCE;
   GENERATE_REPORTS; EXPORT_ANALYTICS; VIEW_OWN_QUEUE;
   MANAGE_OWN_QUEUE; START_OWN_QUEUE; PAUSE_OWN_QUEUE;
   CLOSE_OWN_QUEUE; CALL_NEXT_PATIENT; SKIP_PATIENT;
   MANAGE_OWN_TOKENS; CREATE_TOKEN; UPDATE_TOKEN_STATUS;
   CANCEL_TOKEN; VIEW_TOKEN_HISTORY; VIEW_OWN_PATIENTS;
   MANAGE_OWN_PATIENT_ASSOCIATIONS; ADD_PATIENT_ASSOCIATION; UPDATE_PATIENT_ASSOCIATION;
   REMOVE_PATIENT_ASSOCIATION; ADD_VISIT_NOTES; EDIT_VISIT_NOTES;
   ADD_DIAGNOSIS; EDIT_DIAGNOSIS; ADD_PRESCRIPTION;
   EDIT_PRESCRIPTION; ADD_PRIVATE_NOTES; VIEW_OWN_VISIT_HISTORY;
   VIEW_OWN_STATISTICS; VIEW_OWN_PERFORMANCE; VIEW_OWN_REVENUE;
   SEND_PATIENT_MESSAGES; MANAGE_PATIENT_NOTIFICATIONS; VIEW_OTHER_DOCTOR_PATIENTS;
   VIEW_OTHER_DOCTOR_NOTES; VIEW_CROSS_CLINIC_PATIENT_DATA; MANAGE_OTHER_QUEUES;
   VIEW_OTHER_DOCTOR_REVENUE].

(** Look a member up by its value, as [Permission(s)] does. *)
Definition Permission_lookup (s : string) : option Permission :=
  find (λ p, String.eqb (Permission_value p) s) all_permissions.

Lemma Permission_lookup_value (p : Permission) :
  Permission_lookup (Permission_value p) = Some p.
Proof. destruct p; reflexivity. Qed.

#[global] Instance Permission_eq_dec : EqDecision Permission.
Proof.
  intros p q.
  destruct (decide (Permission_value p = Permission_value q)) as [E|E].
  - left. apply (f_equal Permission_lookup) in E.
    rewrite !Permission_lookup_value in E. congruence.
  - right. congruence.
Defined.

#[global] Instance Permission_countable : Countable Permission :=
  inj_countable Permission_value Permission_lookup Permission_lookup_value.

Definition ADMIN_PERMISSIONS : gset Permission :=
  list_to_set
    [MANAGE_DOCTORS;
     VIEW_ALL_DOCTORS;
     ADD_DOCTOR;
     EDIT_DOCTOR;
     REMOVE_DOCTOR;
     VIEW_ALL_QUEUES;
     MANAGE_ALL_QUEUES;
     START_ANY_QUEUE;
     PAUSE_ANY_QUEUE;
     CLOSE_ANY_QUEUE;
     VIEW_ALL_PATIENT_ASSOCIATIONS;
     VIEW_ALL_VISIT_RECORDS;
     VIEW_ALL_MEDICAL_NOTES;
     VIEW_DOCTOR_NOTES;
     EXPORT_PATIENT_DATA;
     MANAGE_PATIENT_PRIVACY;
     VIEW_SUBSCRIPTION;
     MANAGE_SUBSCRIPTION;
     MANAGE_PAYMENTS;
     VIEW_REVENUE;
     VIEW_BILLING_HISTORY;
     DOWNLOAD_REPORTS;
     MANAGE_PRICING;
     CONFIGURE_WHATSAPP;
     MANAGE_SETTINGS;
     MANAGE_USERS;
     VIEW_AUDIT_LOGS;
     MANAGE_CLINIC_PROFILE;
     VIEW_CLINIC_ANALYTICS;
     VIEW_DOCTOR_PERFORMANCE;
     GENERATE_REPORTS;
     EXPORT_ANALYTICS].

Definition DOCTOR_PERMISSIONS : gset Permission :=
  list_to_set
    [VIEW_OWN_QUEUE;
     MANAGE_OWN_QUEUE;
     START_OWN_QUEUE;
     PAUSE_OWN_QUEUE;
     CLOSE_OWN_QUEUE;
     CALL_NEXT_PATIENT;
     SKIP_PATIENT;
     MANAGE_OWN_TOKENS;
     CREATE_TOKEN;
     UPDATE_TOKEN_STATUS;
     CANCEL_TOKEN;
     VIEW_TOKEN_HISTORY;
     VIEW_OWN_PATIENTS;
     MANAGE_OWN_PATIENT_ASSOCIATIONS;
     ADD_PATIENT_ASSOCIATION;
     UPDATE_PATIENT_ASSOCIATION;
     REMOVE_PATIENT_ASSOCIATION;
     ADD_VISIT_NOTES;
     EDIT_VISIT_NOTES;
     ADD_DIAGNOSIS;
     EDIT_DIAGNOSIS;
     ADD_PRESCRIPTION;
     EDIT_PRESCRIPTION;
     ADD_PRIVATE_NOTES;
     VIEW_OWN_VISIT_HISTORY;
     VIEW_OWN_STATISTICS;
     VIEW_OWN_PERFORMANCE;
     VIEW_OWN_REVENUE;
     SEND_PATIENT_MESSAGES;
     MANAGE_PATIENT_NOTIFICATIONS].

Definition DOCTOR_DENIED_PERMISSIONS : gset Permission :=
  list_to_set
    [VIEW_OTHER_DOCTOR_PATIENTS;
     VIEW_OTHER_DOCTOR_NOTES;
     VIEW_CROSS_CLINIC_PATIENT_DATA;
     MANAGE_OTHER_QUEUES;
     VIEW_OTHER_DOCTOR_REVENUE;
     MANAGE_DOCTORS;
     MANAGE_SUBSCRIPTION;
     VIEW_REVENUE;
     MANAGE_SETTINGS;
     CONFIGURE_WHATSAPP].

Definition PATIENT_MANAGEMENT_PERMISSIONS : gset Permission :=
  list_to_set
    [VIEW_OWN_PATIENTS;
     MANAGE_OWN_PATIENT_ASSOCIATIONS;
     ADD_PATIENT_ASSOCIATION;
     UPDATE_PATIENT_ASSOCIATION].

Definition MEDICAL_DOCUMENTATION_PERMISSIONS : gset Permission :=
  list_to_set
    [ADD_VISIT_NOTES;
     EDIT_VISIT_NOTES;
     ADD_DIAGNOSIS;
     EDIT_DIAGNOSIS;
     ADD_PRESCRIPTION;
     EDIT_PRESCRIPTION].

Definition QUEUE_MANAGEMENT_PERMISSIONS : gset Permission :=
  list_to_set
    [VIEW_OWN_QUEUE;
     MANAGE_OWN_QUEUE;
     START_OWN_QUEUE;
     PAUSE_OWN_QUEUE;
     CALL_NEXT_PATIENT].

Definition ADMIN_ONLY_PERMISSIONS : gset Permission :=
  list_to_set
    [MANAGE_DOCTORS;
     MANAGE_SUBSCRIPTION;
     VIEW_REVENUE;
     CONFIGURE_WHATSAPP;
     MANAGE_SETTINGS].

(** [class DataAccessScope(str, Enum)] *)
Inductive DataAccessScope : Type := CLINIC_ALL | DOCTOR_OWN | PATIENT_SELF.

Definition DataAccessScope_value (s : DataAccessScope) : string :=
  match s with
  | CLINIC_ALL => "CLINIC_ALL"
  | DOCTOR_OWN => "DOCTOR_OWN"
  | PATIENT_SELF => "PATIENT_SELF"
  end.

(** [DataAccessScope(v)] *)
Definition DataAccessScope_of (v : value) : result DataAccessScope :=
  match v with
  | VStr s =>
      if String.eqb s "CLINIC_ALL" then Ok CLINIC_ALL
      else if String.eqb s "DOCTOR_OWN" then Ok DOCTOR_OWN
      else if String.eqb s "PATIENT_SELF" then Ok PATIENT_SELF
      else Raise ValueError
  | _ => Raise ValueError
  end.

#[global] Instance DataAccessScope_eq_dec : EqDecision DataAccessScope.
Proof. solve_decision. Defined.

(** [Permission(v)] *)
Definition Permission_of (v : value) : result Permission :=
  match v with
  | VStr s =>
      match Permission_lookup s with
      | Some p => Ok p
      | None => Raise ValueError
      end
  | _ => Raise ValueError
  end.

(** [{Permission(p) for p in l}] for a list [l], left to right. *)
Fixpoint permission_set (l : list value) : result (gset Permission) :=
  match l with
  | [] => Ok ∅
  | v :: l' =>
      p ← Permission_of v;
      s ← permission_set l';
      Ok ({[p]} ∪ s)
  end.

(** The same comprehension over an arbitrary payload value.  A string
    iterates over its characters, and no permission value is a single
    character; [None], a bool and an int are not iterable. *)
Definition permission_set_of (v : value) : result (gset Permission) :=
  match v with
  | VList l => permission_set l
  | VStr s => if String.eqb s "" then Ok ∅ else Raise ValueError
  | _ => Raise TypeError
  end.

(** [dict.get(key, default)] *)
Definition dict_get (d : gmap string value) (key : string) (dflt : value) : value :=
  default dflt (d !! key).

(** [class JWTPayload].  The attributes annotated [str] and [int] hold
    whatever the payload holds: [__init__] converts only the role, the
    permissions and the scope. *)
Record JWTPayload : Type := {
  user_id : value;
  clinic_id : value;
  whatsapp_number : value;
  doctor_id : value;
  role : UserRole;
  permissions : gset Permission;
  patient_access_scope : DataAccessScope;
  exp : value;
  iat : value;
  iss : value
}.

(** [JWTPayload.__init__(self, token_data)] *)
Definition JWTPayload_init (token_data : gmap string value) : result JWTPayload :=
  r ← UserRole_of (dict_get token_data "role" (VStr ""));
  ps ← permission_set_of (dict_get token_data "permissions" (VList []));
  sc ← DataAccessScope_of (dict_get token_data "patient_access_scope" (VStr ""));
  Ok {| user_id := dict_get token_data "user_id" (VStr "");
        clinic_id := dict_get token_data "clinic_id" (VStr "");
        whatsapp_number := dict_get token_data "whatsapp_number" (VStr "");
        doctor_id := dict_get token_data "doctor_id" VNone;
        role := r;
        permissions := ps;
        patient_access_scope := sc;
        exp := dict_get token_data "exp" (VInt 0);
        iat := dict_get token_data "iat" (VInt 0);
        iss := dict_get token_data "iss" (VStr "") |}.

(** [is_expired]: [now > self.exp]; comparing a number with a string, a
    list or [None] raises [TypeError]. *)
Definition is_expired (self : JWTPayload) (now : Z) : result bool :=
  match exp self with
  | VInt e => Ok (e <? now)%Z
  | VBool b => Ok ((if b then 1 else 0) <? now)%Z
  | _ => Raise TypeError
  end.

Definition is_admin (self : JWTPayload) : bool :=
  bool_decide (role self = ADMIN).

Definition is_doctor (self : JWTPayload) : bool :=
  bool_decide (role self = DOCTOR).

Definition has_permission (self : JWTPayload) (permission : Permission) : bool :=
  bool_decide (permission ∈ permissions self).

Definition has_any_permission (self : JWTPayload) (ps : list Permission) : bool :=
  existsb (λ p, bool_decide (p ∈ permissions self)) ps.

Definition has_all_permissions (self : JWTPayload) (ps : list Permission) : bool :=
  forallb (λ p, bool_decide (p ∈ permissions self)) ps.

Definition can_access_clinic_data (self : JWTPayload) (clinic : string) : bool :=
  eq_str (clinic_id self) clinic.

Definition can_access_doctor_data (self : JWTPayload) (doctor : string) : bool :=
  if is_admin self then true
  else eq_str (doctor_id self) doctor.

Definition can_access_patient_data (self : JWTPayload) (doctor patient : string) : bool :=
  if is_admin self then true
  else if is_doctor self && eq_str (doctor_id self) doctor then true
  else false.

(** [get_permissions_for_role]: a copy of the role's static set. *)
Definition get_permissions_for_role (r : UserRole) : gset Permission :=
  match r with
  | ADMIN => ADMIN_PERMISSIONS
  | DOCTOR => DOCTOR_PERMISSIONS
  end.

Definition get_data_access_scope (r : UserRole) : DataAccessScope :=
  match r with
  | ADMIN => CLINIC_ALL
  | DOCTOR => DOCTOR_OWN
  end.

(** [x or y] for an optional timestamp. *)
Definition or_else (x : option Z) (y : Z) : Z :=
  match x with
  | Some n => if (n =? 0)%Z then y else n
  | None => y
  end.

(** The dict that [create_jwt_payload] builds before it hands it to
    [JWTPayload]. *)
Definition create_jwt_payload_data (user clinic whatsapp : string) (r : UserRole)
    (doctor : option string) (exp_timestamp iat_timestamp : option Z) (now : Z)
  : gmap string value :=
  <["user_id" := VStr user]>
  (<["clinic_id" := VStr clinic]>
  (<["whatsapp_number" := VStr whatsapp]>
  (<["doctor_id" := of_opt doctor]>
  (<["role" := VStr (UserRole_value r)]>
  (<["permissions" :=
       VList ((λ p, VStr (Permission_value p)) <$> elements (get_permissions_for_role r))]>
  (<["patient_access_scope" := VStr (DataAccessScope_value (get_data_access_scope r))]>
  (<["exp" := VInt (or_else exp_timestamp (now + 3600))]>
  (<["iat" := VInt (or_else iat_timestamp now)]>
  (<["iss" := VStr "pulseops-api"]> ∅))))))))).

Definition create_jwt_payload (user clinic whatsapp : string) (r : UserRole)
    (doctor : option string) (exp_timestamp iat_timestamp : option Z) (now : Z)
  : result JWTPayload :=
  JWTPayload_init
    (create_jwt_payload_data user clinic whatsapp r doctor exp_timestamp iat_timestamp now).

(** [validate_permission_access]; [None] is a normal return. *)
Definition validate_permission_access (user_permissions : gset Permission)
    (required : Permission) (user_role : UserRole) : result unit :=
  if bool_decide (required ∈ user_permissions) then Ok tt
  else Raise (AuthorizationError "INSUFFICIENT_PERMISSIONS").

(** [validate_data_isolation] *)
Definition validate_data_isolation (jwt_payload : JWTPayload)
    (resource_clinic_id : string)
    (resource_doctor_id resource_patient_id : option string) : result unit :=
  (if negb (can_access_clinic_data jwt_payload resource_clinic_id)
   then Raise (AuthorizationError "CLINIC_ACCESS_DENIED") else Ok tt);;
  (if is_doctor jwt_payload && truthy_opt resource_doctor_id
   then
     if negb (can_access_doctor_data jwt_payload (default "" resource_doctor_id))
     then Raise (AuthorizationError "DOCTOR_ACCESS_DENIED") else Ok tt
   else Ok tt);;
  (if truthy_opt resource_patient_id && truthy_opt resource_doctor_id
   then
     if negb (can_access_patient_data jwt_payload
                (default "" resource_doctor_id) (default "" resource_patient_id))
     then Raise (AuthorizationError "PATIENT_ACCESS_DENIED") else Ok tt
   else Ok tt).

(** [str(e)], abstracted to the name of the exception's class. *)
Definition str_exc (e : exc) : string :=
  match e with
  | ValueError => "ValueError"
  | TypeError => "TypeError"
  | AttributeError => "AttributeError"
  | JoseJWTError => "JWTError"
  | JoseExpiredSignatureError => "ExpiredSignatureError"
  | PyJWTInvalidTokenError => "InvalidTokenError"
  | PyJWTExpiredSignatureError => "ExpiredSignatureError"
  | FernetInvalidToken => "InvalidToken"
  | BinasciiError => "Error"
  | InvalidTokenError _ => "InvalidTokenError"
  | TokenExpiredError => "TokenExpiredError"
  | AuthorizationError _ => "AuthorizationError"
  | SecurityError => "SecurityError"
  | RateLimitExceededError _ _ _ => "RateLimitExceededError"
  end.

(** [get_current_user]: PyJWT decodes the bearer credentials, the payload
    becomes a [JWTPayload]; the three [except] clauses are tried in
    order. *)
Definition get_current_user (auth_config : AuthConfig) (credentials : JWT.token)
    (now : Z) : result JWTPayload :=
  try_except
    (payload ← JWT.pyjwt_decode credentials
                 (jwt_secret_key auth_config) (jwt_algorithm auth_config) now;
     jwt_payload ← JWTPayload_init payload;
     expired ← is_expired jwt_payload now;
     if expired : bool then Raise TokenExpiredError else Ok jwt_payload)
    (λ e, match e with
          | PyJWTExpiredSignatureError => Raise TokenExpiredError
          | PyJWTInvalidTokenError => Raise (InvalidTokenError NoDetails)
          | _ => Raise (InvalidTokenError (DetailsDict [("error", VStr (str_exc e))]))
          end).

(** The permission helpers below the decorators. *)
Definition can_manage_doctor (user : JWTPayload) (target_doctor_id : string) : bool :=
  if is_admin user then true
  else is_doctor user && eq_str (doctor_id user) target_doctor_id.

Definition can_manage_subscription (user : JWTPayload) : bool := is_admin user.

End Permissions.

(* ===================================================================== *)
(** * [src/core/security.py]: tokens, OTPs, encryption, rate limiting *)
(* ===================================================================== *)

Module Security.
Import Permissions.

(** ** The cryptographic libraries the module calls *)

(** [cryptography.fernet.Fernet]: a cipher object, its key inside.
    [encrypt] draws the current time and a random IV, which are
    arguments here. *)
Record Fernet : Type := {
  fernet_encrypt : Z → string → string → string;
  fernet_decrypt : string → result string
}.

(** [base64.urlsafe_b64encode] and [base64.urlsafe_b64decode]. *)
Record Base64 : Type := {
  urlsafe_b64encode : string → string;
  urlsafe_b64decode : string → result string
}.

(** What the libraries promise: decryption undoes encryption under the
    same key, whatever the time and the IV, and decoding undoes
    encoding. *)
Definition Fernet_correct (c : Fernet) : Prop :=
  ∀ now iv m, fernet_decrypt c (fernet_encrypt c now iv m) = Ok m.

Definition Base64_correct (b : Base64) : Prop :=
  ∀ s, urlsafe_b64decode b (urlsafe_b64encode b s) = Ok s.

Section WithLibraries.

(** [hashlib.sha256(s.encode()).hexdigest()] *)
Variable sha256_hexdigest : string → string.
(** The text of a bearer token, as [jwt.encode] returns it. *)
Variable token_text : JWT.token → string.
Variable b64 : Base64.

Variable auth_config : AuthConfig.
Variable security_config : SecurityConfig.

(** ** [class JWTSecurity] *)

(** The payload of an access token; [now] is the clock and [jti] the
    fresh [uuid4]. *)
Definition access_payload (user clinic whatsapp : value) (r : UserRole)
    (doctor : option string) (perms : option (list string))
    (expires_delta : option Z) (now : Z) (jti : string) : gmap string value :=
  let expires_delta :=
    default (60 * jwt_access_token_expire_minutes auth_config)%Z expires_delta in
  let expire := (now + expires_delta)%Z in
  <["sub" := user]>
  (<["user_id" := user]>
  (<["clinic_id" := clinic]>
  (<["whatsapp_number" := whatsapp]>
  (<["role" := VStr (UserRole_value r)]>
  (<["doctor_id" := of_opt doctor]>
  (<["permissions" := VList (VStr <$> default [] perms)]>
  (<["token_type" := VStr "access"]>
  (<["iat" := VInt now]>
  (<["exp" := VInt expire]>
  (<["jti" := VStr jti]>
  (<["iss" := VStr "pulseops-api"]> ∅))))))))))).

(** [create_access_token] as Python runs it: the identifiers are not
    checked to be strings. *)
Definition create_access_token_dyn (user clinic whatsapp : value) (r : UserRole)
    (doctor : option string) (perms : option (list string))
    (expires_delta : option Z) (now : Z) (jti : string) : JWT.token :=
  JWT.encode
    (access_payload user clinic whatsapp r doctor perms expires_delta now jti)
    (jwt_secret_key auth_config) (jwt_algorithm auth_config).

(** [JWTSecurity.create_access_token] on arguments of the annotated
    types. *)
Definition create_access_token (user clinic whatsapp : string) (r : UserRole)
    (doctor : option string) (perms : option (list string))
    (expires_delta : option Z) (now : Z) (jti : string) : JWT.token :=
  create_access_token_dyn (VStr user) (VStr clinic) (VStr whatsapp)
    r doctor perms expires_delta now jti.

Definition refresh_payload (user clinic : string) (expires_delta : option Z)
    (now : Z) (jti : string) : gmap string value :=
  let expires_delta :=
    default (86400 * jwt_refresh_token_expire_days auth_config)%Z expires_delta in
  let expire := (now + expires_delta)%Z in
  <["sub" := VStr user]>
  (<["user_id" := VStr user]>
  (<["clinic_id" := VStr clinic]>
  (<["token_type" := VStr "refresh"]>
  (<["iat" := VInt now]>
  (<["exp" := VInt expire]>
  (<["jti" := VStr jti]>
  (<["iss" := VStr "pulseops-api"]> ∅))))))).

(** [JWTSecurity.create_refresh_token] *)
Definition create_refresh_token (user clinic : string) (expires_delta : option Z)
    (now : Z) (jti : string) : JWT.token :=
  JWT.encode (refresh_payload user clinic expires_delta now jti)
    (jwt_secret_key auth_config) (jwt_algorithm auth_config).

(** One entry of the blacklist; the two ISO dates are kept as times. *)
Record BlacklistEntry : Type := {
  revoked_at : Z;
  expires_at : Z;
  token_hash : string
}.

(** An instance of [JWTSecurity].  The class has no [__init__]: the
    attribute [_token_blacklist] exists on an instance only once
    [revoke_token] has set it on that instance. *)
Record JWTSecurity : Type := {
  _token_blacklist : option (gmap string BlacklistEntry)
}.

(** [JWTSecurity()] *)
Definition JWTSecurity_new : JWTSecurity := {| _token_blacklist := None |}.

(** [self._generate_jti()]: the class defines no such method, so the
    attribute lookup raises. *)
Definition _generate_jti (self : JWTSecurity) : result value :=
  Raise AttributeError.

(** [datetime.fromtimestamp(exp, tz=timezone.utc)] *)
Definition fromtimestamp (v : value) : result Z :=
  match v with
  | VInt n => Ok n
  | VBool b => Ok (if b then 1 else 0)%Z
  | _ => Raise TypeError
  end.

(** A key of the blacklist.  The store is keyed by strings. *)
Definition blacklist_key (v : value) : result string :=
  match v with
  | VStr s => Ok s
  | _ => Raise TypeError
  end.

(** [revoke_token(self, token)]: the new state of [self], or the
    exception.  The default of [dict.get] is evaluated before the
    call. *)
Definition revoke_token (self : JWTSecurity) (token : JWT.token) (now : Z)
  : result JWTSecurity :=
  try_except
    (unverified_payload ← JWT.get_unverified_claims token;
     dflt ← _generate_jti self;
     let jti := dict_get unverified_payload "jti" dflt in
     let exp := dict_get unverified_payload "exp" VNone in
     exp_datetime ←
       (if truthy exp then fromtimestamp exp
        else Ok (now + 60 * jwt_access_token_expire_minutes auth_config)%Z);
     key ← blacklist_key jti;
     let blacklist := default ∅ (_token_blacklist self) in
     Ok {| _token_blacklist :=
             Some (<[key := {| revoked_at := now;
                               expires_at := exp_datetime;
                               token_hash :=
                                 String.substring 0 16 (sha256_hexdigest (token_text token)) |}]>
                     blacklist) |})
    (λ e, Raise SecurityError).

(** [is_token_revoked(self, token)]: the answer and the state of
    [self] afterwards. *)
Definition is_token_revoked (self : JWTSecurity) (token : JWT.token) (now : Z)
  : bool * JWTSecurity :=
  match JWT.get_unverified_claims token with
  | Raise _ => (false, self)
  | Ok unverified_payload =>
      let jti := dict_get unverified_payload "jti" VNone in
      if negb (truthy jti) then (false, self)
      else
        match _token_blacklist self with
        | None => (false, self)
        | Some blacklist =>
            match blacklist_key jti with
            | Raise _ => (false, self)
            | Ok key =>
                match blacklist !! key with
                | None => (false, self)
                | Some blacklist_entry =>
                    if (expires_at blacklist_entry <? now)%Z
                    then (false, {| _token_blacklist := Some (delete key blacklist) |})
                    else (true, self)
                end
            end
        end
  end.

(** [cleanup_expired_tokens(self)] *)
Definition cleanup_expired_tokens (self : JWTSecurity) (now : Z) : JWTSecurity :=
  match _token_blacklist self with
  | None => self
  | Some blacklist =>
      {| _token_blacklist :=
           Some (filter (λ kv, ¬ (expires_at kv.2 < now)%Z) blacklist) |}
  end.

Definition required_fields : list string :=
  ["user_id"; "clinic_id"; "role"; "token_type"; "exp"; "iat"].

(** The loop over [required_fields]: the first absent field raises. *)
Fixpoint check_required (fields : list string) (payload : gmap string value)
  : result unit :=
  match fields with
  | [] => Ok tt
  | field :: rest =>
      match payload !! field with
      | None => Raise (InvalidTokenError (DetailsDict [("missing_field", VStr field)]))
      | Some _ => check_required rest payload
      end
  end.

(** [JWTSecurity.decode_token(token)], a static method: the blacklist
    it consults is that of an instance it creates itself. *)
Definition decode_token (token : JWT.token) (now : Z) : result (gmap string value) :=
  try_except
    (let jwt_instance := JWTSecurity_new in
     (if (is_token_revoked jwt_instance token now).1
      then Raise (InvalidTokenError (DetailsStr "Token has been revoked"))
      else Ok tt);;
     payload ← JWT.jose_decode token
                 (jwt_secret_key auth_config) (jwt_algorithm auth_config) now;
     check_required required_fields payload;;
     Ok payload)
    (λ e, match e with
          | JoseExpiredSignatureError => Raise TokenExpiredError
          | JoseJWTError =>
              Raise (InvalidTokenError (DetailsDict [("jwt_error", VStr (str_exc e))]))
          | _ => Raise e
          end).

(** [JWTSecurity.refresh_access_token(refresh_token)] *)
Definition refresh_access_token (refresh_token : JWT.token) (now : Z) (jti : string)
  : result JWT.token :=
  payload ← decode_token refresh_token now;
  (if negb (eq_str (dict_get payload "token_type" VNone) "refresh")
   then Raise (InvalidTokenError
                 (DetailsDict [("expected_type", VStr "refresh");
                               ("actual_type", dict_get payload "token_type" VNone)]))
   else Ok tt);;
  r ← UserRole_of (dict_get payload "role" VNone);
  Ok (create_access_token_dyn
        (dict_get payload "user_id" VNone) (dict_get payload "clinic_id" VNone)
        (VStr "") r None None None now jti).

(** [JWTSecurity.invalidate_token(token)], a static method: it revokes
    on an instance of its own and swallows every exception. *)
Definition invalidate_token (token : JWT.token) (now : Z) : unit :=
  match
    (unverified_payload ← JWT.get_unverified_claims token;
     let jwt_instance := JWTSecurity_new in
     revoke_token jwt_instance token now)
  with
  | Ok _ => tt
  | Raise _ => tt
  end.

(** ** [class OTPSecurity] *)

(** [str(d)] for a decimal digit [d]. *)
Definition str_digit (d : nat) : string :=
  String (Ascii.ascii_of_nat (48 + d)) "".

(** [generate_otp(length)]: [randbelow i] is the [i]-th draw of
    [secrets.randbelow(10)]. *)
Definition generate_otp (length : option nat) (randbelow : nat → nat) : string :=
  let length := default (Z.to_nat (otp_length auth_config)) length in
  String.concat "" ((λ i, str_digit (randbelow i)) <$> seq 0 length).

(** [create_otp_hash(otp, request_id)] *)
Definition create_otp_hash (otp request_id : string) : string :=
  let secret := jwt_secret_key auth_config in
  let combined := otp ++ ":" ++ request_id ++ ":" ++ secret in
  sha256_hexdigest combined.

(** [verify_otp(otp, stored_hash, request_id)];
    [hmac.compare_digest] is equality of the two strings. *)
Definition verify_otp (otp stored_hash request_id : string) : bool :=
  let expected_hash := create_otp_hash otp request_id in
  let is_valid := String.eqb expected_hash stored_hash in
  is_valid.

(** [is_otp_expired(created_at)] *)
Definition is_otp_expired (created_at now : Z) : bool :=
  let expiry_time := (created_at + 60 * otp_expire_minutes auth_config)%Z in
  (expiry_time <? now)%Z.

(** ** [class DataEncryption] *)

(** An instance: the key and the [Fernet] cipher made from it.  A
    Python [str] is modelled by the bytes of its UTF-8 encoding, so
    [.encode()] and [.decode()] do not show. *)
Record DataEncryption : Type := {
  key : string;
  cipher : Fernet
}.

(** [encrypt_sensitive_data(self, data)]; [now] and [iv] are what
    [Fernet.encrypt] draws from the clock and from [os.urandom]. *)
Definition encrypt_sensitive_data (self : DataEncryption) (data : string)
    (now : Z) (iv : string) : result string :=
  if negb (data_encryption_enabled security_config) then Ok data
  else
    try_except
      (let encrypted_data := fernet_encrypt (cipher self) now iv data in
       Ok (urlsafe_b64encode b64 encrypted_data))
      (λ e, Raise SecurityError).

(** [decrypt_sensitive_data(self, encrypted_data)] *)
Definition decrypt_sensitive_data (self : DataEncryption) (encrypted_data : string)
  : result string :=
  if negb (data_encryption_enabled security_config) then Ok encrypted_data
  else
    try_except
      (decoded_data ← urlsafe_b64decode b64 encrypted_data;
       decrypted_data ← fernet_decrypt (cipher self) decoded_data;
       Ok decrypted_data)
      (λ e, Raise SecurityError).

(** ** [class RateLimiter] *)

Record RateLimiter : Type := {
  _requests : gmap string (list Z);
  _otp_requests : gmap string (list Z)
}.

(** [RateLimiter()] *)
Definition RateLimiter_new : RateLimiter :=
  {| _requests := ∅; _otp_requests := ∅ |}.

(** [check_rate_limit(self, identifier, limit, window_seconds)] at time
    [now]: the state of [self] afterwards and the outcome.  The pruned
    history is stored before the limit is tested, so it is kept also
    when the call raises. *)
Definition check_rate_limit (self : RateLimiter) (identifier : string)
    (limit window_seconds : Z) (now : Z) : RateLimiter * result bool :=
  let window_start := (now - window_seconds)%Z in
  let history := default [] (_requests self !! identifier) in
  let kept := filter (λ req_time, (window_start < req_time)%Z) history in
  if (limit <=? Z.of_nat (List.length kept))%Z
  then ({| _requests := <[identifier := kept]> (_requests self);
           _otp_requests := _otp_requests self |},
        Raise (RateLimitExceededError identifier limit window_seconds))
  else ({| _requests := <[identifier := (kept ++ [now])%list]> (_requests self);
           _otp_requests := _otp_requests self |},
        Ok true).

(** [check_otp_rate_limit(self, whatsapp_number)] *)
Definition check_otp_rate_limit (self : RateLimiter) (whatsapp : string) (now : Z)
  : RateLimiter * result bool :=
  check_rate_limit self ("otp:" ++ whatsapp)
    (otp_rate_limit_per_hour auth_config) 3600 now.

End WithLibraries.

End Security.

(* ===================================================================== *)
(** * A concrete environment to run the model in *)
(* ===================================================================== *)

Module Fixture.
Import Permissions Security.

(** The defaults of [AuthenticationConfig], with a 32-character secret. *)
Definition auth : AuthConfig :=
  {| jwt_secret_key := "0123456789abcdef0123456789abcdef";
     jwt_algorithm := "HS256";
     jwt_access_token_expire_minutes := 60;
     jwt_refresh_token_expire_days := 7;
     otp_length := 6;
     otp_expire_minutes := 5;
     otp_max_attempts := 3;
     otp_rate_limit_per_hour := 10 |}.

Definition encryption_on : SecurityConfig :=
  {| data_encryption_enabled := true; pii_masking_enabled := true |}.

Definition encryption_off : SecurityConfig :=
  {| data_encryption_enabled := false; pii_masking_enabled := true |}.

(** Stand-ins for the libraries, enough to evaluate the model: a digest
    that is injective, a codec and a cipher that tag their input. *)
Definition digest (s : string) : string := "sha256:" ++ s.

Definition codec : Base64 :=
  {| urlsafe_b64encode := λ s, String "b"%char s;
     urlsafe_b64decode := λ s,
       match s with
       | String "b"%char s' => Ok s'
       | _ => Raise BinasciiError
       end |}.

Definition tagging_cipher : Fernet :=
  {| fernet_encrypt := λ now iv m, String "f"%char m;
     fernet_decrypt := λ s,
       match s with
       | String "f"%char m => Ok m
       | _ => Raise FernetInvalidToken
       end |}.

Definition encryption : DataEncryption :=
  {| key := "k"; cipher := tagging_cipher |}.

(** An identity as a verified token yields it. *)
Definition identity (r : UserRole) (clinic : string) (doctor : option string)
  : JWTPayload :=
  {| user_id := VStr "U1";
     clinic_id := VStr clinic;
     whatsapp_number := VStr "+919876543210";
     doctor_id := of_opt doctor;
     role := r;
     permissions := get_permissions_for_role r;
     patient_access_scope := get_data_access_scope r;
     exp := VInt 4600;
     iat := VInt 1000;
     iss := VStr "pulseops-api" |}.

End Fixture.

(* ===================================================================== *)
(** * The permission catalog *)
(* ===================================================================== *)

Module CatalogSpec.
Import Permissions.

(** [needle in s] *)
Fixpoint contains (needle s : string) : bool :=
  String.prefix needle s ||
  match s with
  | EmptyString => false
  | String _ s' => contains needle s'
  end.

(** The name of a tag speaks of another doctor's data, of another
    clinic's, or of every doctor's. *)
Definition names_wider_scope (p : Permission) : bool :=
  existsb (λ marker, contains marker (Permission_value p))
          ["other_"; "cross_"; "_all_"; "_any_"].

Lemma gset_forall_elements `{Countable A} (P : A → Prop) (X : gset A) :
  Forall P (elements X) → ∀ x, x ∈ X → P x.
Proof. intros HF x Hx. rewrite Forall_forall in HF. apply HF, elem_of_elements, Hx. Qed.

Lemma catalog_nonempty (r : UserRole) : get_permissions_for_role r ≠ ∅.
Proof. destruct r; intros E; apply (f_equal size) in E; vm_compute in E; discriminate. Qed.

Lemma manage_subscription_not_for_doctor :
  MANAGE_SUBSCRIPTION ∉ get_permissions_for_role DOCTOR.
Proof. compute_done. Qed.

Lemma doctor_tags_named_own_scope (p : Permission) :
  p ∈ get_permissions_for_role DOCTOR → names_wider_scope p = false.
Proof. revert p. apply gset_forall_elements. compute_done. Qed.

(** C9.  The catalog of both roles is the role's static set and is not
    empty; the admin-only tags, [manage_subscription] among them, and the
    explicitly denied tags are disjoint from the doctor's set, no tag of
    which is named after a wider scope than the doctor's own; the two
    role sets share no tag. *)
Theorem catalog_invariant :
  get_permissions_for_role ADMIN = ADMIN_PERMISSIONS
  ∧ get_permissions_for_role DOCTOR = DOCTOR_PERMISSIONS
  ∧ (∀ r, get_permissions_for_role r ≠ ∅)
  ∧ (ADMIN_ONLY_PERMISSIONS ⊆ get_permissions_for_role ADMIN)
  ∧ (ADMIN_ONLY_PERMISSIONS ## get_permissions_for_role DOCTOR)
  ∧ (MANAGE_SUBSCRIPTION ∈ ADMIN_ONLY_PERMISSIONS)
  ∧ (MANAGE_SUBSCRIPTION ∉ get_permissions_for_role DOCTOR)
  ∧ (DOCTOR_DENIED_PERMISSIONS ## get_permissions_for_role DOCTOR)
  ∧ (∀ p, p ∈ get_permissions_for_role DOCTOR → names_wider_scope p = false)
  ∧ (get_permissions_for_role ADMIN ## get_permissions_for_role DOCTOR).
Proof.
  split; [reflexivity|]. split; [reflexivity|].
  split; [apply catalog_nonempty|].
  split; [compute_done|]. split; [compute_done|].
  split; [compute_done|]. split; [apply manage_subscription_not_for_doctor|].
  split; [compute_done|].
  split; [apply doctor_tags_named_own_scope | compute_done].
Qed.

(** The doctor's own queue: a tag of the doctor's set, named after no wider
    scope. *)
Lemma catalog_invariant_witness :
  VIEW_OWN_QUEUE ∈ get_permissions_for_role DOCTOR
  ∧ names_wider_scope VIEW_OWN_QUEUE = false.
Proof.
  assert (Hin : VIEW_OWN_QUEUE ∈ get_permissions_for_role DOCTOR) by compute_done.
  split; [exact Hin|].
  exact (proj1 (proj2 (proj2 (proj2 (proj2 (proj2 (proj2 (proj2 (proj2
           catalog_invariant)))))))) VIEW_OWN_QUEUE Hin).
Defined.

End CatalogSpec.

(* ===================================================================== *)
(** * Data isolation *)
(* ===================================================================== *)

Module IsolationSpec.
Import Permissions.

Lemma eq_str_true (v : value) (s : string) : eq_str v s = true ↔ v = VStr s.
Proof.
  destruct v; simpl; try (split; [discriminate | intros [=]]).
  rewrite String.eqb_eq. split; [congruence | intros [=]; done].
Qed.

Lemma eq_str_false (v : value) (s : string) : eq_str v s = false ↔ v ≠ VStr s.
Proof.
  rewrite <- eq_str_true. destruct (eq_str v s); split; congruence.
Qed.

(** Both roles: the patient rule is the doctor rule. *)
Lemma patient_rule_is_doctor_rule (p : JWTPayload) (d pid : string) :
  can_access_patient_data p d pid = can_access_doctor_data p d.
Proof.
  unfold can_access_patient_data, can_access_doctor_data, is_admin, is_doctor.
  destruct (role p); simpl; [done|]. by destruct (eq_str _ _).
Qed.

(** The outcome of the check, as one decision table. *)
Lemma validate_data_isolation_table (p : JWTPayload) (rc : string)
    (rd rp : option string) :
  validate_data_isolation p rc rd rp =
    if negb (eq_str (clinic_id p) rc)
    then Raise (AuthorizationError "CLINIC_ACCESS_DENIED")
    else if is_doctor p && truthy_opt rd
              && negb (eq_str (doctor_id p) (default "" rd))
    then Raise (AuthorizationError "DOCTOR_ACCESS_DENIED")
    else Ok tt.
Proof.
  unfold validate_data_isolation, can_access_clinic_data.
  rewrite patient_rule_is_doctor_rule.
  unfold can_access_doctor_data, is_admin, is_doctor.
  destruct (eq_str (clinic_id p) rc); simpl; [|done].
  destruct (role p), (truthy_opt rd), (truthy_opt rp),
    (eq_str (doctor_id p) (default "" rd)); reflexivity.
Qed.

(** C3.  (a) A resource of another clinic is denied, whatever the role.
    (b) Inside the clinic, a doctor asking for a resource with a doctor
    id is denied unless that id is the doctor's own; an admin is
    granted.  (c) The check applied when a patient id is given as well
    is the doctor rule again and changes no outcome.  So doctor D1 is
    denied the resources of D2 and granted those of D1, an admin of the
    same clinic is granted both, and anybody is denied outside the
    clinic.  An id is given when it is neither [None] nor empty. *)
Theorem data_isolation (p : JWTPayload) (rc : string) (rd rp : option string) :
  (clinic_id p ≠ VStr rc →
     validate_data_isolation p rc rd rp
     = Raise (AuthorizationError "CLINIC_ACCESS_DENIED"))
  ∧ (clinic_id p = VStr rc → role p = DOCTOR →
     ∀ d, rd = Some d → d ≠ "" →
       (doctor_id p ≠ VStr d →
          validate_data_isolation p rc rd rp
          = Raise (AuthorizationError "DOCTOR_ACCESS_DENIED"))
       ∧ (doctor_id p = VStr d → validate_data_isolation p rc rd rp = Ok tt))
  ∧ (clinic_id p = VStr rc → role p = DOCTOR → truthy_opt rd = false →
     validate_data_isolation p rc rd rp = Ok tt)
  ∧ (clinic_id p = VStr rc → role p = ADMIN →
     validate_data_isolation p rc rd rp = Ok tt)
  ∧ (∀ d pid, can_access_patient_data p d pid = can_access_doctor_data p d)
  ∧ validate_data_isolation p rc rd rp = validate_data_isolation p rc rd None
  ∧ (∀ clinic,
       validate_data_isolation
         (Fixture.identity DOCTOR clinic (Some "D1")) clinic (Some "D2") rp
       = Raise (AuthorizationError "DOCTOR_ACCESS_DENIED")
       ∧ validate_data_isolation
           (Fixture.identity DOCTOR clinic (Some "D1")) clinic (Some "D1") rp
         = Ok tt
       ∧ validate_data_isolation
           (Fixture.identity ADMIN clinic None) clinic (Some "D1") rp
         = Ok tt
       ∧ validate_data_isolation
           (Fixture.identity ADMIN clinic None) clinic (Some "D2") rp
         = Ok tt)
  ∧ (∀ r clinic doctor,
       clinic ≠ rc →
       validate_data_isolation (Fixture.identity r clinic doctor) rc rd rp
       = Raise (AuthorizationError "CLINIC_ACCESS_DENIED")).
Proof.
  repeat apply conj.
  - intros Hc. rewrite validate_data_isolation_table.
    apply eq_str_false in Hc. by rewrite Hc.
  - intros Hc Hr d -> Hd. rewrite !validate_data_isolation_table.
    apply eq_str_true in Hc. rewrite Hc. unfold is_doctor. rewrite Hr. simpl.
    apply String.eqb_neq in Hd. rewrite Hd. simpl. split; intros Hdoc.
    + apply eq_str_false in Hdoc. by rewrite Hdoc.
    + apply eq_str_true in Hdoc. by rewrite Hdoc.
  - intros Hc Hr Hrd. rewrite validate_data_isolation_table.
    apply eq_str_true in Hc. rewrite Hc, Hrd. simpl. by rewrite andb_false_r.
  - intros Hc Hr. rewrite validate_data_isolation_table.
    apply eq_str_true in Hc. rewrite Hc. unfold is_doctor. by rewrite Hr.
  - apply patient_rule_is_doctor_rule.
  - by rewrite !validate_data_isolation_table.
  - intros clinic. rewrite !validate_data_isolation_table. simpl.
    rewrite String.eqb_refl. done.
  - intros r clinic doctor Hne. rewrite validate_data_isolation_table. simpl.
    apply String.eqb_neq in Hne. by rewrite Hne.
Qed.

(** Doctor D1 of clinic C1 asking for a patient record of doctor D2: denied
    inside the clinic at the doctor boundary, and at the clinic boundary
    from outside. *)
Lemma data_isolation_witness :
  validate_data_isolation (Fixture.identity DOCTOR "C1" (Some "D1"))
    "C1" (Some "D2") (Some "P1")
  = Raise (AuthorizationError "DOCTOR_ACCESS_DENIED")
  ∧ validate_data_isolation (Fixture.identity DOCTOR "C1" (Some "D1"))
      "C2" (Some "D1") (Some "P1")
    = Raise (AuthorizationError "CLINIC_ACCESS_DENIED").
Proof.
  split.
  - destruct (data_isolation (Fixture.identity DOCTOR "C1" (Some "D1"))
                "C1" (Some "D2") (Some "P1")) as (_ & Hdoctor & _).
    destruct (Hdoctor eq_refl eq_refl "D2" eq_refl) as [Hdenied _];
      [discriminate|].
    apply Hdenied. discriminate.
  - destruct (data_isolation (Fixture.identity DOCTOR "C1" (Some "D1"))
                "C2" (Some "D1") (Some "P1")) as (Hclinic & _).
    apply Hclinic. discriminate.
Defined.

End IsolationSpec.

(* ===================================================================== *)
(** * The sliding-window rate limiter *)
(* ===================================================================== *)

Module RateLimitSpec.
Import Security.
Local Close Scope string_scope.

(** The timestamps recorded for an identifier. *)
Definition history (self : RateLimiter) (identifier : string) : list Z :=
  default [] (_requests self !! identifier).

(** The same caller calling at each of [times], in order. *)
Fixpoint calls (self : RateLimiter) (identifier : string) (limit window : Z)
    (times : list Z) : RateLimiter * list (result bool) :=
  match times with
  | [] => (self, [])
  | now :: rest =>
      let step := check_rate_limit self identifier limit window now in
      let tail := calls step.1 identifier limit window rest in
      (tail.1, step.2 :: tail.2)
  end.

Section Window.
Variables (identifier : string) (limit window : Z).

Abbreviation check self now := (check_rate_limit self identifier limit window now).

Lemma filter_keeps_all (P : Z → Prop) `{∀ x, Decision (P x)} (l : list Z) :
  (∀ t, t ∈ l → P t) → filter P l = l.
Proof.
  induction l as [|a l IH]; intros Hall; [done|].
  rewrite filter_cons_True by (apply Hall; left).
  f_equal. apply IH. intros t Ht. apply Hall. by right.
Qed.

Lemma filter_drops_all (P : Z → Prop) `{∀ x, Decision (P x)} (l : list Z) :
  (∀ t, t ∈ l → ¬ P t) → filter P l = [].
Proof.
  induction l as [|a l IH]; intros Hall; [done|].
  rewrite filter_cons_False by (apply Hall; left).
  apply IH. intros t Ht. apply Hall. by right.
Qed.

(** A call that finds fewer than [limit] timestamps in its window. *)
Lemma check_accepts (self : RateLimiter) (now : Z) :
  let kept := filter (λ t, now - window < t)%Z (history self identifier) in
  (Z.of_nat (List.length kept) < limit)%Z →
  (check self now).2 = Ok true
  ∧ history (check self now).1 identifier = (kept ++ [now])%list.
Proof.
  intros kept Hlt. unfold check_rate_limit. fold (history self identifier). fold kept.
  destruct (Z.leb_spec limit (Z.of_nat (List.length kept))); [lia|].
  split; [done|]. unfold history. simpl. by rewrite lookup_insert_eq.
Qed.

(** A call that finds [limit] timestamps or more in its window. *)
Lemma check_rejects (self : RateLimiter) (now : Z) :
  let kept := filter (λ t, now - window < t)%Z (history self identifier) in
  (limit ≤ Z.of_nat (List.length kept))%Z →
  (check self now).2 = Raise (RateLimitExceededError identifier limit window)
  ∧ history (check self now).1 identifier = kept.
Proof.
  intros kept Hle. unfold check_rate_limit. fold (history self identifier). fold kept.
  destruct (Z.leb_spec limit (Z.of_nat (List.length kept))); [|lia].
  split; [done|]. unfold history. simpl. by rewrite lookup_insert_eq.
Qed.

Lemma check_other (self : RateLimiter) (now : Z) (other : string) :
  other ≠ identifier →
  history (check self now).1 other = history self other.
Proof.
  intros Hne. unfold check_rate_limit, history.
  destruct (_ <=? _)%Z; simpl; by rewrite lookup_insert_ne.
Qed.

(** Calls at times that all lie in one window ending at [bound] are
    accepted as long as the history has room for them, and each is
    recorded. *)
Lemma calls_in_one_window (bound : Z) (times : list Z) :
  ∀ self,
    (Z.of_nat (List.length (history self identifier) + List.length times) ≤ limit)%Z →
    (∀ t, t ∈ history self identifier → bound - window < t)%Z →
    (∀ t, t ∈ times → bound - window < t ∧ t ≤ bound)%Z →
    (calls self identifier limit window times).2
      = replicate (List.length times) (Ok true)
    ∧ history (calls self identifier limit window times).1 identifier
      = (history self identifier ++ times)%list.
Proof.
  induction times as [|now rest IH]; intros self Hroom Hhist Htimes.
  - simpl. by rewrite app_nil_r.
  - assert (Hnow : (bound - window < now ∧ now ≤ bound)%Z) by (apply Htimes; left).
    assert (Hkept : filter (λ t, now - window < t)%Z (history self identifier)
                    = history self identifier).
    { apply filter_keeps_all. intros t Ht. specialize (Hhist t Ht). lia. }
    destruct (check_accepts self now) as [Hout Hafter].
    { simpl. rewrite Hkept. simpl in Hroom. lia. }
    simpl in Hafter. rewrite Hkept in Hafter.
    destruct (IH (check self now).1) as [IHout IHhist].
    + rewrite Hafter, length_app. simpl in *. lia.
    + intros t. rewrite Hafter, elem_of_app, list_elem_of_singleton.
      intros [Ht| ->]; [by apply Hhist | lia].
    + intros t Ht. apply Htimes. by right.
    + simpl. rewrite Hout, IHout, IHhist, Hafter, <- app_assoc. done.
Qed.

End Window.

(** C6.  One call at time [now] keeps of the history exactly the
    timestamps later than [now - window]: every older one is dropped
    and every later one is kept.  If [limit] or more remain, the call
    raises [RateLimitExceededError] and records nothing; otherwise it
    records [now], returns [True], and leaves at most [limit] entries.
    Other identifiers are untouched.  So on a fresh limiter [limit]
    calls inside one window are accepted, one more inside that window
    is refused, and a call made once the window has passed every
    recorded timestamp is accepted again. *)
Theorem sliding_window (identifier : string) (limit window : Z) :
  (∀ self now,
     let kept := filter (λ t, now - window < t)%Z (history self identifier) in
     let after := (check_rate_limit self identifier limit window now).1 in
     let outcome := (check_rate_limit self identifier limit window now).2 in
     (∀ t, t < now - window → t ∉ kept)%Z
     ∧ (∀ t, t ∈ history self identifier → now - window < t → t ∈ kept)%Z
     ∧ ((limit ≤ Z.of_nat (List.length kept))%Z →
        outcome = Raise (RateLimitExceededError identifier limit window)
        ∧ history after identifier = kept)
     ∧ ((Z.of_nat (List.length kept) < limit)%Z →
        outcome = Ok true
        ∧ history after identifier = (kept ++ [now])%list)
     ∧ (outcome = Ok true →
        (Z.of_nat (List.length (history after identifier)) ≤ limit)%Z)
     ∧ (∀ other, other ≠ identifier → history after other = history self other))
  ∧ (∀ (times : list Z) (last : Z),
       Z.of_nat (List.length times) = limit →
       (∀ t, t ∈ times ++ [last] → last - window < t ∧ t ≤ last)%Z →
       let run := calls RateLimiter_new identifier limit window (times ++ [last]) in
       run.2 = (replicate (List.length times) (Ok true)
                ++ [Raise (RateLimitExceededError identifier limit window)])%list
       ∧ history run.1 identifier = times
       ∧ (∀ later,
            (1 ≤ limit)%Z →
            (∀ t, t ∈ times → t ≤ later - window)%Z →
            (check_rate_limit run.1 identifier limit window later).2 = Ok true)).
Proof.
  split.
  - intros self now kept after outcome. repeat apply conj.
    + intros t Hlt Hin. apply list_elem_of_filter in Hin as [Hin _]. lia.
    + intros t Hin Hlt. apply list_elem_of_filter. done.
    + apply check_rejects.
    + apply check_accepts.
    + intros Hok. destruct (Z.le_gt_cases limit (Z.of_nat (List.length kept))) as [Hle|Hgt].
      * apply check_rejects in Hle as [Hout _]. subst outcome. congruence.
      * destruct (check_accepts identifier limit window self now Hgt) as [_ Hafter].
        subst after. rewrite Hafter, length_app. simpl. fold kept. lia.
    + intros other Hne. by apply check_other.
  - intros times last Hlen Hin run.
    assert (Hfresh : history RateLimiter_new identifier = []) by done.
    destruct (calls_in_one_window identifier limit window last times RateLimiter_new)
      as [Hout Hhist].
    { rewrite Hfresh. simpl. lia. }
    { rewrite Hfresh. intros t Ht. apply elem_of_nil in Ht. destruct Ht. }
    { intros t Ht. apply Hin, elem_of_app. by left. }
    rewrite Hfresh in Hhist. simpl in Hhist.
    assert (Hsplit : ∀ self ts1 ts2,
      calls self identifier limit window (ts1 ++ ts2)
      = ((calls (calls self identifier limit window ts1).1 identifier limit window ts2).1,
         (calls self identifier limit window ts1).2
         ++ (calls (calls self identifier limit window ts1).1 identifier limit window ts2).2)).
    { intros self ts1. revert self.
      induction ts1 as [|a ts1 IH]; intros self ts2; simpl.
      - by destruct (calls self identifier limit window ts2).
      - by rewrite IH. }
    subst run. rewrite Hsplit. simpl.
    set (full := (calls RateLimiter_new identifier limit window times).1) in *.
    assert (Hkept : filter (λ t, last - window < t)%Z (history full identifier) = times).
    { rewrite Hhist. apply filter_keeps_all. intros t Ht.
      apply Hin, elem_of_app. by left. }
    destruct (check_rejects identifier limit window full last) as [Hrej Hsame].
    { simpl. rewrite Hkept. lia. }
    simpl in Hsame. rewrite Hkept in Hsame.
    repeat apply conj.
    + by rewrite Hout, Hrej.
    + done.
    + intros later Hpos Hold.
      apply check_accepts. simpl. rewrite Hsame.
      rewrite filter_drops_all; [simpl; lia|].
      intros t Ht. specialize (Hold t Ht). lia.
Qed.

(** The limit of five calls a minute: five calls ten seconds apart are
    accepted, the sixth is refused, and a call a minute after the fifth
    is accepted. *)
Lemma sliding_window_five_per_minute :
  (calls RateLimiter_new "otp:+919876543210" 5 60 [0; 10; 20; 30; 40; 50]%Z).2
  = [Ok true; Ok true; Ok true; Ok true; Ok true;
     Raise (RateLimitExceededError "otp:+919876543210" 5 60)]
  ∧ (check_rate_limit
       (calls RateLimiter_new "otp:+919876543210" 5 60 [0; 10; 20; 30; 40; 50]%Z).1
       "otp:+919876543210" 5 60 100).2
    = Ok true.
Proof.
  destruct (sliding_window "otp:+919876543210" 5 60) as [_ Hrun].
  destruct (Hrun [0; 10; 20; 30; 40]%Z 50%Z eq_refl) as (Hout & _ & Hlater).
  - intros t Ht. repeat (apply elem_of_cons in Ht as [->|Ht]); try lia.
    apply elem_of_nil in Ht. destruct Ht.
  - split; [exact Hout|]. apply Hlater; [lia|].
    intros t Ht. repeat (apply elem_of_cons in Ht as [->|Ht]); try lia.
    apply elem_of_nil in Ht. destruct Ht.
Defined.

End RateLimitSpec.

(* ===================================================================== *)
(** * Tokens: issuing, decoding, and the identity built from a payload *)
(* ===================================================================== *)

Module TokenSpec.
Import Permissions Security.

(** ** The constructor of [JWTPayload] *)

Lemma UserRole_of_Ok (v : value) (r : UserRole) :
  UserRole_of v = Ok r ↔ v = VStr (UserRole_value r).
Proof.
  split.
  - destruct v as [| | |s|]; simpl; try discriminate.
    destruct (String.eqb_spec s "ADMIN") as [->|_]; [by intros [= <-]|].
    destruct (String.eqb_spec s "DOCTOR") as [->|_]; [by intros [= <-]|].
    discriminate.
  - intros ->. by destruct r.
Qed.

Lemma DataAccessScope_of_Ok (v : value) (sc : DataAccessScope) :
  DataAccessScope_of v = Ok sc ↔ v = VStr (DataAccessScope_value sc).
Proof.
  split.
  - destruct v as [| | |s|]; simpl; try discriminate.
    destruct (String.eqb_spec s "CLINIC_ALL") as [->|_]; [by intros [= <-]|].
    destruct (String.eqb_spec s "DOCTOR_OWN") as [->|_]; [by intros [= <-]|].
    destruct (String.eqb_spec s "PATIENT_SELF") as [->|_]; [by intros [= <-]|].
    discriminate.
  - intros ->. by destruct sc.
Qed.

Lemma permission_set_raises (l : list value) (e : exc) :
  permission_set l = Raise e → e = ValueError.
Proof.
  induction l as [|v l IH]; simpl; [discriminate|].
  unfold Permission_of.
  destruct v as [| | |s|]; simpl; try (by intros [= <-]).
  destruct (Permission_lookup s); simpl; [|by intros [= <-]].
  destruct (permission_set l); simpl; [discriminate|].
  intros [= <-]. by apply IH.
Qed.

Lemma permission_set_of_raises (v : value) (e : exc) :
  permission_set_of v = Raise e → e = ValueError ∨ e = TypeError.
Proof.
  destruct v as [| | |s|l]; simpl; try (intros [= <-]; by right).
  - destruct (String.eqb s ""); [discriminate | intros [= <-]; by left].
  - intros H. left. by eapply permission_set_raises.
Qed.

(** The comprehension gives back a set that was written out value by
    value. *)
Lemma permission_set_of_values (l : list Permission) :
  permission_set ((λ p, VStr (Permission_value p)) <$> l) = Ok (list_to_set l).
Proof.
  induction l as [|p l IH]; [done|].
  rewrite fmap_cons. cbn [permission_set]. unfold Permission_of.
  by rewrite Permission_lookup_value, IH.
Qed.

(** What a successful construction says about the payload. *)
Lemma JWTPayload_init_Ok (d : gmap string value) (p : JWTPayload) :
  JWTPayload_init d = Ok p →
  dict_get d "role" (VStr "") = VStr (UserRole_value (role p))
  ∧ permission_set_of (dict_get d "permissions" (VList [])) = Ok (permissions p)
  ∧ dict_get d "patient_access_scope" (VStr "")
    = VStr (DataAccessScope_value (patient_access_scope p))
  ∧ user_id p = dict_get d "user_id" (VStr "")
  ∧ clinic_id p = dict_get d "clinic_id" (VStr "")
  ∧ doctor_id p = dict_get d "doctor_id" VNone.
Proof.
  unfold JWTPayload_init.
  destruct (UserRole_of _) as [r|] eqn:Hr; simpl; [|discriminate].
  destruct (permission_set_of _) as [ps|] eqn:Hps; simpl; [|discriminate].
  destruct (DataAccessScope_of _) as [sc|] eqn:Hsc; simpl; [|discriminate].
  intros [= <-]. simpl.
  apply UserRole_of_Ok in Hr. apply DataAccessScope_of_Ok in Hsc. done.
Qed.

Lemma JWTPayload_init_raises (d : gmap string value) (e : exc) :
  JWTPayload_init d = Raise e → e = ValueError ∨ e = TypeError.
Proof.
  unfold JWTPayload_init.
  destruct (UserRole_of _) as [r|e1] eqn:Hr; simpl.
  - destruct (permission_set_of _) as [ps|e2] eqn:Hps; simpl.
    + destruct (DataAccessScope_of _) as [sc|e3] eqn:Hsc; simpl; [discriminate|].
      intros [= <-]. left.
      destruct (dict_get d "patient_access_scope" (VStr "")) as [| | |s|];
        simpl in Hsc; try congruence.
      repeat destruct (String.eqb s _); congruence.
    + intros [= <-]. by eapply permission_set_of_raises.
  - intros [= <-]. left.
    destruct (dict_get d "role" (VStr "")) as [| | |s|]; simpl in Hr; try congruence.
    repeat destruct (String.eqb s _); congruence.
Qed.

Lemma dict_get_present (d : gmap string value) (k : string) (dflt v : value) :
  dict_get d k dflt = v → v ≠ dflt → d !! k = Some v.
Proof.
  unfold dict_get. destruct (d !! k); simpl; [congruence|]. intros <-. done.
Qed.

Lemma JWTPayload_init_no_scope (d : gmap string value) :
  d !! "patient_access_scope" = None → ∃ e, JWTPayload_init d = Raise e.
Proof.
  intros Hno. destruct (JWTPayload_init d) as [p|e] eqn:Hinit; [|eauto].
  apply JWTPayload_init_Ok in Hinit as (_ & _ & Hsc & _).
  unfold dict_get in Hsc. rewrite Hno in Hsc. simpl in Hsc.
  by destruct (patient_access_scope p).
Qed.

Lemma JWTPayload_init_no_role (d : gmap string value) :
  d !! "role" = None → JWTPayload_init d = Raise ValueError.
Proof.
  intros Hno. unfold JWTPayload_init, dict_get. by rewrite Hno.
Qed.

Lemma check_required_raises (fields : list string) (payload : gmap string value)
    (e : exc) :
  check_required fields payload = Raise e →
  ∃ f, e = InvalidTokenError (DetailsDict [("missing_field", VStr f)]).
Proof.
  induction fields as [|f fields IH]; simpl; [discriminate|].
  destruct (payload !! f); [done|]. intros [= <-]. eauto.
Qed.

Section Tokens.
Variable auth_config : AuthConfig.

Abbreviation secret := (jwt_secret_key auth_config).
Abbreviation algorithm := (jwt_algorithm auth_config).

Lemma signature_ok_encode (payload : gmap string value) :
  JWT.signature_ok (JWT.encode payload secret algorithm) secret algorithm
  = Some payload.
Proof. simpl. by rewrite !String.eqb_refl. Qed.

(** An instance that never revoked anything reports nothing revoked. *)
Lemma fresh_instance_reports_nothing (token : JWT.token) (now : Z) :
  is_token_revoked JWTSecurity_new token now = (false, JWTSecurity_new).
Proof.
  unfold is_token_revoked.
  destruct (JWT.get_unverified_claims token); [|done].
  by destruct (negb _).
Qed.

(** [decode_token] is the library's verdict followed by the check of
    the required fields; no blacklist takes part. *)
Lemma decode_token_unfold (token : JWT.token) (now : Z) :
  decode_token auth_config token now =
    match JWT.jose_decode token secret algorithm now with
    | Ok payload => check_required required_fields payload;; Ok payload
    | Raise JoseExpiredSignatureError => Raise TokenExpiredError
    | Raise e =>
        Raise (InvalidTokenError (DetailsDict [("jwt_error", VStr (str_exc e))]))
    end.
Proof.
  unfold decode_token. rewrite fresh_instance_reports_nothing.
  cbn [fst mbind result_bind].
  destruct (JWT.jose_decode token secret algorithm now) as [payload|e] eqn:Hd;
    cbn [mbind result_bind try_except].
  - destruct (check_required required_fields payload) as [|e] eqn:Hc;
      cbn [mbind result_bind try_except]; [done|].
    apply check_required_raises in Hc as [f ->]. done.
  - unfold JWT.jose_decode in Hd.
    destruct (JWT.signature_ok _ _ _); [|by injection Hd as <-].
    destruct (_ !! "exp") as [[| |e'| |]|]; try (by injection Hd as <-); try discriminate.
    destruct (_ <? _)%Z; [by injection Hd as <- | discriminate].
Qed.

(** Decoding an access token this program issued. *)
Lemma decode_access_token (u c w : string) (r : UserRole) (d : option string)
    (ps : option (list string)) (delta : option Z) (now : Z) (jti : string)
    (now' : Z) :
  decode_token auth_config
    (create_access_token auth_config u c w r d ps delta now jti) now'
  = if (now + default (60 * jwt_access_token_expire_minutes auth_config) delta <? now')%Z
    then Raise TokenExpiredError
    else Ok (access_payload auth_config (VStr u) (VStr c) (VStr w) r d ps delta now jti).
Proof.
  rewrite decode_token_unfold.
  unfold create_access_token, create_access_token_dyn, JWT.jose_decode.
  rewrite signature_ok_encode.
  change (access_payload auth_config (VStr u) (VStr c) (VStr w) r d ps delta now jti
            !! "exp")
    with (Some (VInt (now + default (60 * jwt_access_token_expire_minutes auth_config) delta))).
  cbv beta iota. by destruct (_ <? _)%Z.
Qed.

(** Decoding a refresh token this program issued: it has no [role]. *)
Lemma decode_refresh_token (u c : string) (delta : option Z) (now : Z)
    (jti : string) (now' : Z) :
  decode_token auth_config (create_refresh_token auth_config u c delta now jti) now'
  = if (now + default (86400 * jwt_refresh_token_expire_days auth_config) delta <? now')%Z
    then Raise TokenExpiredError
    else Raise (InvalidTokenError (DetailsDict [("missing_field", VStr "role")])).
Proof.
  rewrite decode_token_unfold. unfold create_refresh_token, JWT.jose_decode.
  rewrite signature_ok_encode.
  change (refresh_payload auth_config u c delta now jti !! "exp")
    with (Some (VInt (now + default (86400 * jwt_refresh_token_expire_days auth_config) delta))).
  cbv beta iota. by destruct (_ <? _)%Z.
Qed.

(** The constructor always fails on the payload of an access token
    issued by [create_access_token]: it has no scope. *)
Lemma JWTPayload_init_access_payload (u c w : value) (r : UserRole)
    (d : option string) (ps : option (list string)) (delta : option Z)
    (now : Z) (jti : string) :
  JWTPayload_init (access_payload auth_config u c w r d ps delta now jti)
  = Raise ValueError.
Proof.
  unfold JWTPayload_init.
  change (dict_get (access_payload auth_config u c w r d ps delta now jti)
            "role" (VStr ""))
    with (VStr (UserRole_value r)).
  rewrite (proj2 (UserRole_of_Ok _ r) eq_refl). cbn [mbind result_bind].
  change (dict_get (access_payload auth_config u c w r d ps delta now jti)
            "permissions" (VList []))
    with (VList (VStr <$> default [] ps)).
  cbn [permission_set_of].
  destruct (permission_set _) as [set|e] eqn:Hps; cbn [mbind result_bind].
  - reflexivity.
  - by rewrite (permission_set_raises _ _ Hps).
Qed.

Lemma JWTPayload_init_refresh_payload (u c : string) (delta : option Z)
    (now : Z) (jti : string) :
  JWTPayload_init (refresh_payload auth_config u c delta now jti)
  = Raise ValueError.
Proof. reflexivity. Qed.

(** ** [get_current_user] *)

Lemma get_current_user_construction_failure (t : JWT.token) (now : Z)
    (d : gmap string value) (e : exc) :
  JWT.pyjwt_decode t secret algorithm now = Ok d →
  JWTPayload_init d = Raise e →
  get_current_user auth_config t now
  = Raise (InvalidTokenError (DetailsDict [("error", VStr (str_exc e))])).
Proof.
  intros Hd Hinit. unfold get_current_user. rewrite Hd. cbn [mbind result_bind].
  rewrite Hinit. cbn [mbind result_bind try_except].
  by destruct (JWTPayload_init_raises _ _ Hinit) as [-> | ->].
Qed.

Lemma get_current_user_Ok (t : JWT.token) (now : Z) (p : JWTPayload) :
  get_current_user auth_config t now = Ok p →
  ∃ d, JWT.pyjwt_decode t secret algorithm now = Ok d ∧ JWTPayload_init d = Ok p.
Proof.
  unfold get_current_user.
  destruct (JWT.pyjwt_decode _ _ _ _) as [d|e1]; cbn [mbind result_bind try_except];
    [|by destruct e1].
  destruct (JWTPayload_init d) as [p'|e2] eqn:Hinit;
    cbn [mbind result_bind try_except]; [|by destruct e2].
  destruct (is_expired p' now) as [[]|e3]; cbn [mbind result_bind try_except];
    [discriminate | | by destruct e3].
  intros [= <-]. eauto.
Qed.

Lemma get_current_user_Raise (t : JWT.token) (now : Z) (e : exc) :
  get_current_user auth_config t now = Raise e →
  e = TokenExpiredError ∨ ∃ det, e = InvalidTokenError det.
Proof.
  unfold get_current_user.
  destruct (JWT.pyjwt_decode _ _ _ _) as [d|e1]; cbn [mbind result_bind try_except].
  - destruct (JWTPayload_init d) as [p'|e2]; cbn [mbind result_bind try_except].
    + destruct (is_expired p' now) as [[]|e3]; cbn [mbind result_bind try_except].
      * intros [= <-]. eauto.
      * discriminate.
      * destruct e3; intros [= <-]; eauto.
    + destruct e2; intros [= <-]; eauto.
  - destruct e1; intros [= <-]; eauto.
Qed.

Lemma pyjwt_decode_Signed (claims : gmap string value) (k a : string) (now : Z)
    (d : gmap string value) :
  JWT.pyjwt_decode (JWT.Signed claims k a) secret algorithm now = Ok d → d = claims.
Proof.
  unfold JWT.pyjwt_decode. simpl. destruct (_ && _); [|discriminate].
  destruct (claims !! "exp") as [[| |e| |]|]; try discriminate; [|congruence].
  destruct (_ <=? _)%Z; [discriminate | congruence].
Qed.

(** PyJWT on a token this program issued. *)
Lemma pyjwt_decode_encode (payload : gmap string value) (e now : Z) :
  payload !! "exp" = Some (VInt e) →
  JWT.pyjwt_decode (JWT.encode payload secret algorithm) secret algorithm now
  = if (e <=? now)%Z then Raise PyJWTExpiredSignatureError else Ok payload.
Proof.
  intros He. unfold JWT.pyjwt_decode. by rewrite signature_ok_encode, He.
Qed.

Lemma get_current_user_issued (payload : gmap string value) (e now : Z) :
  payload !! "exp" = Some (VInt e) →
  JWTPayload_init payload = Raise ValueError →
  get_current_user auth_config (JWT.encode payload secret algorithm) now
  = if (e <=? now)%Z then Raise TokenExpiredError
    else Raise (InvalidTokenError (DetailsDict [("error", VStr "ValueError")])).
Proof.
  intros He Hinit. destruct (e <=? now)%Z eqn:Hexp.
  - unfold get_current_user. by rewrite (pyjwt_decode_encode _ _ _ He), Hexp.
  - apply (get_current_user_construction_failure _ _ payload ValueError); [|done].
    by rewrite (pyjwt_decode_encode _ _ _ He), Hexp.
Qed.

End Tokens.

(** C7.  A [JWTPayload] exists only for a payload whose [role] and
    [patient_access_scope] hold a value of their enum; without a role,
    or without a scope, the constructor raises.  [get_current_user]
    turns every failure of the constructor into [InvalidTokenError] and
    returns only an identity the constructor completed.  So a token
    whose payload has no [patient_access_scope] is never accepted, and
    the tokens of [create_access_token] are such tokens. *)
Theorem identity_needs_role_and_scope (auth_config : AuthConfig) :
  (∀ d p, JWTPayload_init d = Ok p →
     d !! "role" = Some (VStr (UserRole_value (role p)))
     ∧ d !! "patient_access_scope"
       = Some (VStr (DataAccessScope_value (patient_access_scope p))))
  ∧ (∀ d, d !! "role" = None → JWTPayload_init d = Raise ValueError)
  ∧ (∀ d, d !! "patient_access_scope" = None → ∃ e, JWTPayload_init d = Raise e)
  ∧ (∀ t now d e,
       JWT.pyjwt_decode t (jwt_secret_key auth_config) (jwt_algorithm auth_config) now
       = Ok d →
       JWTPayload_init d = Raise e →
       get_current_user auth_config t now
       = Raise (InvalidTokenError (DetailsDict [("error", VStr (str_exc e))])))
  ∧ (∀ t now p,
       get_current_user auth_config t now = Ok p →
       ∃ d, JWT.pyjwt_decode t (jwt_secret_key auth_config)
              (jwt_algorithm auth_config) now = Ok d
            ∧ JWTPayload_init d = Ok p)
  ∧ (∀ claims k a now,
       claims !! "patient_access_scope" = None →
       ∃ e, get_current_user auth_config (JWT.Signed claims k a) now = Raise e
            ∧ (e = TokenExpiredError ∨ ∃ det, e = InvalidTokenError det))
  ∧ (∀ u c w r d ps delta now jti now',
       is_ok (get_current_user auth_config
                (create_access_token auth_config u c w r d ps delta now jti) now')
       = false
       ∧ ((now ≤ now')%Z →
          get_current_user auth_config
            (create_access_token auth_config u c w r d ps delta now jti) now'
          = if (now + default (60 * jwt_access_token_expire_minutes auth_config) delta
                <=? now')%Z
            then Raise TokenExpiredError
            else Raise (InvalidTokenError (DetailsDict [("error", VStr "ValueError")])))).
Proof.
  repeat apply conj.
  - intros d p Hinit. apply JWTPayload_init_Ok in Hinit as (Hr & _ & Hsc & _).
    split; (eapply dict_get_present; [done|]).
    + by destruct (role p).
    + by destruct (patient_access_scope p).
  - apply JWTPayload_init_no_role.
  - apply JWTPayload_init_no_scope.
  - apply get_current_user_construction_failure.
  - apply get_current_user_Ok.
  - intros claims k a now Hno.
    destruct (get_current_user auth_config (JWT.Signed claims k a) now) as [p|e] eqn:Hg.
    + apply get_current_user_Ok in Hg as (d & Hd & Hinit).
      apply pyjwt_decode_Signed in Hd as ->.
      destruct (JWTPayload_init_no_scope _ Hno) as [e He]. congruence.
    + exists e. split; [done|]. by eapply get_current_user_Raise.
  - intros u c w r d ps delta now jti now'.
    assert (Hout :
      get_current_user auth_config
        (create_access_token auth_config u c w r d ps delta now jti) now'
      = if (now + default (60 * jwt_access_token_expire_minutes auth_config) delta
            <=? now')%Z
        then Raise TokenExpiredError
        else Raise (InvalidTokenError (DetailsDict [("error", VStr "ValueError")]))).
    { unfold create_access_token, create_access_token_dyn.
      apply get_current_user_issued; [done|]. apply JWTPayload_init_access_payload. }
    split; [|done]. rewrite Hout. by destruct (_ <=? _)%Z.
Qed.

(** The payload of a refresh token has no role, and that of an access token
    no scope: the one is refused by the constructor, the other by
    [get_current_user]. *)
Lemma identity_needs_role_and_scope_witness :
  JWTPayload_init (refresh_payload Fixture.auth "U1" "C1" None 1000 "jti-1")
  = Raise ValueError
  ∧ ∃ e,
      get_current_user Fixture.auth
        (JWT.Signed
           (access_payload Fixture.auth (VStr "U1") (VStr "C1") (VStr "+919876543210")
              ADMIN None None None 1000 "jti-1")
           (jwt_secret_key Fixture.auth) (jwt_algorithm Fixture.auth)) 1001
      = Raise e
      ∧ (e = TokenExpiredError ∨ ∃ det, e = InvalidTokenError det).
Proof.
  destruct (identity_needs_role_and_scope Fixture.auth)
    as (_ & Hrole & _ & _ & _ & Hscope & _).
  split.
  - apply Hrole. reflexivity.
  - apply Hscope. reflexivity.
Defined.

End TokenSpec.

(* ===================================================================== *)
(** * Issued tokens and the permissions of the identity *)
(* ===================================================================== *)

Module IssuanceSpec.
Import Permissions Security TokenSpec.

(** A validly signed payload of a doctor that lists an admin tag, and
    the identity the constructor builds from it. *)
Definition doctor_payload_with_admin_tag : gmap string value :=
  <["patient_access_scope" := VStr "DOCTOR_OWN"]>
    (access_payload Fixture.auth (VStr "U2") (VStr "C1") (VStr "+919876543210")
       DOCTOR (Some "D1") (Some ["manage_subscription"]) None 1000 "jti-2").

Definition doctor_with_admin_tag : JWTPayload :=
  {| user_id := VStr "U2";
     clinic_id := VStr "C1";
     whatsapp_number := VStr "+919876543210";
     doctor_id := VStr "D1";
     role := DOCTOR;
     permissions := {[MANAGE_SUBSCRIPTION]} ∪ ∅;
     patient_access_scope := DOCTOR_OWN;
     exp := VInt 4600;
     iat := VInt 1000;
     iss := VStr "pulseops-api" |}.

(** C1, as stated, fails.  An access token issued for an admin and
    presented one second later is not turned into an identity at all;
    the payload [decode_token] returns for it lists no permission, while
    the catalog of the role is not empty; and an identity built from a
    payload has the permissions the payload lists, here an admin tag on
    a doctor, not those of the catalog. *)
Lemma verify_issued_token_counterexample :
  get_current_user Fixture.auth
    (create_access_token Fixture.auth "U1" "C1" "+919876543210" ADMIN None None None
       1000 "jti-1") 1001
  = Raise (InvalidTokenError (DetailsDict [("error", VStr "ValueError")]))
  ∧ decode_token Fixture.auth
      (create_access_token Fixture.auth "U1" "C1" "+919876543210" ADMIN None None
         None 1000 "jti-1") 1001
    = Ok (access_payload Fixture.auth (VStr "U1") (VStr "C1") (VStr "+919876543210")
            ADMIN None None None 1000 "jti-1")
  ∧ access_payload Fixture.auth (VStr "U1") (VStr "C1") (VStr "+919876543210")
      ADMIN None None None 1000 "jti-1" !! "permissions"
    = Some (VList [])
  ∧ get_permissions_for_role ADMIN ≠ ∅
  ∧ JWTPayload_init doctor_payload_with_admin_tag = Ok doctor_with_admin_tag
  ∧ MANAGE_SUBSCRIPTION ∈ permissions doctor_with_admin_tag
  ∧ MANAGE_SUBSCRIPTION ∉ get_permissions_for_role (role doctor_with_admin_tag).
Proof.
  split; [by vm_compute|].
  split; [by rewrite decode_access_token|].
  split; [reflexivity|].
  split; [apply CatalogSpec.catalog_nonempty|].
  split; [reflexivity|].
  split; [compute_done|].
  apply CatalogSpec.manage_subscription_not_for_doctor.
Qed.

(** C1, amended.  The identity built from a payload has exactly the
    permissions the payload lists under [permissions]: two payloads
    with the same list give the same set, whatever their roles.  It is
    the catalog set of the role when the payload lists that set, as the
    payload of [create_jwt_payload] does, which also carries the scope
    of the role.  [create_access_token] embeds the list its caller
    passes, none by default, and [decode_token] hands it back as it
    is. *)
Theorem identity_permissions_from_payload (auth_config : AuthConfig) :
  (∀ d p, JWTPayload_init d = Ok p →
     permission_set_of (dict_get d "permissions" (VList [])) = Ok (permissions p))
  ∧ (∀ d1 d2 p1 p2,
       JWTPayload_init d1 = Ok p1 → JWTPayload_init d2 = Ok p2 →
       d1 !! "permissions" = d2 !! "permissions" →
       permissions p1 = permissions p2)
  ∧ (∀ u c w r doc e i now,
       ∃ p, create_jwt_payload u c w r doc e i now = Ok p
            ∧ role p = r
            ∧ permissions p = get_permissions_for_role r
            ∧ patient_access_scope p = get_data_access_scope r)
  ∧ (∀ u c w r doc ps delta now jti now',
       (now' ≤ now + default (60 * jwt_access_token_expire_minutes auth_config) delta)%Z →
       decode_token auth_config
         (create_access_token auth_config u c w r doc ps delta now jti) now'
       = Ok (access_payload auth_config (VStr u) (VStr c) (VStr w) r doc ps delta now jti)
       ∧ access_payload auth_config (VStr u) (VStr c) (VStr w) r doc ps delta now jti
           !! "permissions"
         = Some (VList (VStr <$> default [] ps))).
Proof.
  repeat apply conj.
  - intros d p Hinit. by apply JWTPayload_init_Ok in Hinit as (_ & Hps & _).
  - intros d1 d2 p1 p2 H1 H2 Hsame.
    apply JWTPayload_init_Ok in H1 as (_ & Hps1 & _).
    apply JWTPayload_init_Ok in H2 as (_ & Hps2 & _).
    unfold dict_get in *. rewrite Hsame in Hps1. congruence.
  - intros u c w r doc e i now. unfold create_jwt_payload, JWTPayload_init.
    change (dict_get (create_jwt_payload_data u c w r doc e i now) "role" (VStr ""))
      with (VStr (UserRole_value r)).
    rewrite (proj2 (UserRole_of_Ok _ r) eq_refl). cbn [mbind result_bind].
    change (dict_get (create_jwt_payload_data u c w r doc e i now)
              "permissions" (VList []))
      with (VList ((λ p, VStr (Permission_value p))
                     <$> elements (get_permissions_for_role r))).
    cbn [permission_set_of]. rewrite permission_set_of_values.
    cbn [mbind result_bind].
    change (dict_get (create_jwt_payload_data u c w r doc e i now)
              "patient_access_scope" (VStr ""))
      with (VStr (DataAccessScope_value (get_data_access_scope r))).
    rewrite (proj2 (DataAccessScope_of_Ok _ (get_data_access_scope r)) eq_refl).
    cbn [mbind result_bind].
    eexists. split; [reflexivity|]. cbn [role permissions patient_access_scope].
    split; [done|]. split; [|done]. apply list_to_set_elements_L.
  - intros u c w r doc ps delta now jti now' Hnow. split; [|done].
    rewrite decode_access_token.
    destruct (Z.ltb_spec (now + default (60 * jwt_access_token_expire_minutes auth_config)
                                  delta) now'); [lia | done].
Qed.

(** An admin's token, decoded one second after it was issued. *)
Lemma identity_permissions_from_payload_witness :
  decode_token Fixture.auth
    (create_access_token Fixture.auth "U1" "C1" "+919876543210" ADMIN None
       (Some ["manage_doctors"]) None 1000 "jti-1") 1001
  = Ok (access_payload Fixture.auth (VStr "U1") (VStr "C1") (VStr "+919876543210")
          ADMIN None (Some ["manage_doctors"]) None 1000 "jti-1")
  ∧ access_payload Fixture.auth (VStr "U1") (VStr "C1") (VStr "+919876543210")
      ADMIN None (Some ["manage_doctors"]) None 1000 "jti-1" !! "permissions"
    = Some (VList [VStr "manage_doctors"]).
Proof.
  destruct (identity_permissions_from_payload Fixture.auth) as (_ & _ & _ & Hdecode).
  apply (Hdecode "U1" "C1" "+919876543210" ADMIN None (Some ["manage_doctors"]) None
           1000%Z "jti-1" 1001%Z).
  simpl. lia.
Defined.

End IssuanceSpec.

(* ===================================================================== *)
(** * The doctor id of an identity seed *)
(* ===================================================================== *)

Module SeedSpec.
Import Permissions Security TokenSpec.

(** C8, as stated, fails.  A seed of a doctor without a doctor id, and a
    seed of an admin with one, are both given a signed token, and
    [decode_token] accepts both. *)
Lemma inconsistent_seed_counterexample :
  create_access_token Fixture.auth "U1" "C1" "+919876543210" DOCTOR None None None
    1000 "jti-1"
  = JWT.Signed
      (access_payload Fixture.auth (VStr "U1") (VStr "C1") (VStr "+919876543210")
         DOCTOR None None None 1000 "jti-1")
      (jwt_secret_key Fixture.auth) (jwt_algorithm Fixture.auth)
  ∧ is_ok (decode_token Fixture.auth
             (create_access_token Fixture.auth "U1" "C1" "+919876543210" DOCTOR None
                None None 1000 "jti-1") 1001) = true
  ∧ access_payload Fixture.auth (VStr "U1") (VStr "C1") (VStr "+919876543210")
      DOCTOR None None None 1000 "jti-1" !! "doctor_id" = Some VNone
  ∧ is_ok (decode_token Fixture.auth
             (create_access_token Fixture.auth "U1" "C1" "+919876543210" ADMIN
                (Some "D1") None None 1000 "jti-1") 1001) = true
  ∧ access_payload Fixture.auth (VStr "U1") (VStr "C1") (VStr "+919876543210")
      ADMIN (Some "D1") None None 1000 "jti-1" !! "doctor_id" = Some (VStr "D1").
Proof.
  split; [reflexivity|].
  split; [by rewrite decode_access_token|].
  split; [reflexivity|].
  split; [by rewrite decode_access_token|].
  reflexivity.
Qed.

(** C8, amended.  [create_access_token] makes no check that relates the
    role to the doctor id: for every seed it returns a token signed
    with the configured key and algorithm, whose payload carries the
    role and the doctor id as they were given ([None] when absent), and
    [decode_token] returns that payload until the token expires. *)
Theorem create_access_token_total (auth_config : AuthConfig)
    (u c w : string) (r : UserRole) (doc : option string)
    (ps : option (list string)) (delta : option Z) (now : Z) (jti : string) :
  let payload :=
    access_payload auth_config (VStr u) (VStr c) (VStr w) r doc ps delta now jti in
  create_access_token auth_config u c w r doc ps delta now jti
  = JWT.Signed payload (jwt_secret_key auth_config) (jwt_algorithm auth_config)
  ∧ payload !! "role" = Some (VStr (UserRole_value r))
  ∧ payload !! "doctor_id" = Some (of_opt doc)
  ∧ (∀ now',
       (now' ≤ now + default (60 * jwt_access_token_expire_minutes auth_config) delta)%Z →
       decode_token auth_config
         (create_access_token auth_config u c w r doc ps delta now jti) now'
       = Ok payload).
Proof.
  intros payload. repeat apply conj; try reflexivity.
  intros now' Hnow. rewrite decode_access_token.
  destruct (Z.ltb_spec (now + default (60 * jwt_access_token_expire_minutes auth_config)
                                delta) now'); [lia | done].
Qed.

(** A doctor's seed without a doctor id, decoded one second after issue. *)
Lemma create_access_token_total_witness :
  decode_token Fixture.auth
    (create_access_token Fixture.auth "U1" "C1" "+919876543210" DOCTOR None None None
       1000 "jti-1") 1001
  = Ok (access_payload Fixture.auth (VStr "U1") (VStr "C1") (VStr "+919876543210")
          DOCTOR None None None 1000 "jti-1").
Proof.
  apply (create_access_token_total Fixture.auth "U1" "C1" "+919876543210" DOCTOR None
           None None 1000%Z "jti-1").
  simpl. lia.
Defined.

End SeedSpec.

(* ===================================================================== *)
(** * The kind of a token *)
(* ===================================================================== *)

Module KindSpec.
Import Permissions Security TokenSpec.

Section Kind.
Variable auth_config : AuthConfig.

(** [refresh_access_token] on an access token this program issued. *)
Lemma refresh_with_access_token (u c w : string) (r : UserRole) (d : option string)
    (ps : option (list string)) (delta : option Z) (now : Z) (jti : string)
    (now' : Z) (jti' : string) :
  refresh_access_token auth_config
    (create_access_token auth_config u c w r d ps delta now jti) now' jti'
  = if (now + default (60 * jwt_access_token_expire_minutes auth_config) delta <? now')%Z
    then Raise TokenExpiredError
    else Raise (InvalidTokenError
                  (DetailsDict [("expected_type", VStr "refresh");
                                ("actual_type", VStr "access")])).
Proof.
  unfold refresh_access_token. rewrite decode_access_token.
  by destruct (_ <? _)%Z.
Qed.

(** [refresh_access_token] on a refresh token this program issued. *)
Lemma refresh_with_refresh_token (u c : string) (delta : option Z) (now : Z)
    (jti : string) (now' : Z) (jti' : string) :
  refresh_access_token auth_config
    (create_refresh_token auth_config u c delta now jti) now' jti'
  = if (now + default (86400 * jwt_refresh_token_expire_days auth_config) delta <? now')%Z
    then Raise TokenExpiredError
    else Raise (InvalidTokenError (DetailsDict [("missing_field", VStr "role")])).
Proof.
  unfold refresh_access_token. rewrite decode_refresh_token.
  by destruct (_ <? _)%Z.
Qed.

Lemma get_current_user_refresh_token (u c : string) (delta : option Z) (now : Z)
    (jti : string) (now' : Z) :
  get_current_user auth_config
    (create_refresh_token auth_config u c delta now jti) now'
  = if (now + default (86400 * jwt_refresh_token_expire_days auth_config) delta
        <=? now')%Z
    then Raise TokenExpiredError
    else Raise (InvalidTokenError (DetailsDict [("error", VStr "ValueError")])).
Proof.
  unfold create_refresh_token. apply get_current_user_issued; [done|].
  apply JWTPayload_init_refresh_payload.
Qed.

End Kind.

(** C4.  A refresh token issued by [create_refresh_token] is rejected
    where an access token is expected: by [decode_token] and by
    [get_current_user], with [InvalidTokenError] while it has not
    expired and with [TokenExpiredError] afterwards.  An access token
    issued by [create_access_token] is rejected by
    [refresh_access_token] in the same way.  Neither call ever
    succeeds. *)
Theorem token_kind_mismatch_rejected (auth_config : AuthConfig) :
  (∀ u c delta now jti now',
     let refresh := create_refresh_token auth_config u c delta now jti in
     let expiry :=
       (now + default (86400 * jwt_refresh_token_expire_days auth_config) delta)%Z in
     decode_token auth_config refresh now'
     = (if (expiry <? now')%Z then Raise TokenExpiredError
        else Raise (InvalidTokenError (DetailsDict [("missing_field", VStr "role")])))
     ∧ ((now ≤ now')%Z →
        get_current_user auth_config refresh now'
        = (if (expiry <=? now')%Z then Raise TokenExpiredError
           else Raise (InvalidTokenError (DetailsDict [("error", VStr "ValueError")]))))
     ∧ is_ok (decode_token auth_config refresh now') = false
     ∧ is_ok (get_current_user auth_config refresh now') = false)
  ∧ (∀ u c w r d ps delta now jti now' jti',
       let access := create_access_token auth_config u c w r d ps delta now jti in
       let expiry :=
         (now + default (60 * jwt_access_token_expire_minutes auth_config) delta)%Z in
       refresh_access_token auth_config access now' jti'
       = (if (expiry <? now')%Z then Raise TokenExpiredError
          else Raise (InvalidTokenError
                        (DetailsDict [("expected_type", VStr "refresh");
                                      ("actual_type", VStr "access")])))
       ∧ is_ok (refresh_access_token auth_config access now' jti') = false).
Proof.
  split.
  - intros u c delta now jti now' refresh expiry. subst refresh expiry.
    rewrite decode_refresh_token, get_current_user_refresh_token.
    repeat apply conj; try done.
    + by destruct (_ <? _)%Z.
    + by destruct (_ <=? _)%Z.
  - intros u c w r d ps delta now jti now' jti' access expiry. subst access expiry.
    rewrite refresh_with_access_token.
    split; [done|]. by destruct (_ <? _)%Z.
Qed.

(** A refresh token presented as bearer credentials one second after it
    was issued. *)
Lemma token_kind_mismatch_rejected_witness :
  get_current_user Fixture.auth
    (create_refresh_token Fixture.auth "U1" "C1" None 1000 "jti-1") 1001
  = Raise (InvalidTokenError (DetailsDict [("error", VStr "ValueError")])).
Proof.
  destruct (token_kind_mismatch_rejected Fixture.auth) as [Hrefresh _].
  destruct (Hrefresh "U1" "C1" None 1000%Z "jti-1" 1001%Z) as (_ & Huser & _).
  apply Huser. lia.
Defined.

End KindSpec.

(* ===================================================================== *)
(** * Revocation *)
(* ===================================================================== *)

Module RevocationSpec.
Import Permissions Security TokenSpec.

Section Revocation.
Variable sha256_hexdigest : string → string.
Variable token_text : JWT.token → string.
Variable auth_config : AuthConfig.

(** [revoke_token] raises on every call and stores nothing: building
    the default for a missing [jti] needs a method the class does not
    have. *)
Lemma revoke_token_raises (self : JWTSecurity) (token : JWT.token) (now : Z) :
  revoke_token sha256_hexdigest token_text auth_config self token now
  = Raise SecurityError.
Proof.
  unfold revoke_token. by destruct (JWT.get_unverified_claims token).
Qed.

Lemma invalidate_token_returns (token : JWT.token) (now : Z) :
  invalidate_token sha256_hexdigest token_text auth_config token now = tt.
Proof. by destruct (invalidate_token _ _ _ _ _). Qed.

End Revocation.

(** The lookup on an instance that holds an entry for the token's
    [jti]: revoked until the entry's expiry, and past it not revoked,
    the entry being deleted. *)
Lemma is_token_revoked_entry (self : JWTSecurity) (token : JWT.token)
    (claims : gmap string value) (blacklist : gmap string BlacklistEntry)
    (jti : string) (entry : BlacklistEntry) (now : Z) :
  JWT.get_unverified_claims token = Ok claims →
  claims !! "jti" = Some (VStr jti) →
  jti ≠ "" →
  _token_blacklist self = Some blacklist →
  blacklist !! jti = Some entry →
  is_token_revoked self token now
  = if (expires_at entry <? now)%Z
    then (false, {| _token_blacklist := Some (delete jti blacklist) |})
    else (true, self).
Proof.
  intros Hclaims Hjti Hne Hbl Hentry. unfold is_token_revoked, dict_get.
  rewrite Hclaims, Hjti. simpl.
  apply String.eqb_neq in Hne. rewrite Hne. simpl.
  by rewrite Hbl, Hentry.
Qed.

(** An instance on which the token of the theorem below is blacklisted
    until its expiry. *)
Definition instance_with_entry : JWTSecurity :=
  {| _token_blacklist :=
       Some {[ "jti-1" := {| revoked_at := 1001; expires_at := 4600;
                             token_hash := "" |} ]} |}.

(** C2, on the code.  An access token is issued at time 1000 and expires
    at 4600.  Revoking it at 1001 raises [SecurityError] and changes no
    instance, [invalidate_token] returns as if it had worked, and
    [decode_token] at 1002 returns the payload.  [revoke_token] raises
    on every input; and [decode_token] asks an instance of its own,
    which reports nothing revoked, so that it accepts the token even
    while another instance holds an unexpired entry for it.  The lookup
    itself does what the claim says: an entry answers revoked until its
    expiry, and past it is deleted and answers not revoked. *)
Theorem revoked_token_still_verifies (sha256_hexdigest : string → string)
    (token_text : JWT.token → string) :
  let token :=
    create_access_token Fixture.auth "U1" "C1" "+919876543210" ADMIN None None None
      1000 "jti-1" in
  revoke_token sha256_hexdigest token_text Fixture.auth JWTSecurity_new token 1001
  = Raise SecurityError
  ∧ invalidate_token sha256_hexdigest token_text Fixture.auth token 1001 = tt
  ∧ decode_token Fixture.auth token 1002
    = Ok (access_payload Fixture.auth (VStr "U1") (VStr "C1") (VStr "+919876543210")
            ADMIN None None None 1000 "jti-1")
  ∧ (∀ auth_config self tok now,
       revoke_token sha256_hexdigest token_text auth_config self tok now
       = Raise SecurityError)
  ∧ (∀ tok now, is_token_revoked JWTSecurity_new tok now = (false, JWTSecurity_new))
  ∧ is_token_revoked instance_with_entry token 1002 = (true, instance_with_entry)
  ∧ is_token_revoked instance_with_entry token 4601
    = (false, {| _token_blacklist := Some (delete "jti-1" {[ "jti-1" :=
                   {| revoked_at := 1001; expires_at := 4600; token_hash := "" |} ]}) |}).
Proof.
  intros token. repeat apply conj.
  - apply revoke_token_raises.
  - apply invalidate_token_returns.
  - subst token. by rewrite decode_access_token.
  - intros. apply revoke_token_raises.
  - apply fresh_instance_reports_nothing.
  - subst token. vm_compute. reflexivity.
  - subst token. vm_compute. reflexivity.
Qed.

End RevocationSpec.

(* ===================================================================== *)
(** * One-time passwords *)
(* ===================================================================== *)

Module OtpSpec.
Import Security.

(** C5, as stated, fails.  With a ceiling of three attempts, three wrong
    codes are refused and the correct code presented next is accepted:
    the fourth call returns [True], it does not raise. *)
Lemma otp_lockout_counterexample :
  otp_max_attempts Fixture.auth = 3%Z
  ∧ (λ code,
       verify_otp Fixture.digest Fixture.auth code
         (create_otp_hash Fixture.digest Fixture.auth "123456" "req-1") "req-1")
    <$> ["000000"; "111111"; "222222"; "123456"]
    = [false; false; false; true].
Proof. split; [done | by vm_compute]. Qed.

(** C5, amended.  [verify_otp] compares digests and nothing else: it
    returns [True] exactly when the digest of the presented code, the
    request id and the secret is the stored one.  It keeps no count of
    attempts and does not read the configured ceiling, so the correct
    code is accepted after any number of wrong attempts, and the
    outcome is the same under any other ceiling. *)
Theorem verify_otp_compares_digests (sha256_hexdigest : string → string)
    (auth_config : AuthConfig) (otp stored_hash request_id : string) :
  (verify_otp sha256_hexdigest auth_config otp stored_hash request_id = true
   ↔ sha256_hexdigest (otp ++ ":" ++ request_id ++ ":" ++ jwt_secret_key auth_config)
     = stored_hash)
  ∧ verify_otp sha256_hexdigest auth_config otp
      (create_otp_hash sha256_hexdigest auth_config otp request_id) request_id = true
  ∧ (∀ attempts : list string,
       last ((λ code,
                verify_otp sha256_hexdigest auth_config code
                  (create_otp_hash sha256_hexdigest auth_config otp request_id)
                  request_id) <$> (attempts ++ [otp])%list)
       = Some true)
  ∧ (∀ other : AuthConfig,
       jwt_secret_key other = jwt_secret_key auth_config →
       verify_otp sha256_hexdigest other otp stored_hash request_id
       = verify_otp sha256_hexdigest auth_config otp stored_hash request_id).
Proof.
  split; [|split; [|split]].
  - unfold verify_otp, create_otp_hash. apply String.eqb_eq.
  - unfold verify_otp. apply String.eqb_refl.
  - intros attempts. rewrite fmap_app. cbn [fmap list_fmap]. rewrite last_snoc.
    f_equal. unfold verify_otp. apply String.eqb_refl.
  - intros other Hsecret. unfold verify_otp, create_otp_hash. by rewrite Hsecret.
Qed.

(** The same comparison under a ceiling of one attempt. *)
Lemma verify_otp_compares_digests_witness :
  verify_otp Fixture.digest
    {| jwt_secret_key := jwt_secret_key Fixture.auth;
       jwt_algorithm := "HS256";
       jwt_access_token_expire_minutes := 60;
       jwt_refresh_token_expire_days := 7;
       otp_length := 6;
       otp_expire_minutes := 5;
       otp_max_attempts := 1;
       otp_rate_limit_per_hour := 10 |}
    "123456" (create_otp_hash Fixture.digest Fixture.auth "123456" "req-1") "req-1"
  = verify_otp Fixture.digest Fixture.auth
      "123456" (create_otp_hash Fixture.digest Fixture.auth "123456" "req-1") "req-1".
Proof.
  apply (verify_otp_compares_digests Fixture.digest Fixture.auth "123456"
           (create_otp_hash Fixture.digest Fixture.auth "123456" "req-1") "req-1").
  reflexivity.
Defined.

End OtpSpec.

(* ===================================================================== *)
(** * Encryption of sensitive fields *)
(* ===================================================================== *)

Module EncryptionSpec.
Import Security.

Lemma codec_correct : Base64_correct Fixture.codec.
Proof. intros s. reflexivity. Qed.

Lemma tagging_cipher_correct : Fernet_correct Fixture.tagging_cipher.
Proof. intros now iv m. reflexivity. Qed.

(** C10.  With a codec and a cipher that keep the libraries' promise:
    when encryption is enabled, encrypting succeeds and decrypting the
    result gives the input back; when it is disabled, both functions
    return their argument unchanged.  In both cases decrypting follows
    encrypting to the identity.  This holds for the empty string as
    well. *)
Theorem encrypt_decrypt_round_trip (b64 : Base64) (security_config : SecurityConfig)
    (self : DataEncryption) (x : string) (now : Z) (iv : string) :
  Base64_correct b64 →
  Fernet_correct (cipher self) →
  (data_encryption_enabled security_config = true →
     ∃ ciphertext,
       encrypt_sensitive_data b64 security_config self x now iv = Ok ciphertext
       ∧ ciphertext = urlsafe_b64encode b64 (fernet_encrypt (cipher self) now iv x)
       ∧ decrypt_sensitive_data b64 security_config self ciphertext = Ok x)
  ∧ (data_encryption_enabled security_config = false →
       encrypt_sensitive_data b64 security_config self x now iv = Ok x
       ∧ decrypt_sensitive_data b64 security_config self x = Ok x)
  ∧ (encrypt_sensitive_data b64 security_config self x now iv
       ≫= decrypt_sensitive_data b64 security_config self) = Ok x.
Proof.
  intros Hb64 Hfernet. split; [|split].
  - intros Hon. eexists. unfold encrypt_sensitive_data, decrypt_sensitive_data.
    rewrite Hon. simpl. split; [reflexivity|]. split; [reflexivity|].
    rewrite Hb64. simpl. by rewrite Hfernet.
  - intros Hoff. unfold encrypt_sensitive_data, decrypt_sensitive_data.
    by rewrite Hoff.
  - unfold encrypt_sensitive_data, decrypt_sensitive_data.
    destruct (data_encryption_enabled security_config); simpl; [|done].
    rewrite Hb64. simpl. by rewrite Hfernet.
Qed.

(** The round trip of a phone number, enabled and disabled. *)
Lemma encrypt_decrypt_round_trip_witness :
  (encrypt_sensitive_data Fixture.codec Fixture.encryption_on Fixture.encryption
     "+919876543210" 1000 "iv"
     ≫= decrypt_sensitive_data Fixture.codec Fixture.encryption_on Fixture.encryption)
  = Ok "+919876543210"
  ∧ encrypt_sensitive_data Fixture.codec Fixture.encryption_off Fixture.encryption
      "+919876543210" 1000 "iv"
    = Ok "+919876543210".
Proof.
  split.
  - apply (encrypt_decrypt_round_trip Fixture.codec Fixture.encryption_on
             Fixture.encryption "+919876543210" 1000 "iv"
             codec_correct tagging_cipher_correct).
  - apply (encrypt_decrypt_round_trip Fixture.codec Fixture.encryption_off
             Fixture.encryption "+919876543210" 1000 "iv"
             codec_correct tagging_cipher_correct).
Defined.

End EncryptionSpec.

(* ===================================================================== *)
(** * [src/core/permissions.py]: the rest of the access helpers *)
(* ===================================================================== *)

Module Access.
Import Permissions.

(** [a == b] on payload values: a bool compares as the integer 0 or 1,
    lists compare element by element, and values of different kinds are
    unequal. *)
Fixpoint py_eq (a b : value) {struct a} : bool :=
  match a, b with
  | VNone, VNone => true
  | VBool x, VBool y => Bool.eqb x y
  | VBool x, VInt n => ((if x then 1 else 0) =? n)%Z
  | VInt n, VBool x => (n =? (if x then 1 else 0))%Z
  | VInt n, VInt m => (n =? m)%Z
  | VStr s, VStr t => String.eqb s t
  | VList l, VList m =>
      (fix all_eq (l m : list value) {struct l} : bool :=
         match l, m with
         | [], [] => true
         | x :: l', y :: m' => py_eq x y && all_eq l' m'
         | _, _ => false
         end) l m
  | _, _ => false
  end.

(** [JWTPayload.to_dict(self)] *)
Definition to_dict (self : JWTPayload) : gmap string value :=
  <["user_id" := user_id self]>
  (<["clinic_id" := clinic_id self]>
  (<["whatsapp_number" := whatsapp_number self]>
  (<["doctor_id" := doctor_id self]>
  (<["role" := VStr (UserRole_value (role self))]>
  (<["permissions" :=
       VList ((λ p, VStr (Permission_value p)) <$> elements (permissions self))]>
  (<["patient_access_scope" :=
       VStr (DataAccessScope_value (patient_access_scope self))]>
  (<["exp" := exp self]>
  (<["iat" := iat self]>
  (<["iss" := iss self]> ∅))))))))).

Definition can_access_queue (user : JWTPayload) (queue_doctor_id : string) : bool :=
  if is_admin user then true
  else is_doctor user && eq_str (doctor_id user) queue_doctor_id.

Definition can_access_patient_association (user : JWTPayload)
    (association_doctor_id : string) : bool :=
  if is_admin user then true
  else is_doctor user && eq_str (doctor_id user) association_doctor_id.

Definition can_access_visit_record (user : JWTPayload) (visit_doctor_id : string) : bool :=
  if is_admin user then true
  else is_doctor user && eq_str (doctor_id user) visit_doctor_id.

Definition can_view_analytics (user : JWTPayload) (target_doctor_id : option string)
  : bool :=
  if is_admin user then true
  else if is_doctor user && truthy_opt target_doctor_id
  then eq_str (doctor_id user) (default "" target_doctor_id)
  else false.

(** [ensure_patient_data_isolation(user, clinic_id, doctor_id, patient_id)] *)
Definition ensure_patient_data_isolation (user : JWTPayload) (clinic doctor : string)
    (patient : option string) : result unit :=
  validate_data_isolation user clinic (Some doctor) patient.

(** [get_accessible_doctor_ids(user)] *)
Definition get_accessible_doctor_ids (user : JWTPayload) : list value :=
  if is_admin user then [VStr "*"]
  else if is_doctor user
  then (if truthy (doctor_id user) then [doctor_id user] else [])
  else [].

(** [filter_data_by_access_scope(user, data, doctor_id_field)] *)
Definition filter_data_by_access_scope (user : JWTPayload)
    (data : list (gmap string value)) (doctor_id_field : string)
  : list (gmap string value) :=
  if is_admin user then data
  else if is_doctor user && truthy (doctor_id user)
  then filter (λ item,
                 py_eq (dict_get item doctor_id_field VNone) (doctor_id user) = true)
              data
  else [].

(** [get_admin_user] and [get_doctor_user], given the identity that
    [get_current_user] returned. *)
Definition get_admin_user (current_user : JWTPayload) : result JWTPayload :=
  if negb (is_admin current_user)
  then Raise (AuthorizationError "INSUFFICIENT_PERMISSIONS")
  else Ok current_user.

Definition get_doctor_user (current_user : JWTPayload) : result JWTPayload :=
  if negb (is_doctor current_user)
  then Raise (AuthorizationError "INSUFFICIENT_PERMISSIONS")
  else Ok current_user.

End Access.

Module AccessSpec.
Import Permissions Access.

(** ** [to_dict] and the constructor *)

(** X1.  Building a [JWTPayload] from the dict of a [JWTPayload] gives the
    same object back, whatever its fields hold. *)
Theorem to_dict_round_trip (p : JWTPayload) : JWTPayload_init (to_dict p) = Ok p.
Proof.
  unfold JWTPayload_init.
  change (dict_get (to_dict p) "role" (VStr "")) with (VStr (UserRole_value (role p))).
  rewrite (proj2 (TokenSpec.UserRole_of_Ok _ (role p)) eq_refl). cbn [mbind result_bind].
  change (dict_get (to_dict p) "permissions" (VList []))
    with (VList ((λ q, VStr (Permission_value q)) <$> elements (permissions p))).
  cbn [permission_set_of]. rewrite TokenSpec.permission_set_of_values.
  cbn [mbind result_bind].
  change (dict_get (to_dict p) "patient_access_scope" (VStr ""))
    with (VStr (DataAccessScope_value (patient_access_scope p))).
  rewrite (proj2 (TokenSpec.DataAccessScope_of_Ok _ (patient_access_scope p)) eq_refl).
  cbn [mbind result_bind]. rewrite list_to_set_elements_L.
  destruct p. reflexivity.
Qed.

(** ** Identities that carry the catalog *)

Lemma create_jwt_payload_Ok (u c w : string) (r : UserRole) (doc : option string)
    (e i : option Z) (now : Z) :
  create_jwt_payload u c w r doc e i now
  = Ok {| user_id := VStr u;
          clinic_id := VStr c;
          whatsapp_number := VStr w;
          doctor_id := of_opt doc;
          role := r;
          permissions := get_permissions_for_role r;
          patient_access_scope := get_data_access_scope r;
          exp := VInt (or_else e (now + 3600));
          iat := VInt (or_else i now);
          iss := VStr "pulseops-api" |}.
Proof.
  unfold create_jwt_payload, JWTPayload_init.
  change (dict_get (create_jwt_payload_data u c w r doc e i now) "role" (VStr ""))
    with (VStr (UserRole_value r)).
  rewrite (proj2 (TokenSpec.UserRole_of_Ok _ r) eq_refl). cbn [mbind result_bind].
  change (dict_get (create_jwt_payload_data u c w r doc e i now)
            "permissions" (VList []))
    with (VList ((λ p, VStr (Permission_value p))
                   <$> elements (get_permissions_for_role r))).
  cbn [permission_set_of]. rewrite TokenSpec.permission_set_of_values.
  cbn [mbind result_bind].
  change (dict_get (create_jwt_payload_data u c w r doc e i now)
            "patient_access_scope" (VStr ""))
    with (VStr (DataAccessScope_value (get_data_access_scope r))).
  rewrite (proj2 (TokenSpec.DataAccessScope_of_Ok _ (get_data_access_scope r)) eq_refl).
  cbn [mbind result_bind]. rewrite list_to_set_elements_L. reflexivity.
Qed.

Lemma admin_doctor_disjoint : ADMIN_PERMISSIONS ## DOCTOR_PERMISSIONS.
Proof. compute_done. Qed.

Lemma denied_doctor_disjoint : DOCTOR_DENIED_PERMISSIONS ## DOCTOR_PERMISSIONS.
Proof. compute_done. Qed.

Lemma validate_permission_access_Ok (ps : gset Permission) (perm : Permission)
    (r : UserRole) :
  validate_permission_access ps perm r = Ok tt ↔ perm ∈ ps.
Proof.
  unfold validate_permission_access. case_bool_decide; split; try done.
Qed.

(** X2.  The identity that [create_jwt_payload] builds for a role is
    granted a permission exactly when the catalog of the role holds it.
    So a doctor is refused every admin tag and every explicitly denied
    tag, an admin is refused every doctor tag, and of [get_admin_user]
    and [get_doctor_user] exactly the one of the role accepts it. *)
Theorem catalog_identity_permissions (u c w : string) (r : UserRole)
    (doc : option string) (e i : option Z) (now : Z) :
  ∃ p,
    create_jwt_payload u c w r doc e i now = Ok p
    ∧ (∀ perm,
         validate_permission_access (permissions p) perm (role p) = Ok tt
         ↔ perm ∈ get_permissions_for_role r)
    ∧ (∀ perm, has_permission p perm = bool_decide (perm ∈ get_permissions_for_role r))
    ∧ (r = DOCTOR →
       ∀ perm, perm ∈ ADMIN_PERMISSIONS ∪ DOCTOR_DENIED_PERMISSIONS →
         validate_permission_access (permissions p) perm (role p)
         = Raise (AuthorizationError "INSUFFICIENT_PERMISSIONS"))
    ∧ (r = ADMIN →
       ∀ perm, perm ∈ DOCTOR_PERMISSIONS →
         validate_permission_access (permissions p) perm (role p)
         = Raise (AuthorizationError "INSUFFICIENT_PERMISSIONS"))
    ∧ get_admin_user p
      = (if bool_decide (r = ADMIN) then Ok p
         else Raise (AuthorizationError "INSUFFICIENT_PERMISSIONS"))
    ∧ get_doctor_user p
      = (if bool_decide (r = DOCTOR) then Ok p
         else Raise (AuthorizationError "INSUFFICIENT_PERMISSIONS")).
Proof.
  eexists. split; [apply create_jwt_payload_Ok|]. cbn [permissions role].
  split; [intros perm; apply validate_permission_access_Ok|].
  split; [done|].
  split.
  { intros -> perm Hin. unfold validate_permission_access.
    rewrite bool_decide_eq_false_2; [done|]. cbn [get_permissions_for_role].
    intros Hdoc. apply elem_of_union in Hin as [Hin|Hin].
    - exact (admin_doctor_disjoint _ Hin Hdoc).
    - exact (denied_doctor_disjoint _ Hin Hdoc). }
  split.
  { intros -> perm Hin. unfold validate_permission_access.
    rewrite bool_decide_eq_false_2; [done|]. cbn [get_permissions_for_role].
    intros Hadm. exact (admin_doctor_disjoint _ Hadm Hin). }
  unfold get_admin_user, get_doctor_user, is_admin, is_doctor. cbn [role].
  by destruct r.
Qed.

(** A doctor built from the catalog asking to manage the subscription. *)
Lemma catalog_identity_permissions_witness :
  ∃ p,
    create_jwt_payload "U1" "C1" "+919876543210" DOCTOR (Some "D1") None None 1000 = Ok p
    ∧ validate_permission_access (permissions p) MANAGE_SUBSCRIPTION (role p)
      = Raise (AuthorizationError "INSUFFICIENT_PERMISSIONS").
Proof.
  destruct (catalog_identity_permissions "U1" "C1" "+919876543210" DOCTOR (Some "D1")
              None None 1000%Z) as (p & Hp & _ & _ & Hdoctor & _).
  exists p. split; [exact Hp|]. apply Hdoctor; [reflexivity|].
  apply elem_of_union_l. compute_done.
Defined.

(** ** The predicates on a doctor id *)

Lemma can_manage_doctor_rule (user : JWTPayload) (d : string) :
  can_manage_doctor user d = can_access_doctor_data user d.
Proof.
  unfold can_manage_doctor, can_access_doctor_data, is_admin, is_doctor.
  by destruct (role user).
Qed.

(** X3.  The predicates on a doctor id are one predicate:
    [can_manage_doctor], [can_access_queue],
    [can_access_patient_association], [can_access_visit_record] and
    [can_access_patient_data] all answer as [can_access_doctor_data]
    does.  [ensure_patient_data_isolation] passes for a non-empty doctor
    id exactly when the clinic is the user's and that predicate holds;
    for the empty doctor id it passes on the clinic alone, for a doctor
    too.  [can_view_analytics] agrees with the predicate on a non-empty
    target, and without one ([None] or empty) answers by the role. *)
Theorem doctor_predicates_agree (user : JWTPayload) (d : string) :
  can_manage_doctor user d = can_access_doctor_data user d
  ∧ can_access_queue user d = can_access_doctor_data user d
  ∧ can_access_patient_association user d = can_access_doctor_data user d
  ∧ can_access_visit_record user d = can_access_doctor_data user d
  ∧ (∀ pid, can_access_patient_data user d pid = can_access_doctor_data user d)
  ∧ (∀ clinic pid,
       d ≠ "" →
       (ensure_patient_data_isolation user clinic d pid = Ok tt
        ↔ can_access_clinic_data user clinic = true
          ∧ can_access_doctor_data user d = true))
  ∧ (∀ clinic pid,
       ensure_patient_data_isolation user clinic "" pid = Ok tt
       ↔ can_access_clinic_data user clinic = true)
  ∧ (d ≠ "" → can_view_analytics user (Some d) = can_access_doctor_data user d)
  ∧ can_view_analytics user None = is_admin user
  ∧ can_view_analytics user (Some "") = is_admin user.
Proof.
  split; [apply can_manage_doctor_rule|].
  split; [apply can_manage_doctor_rule|].
  split; [apply can_manage_doctor_rule|].
  split; [apply can_manage_doctor_rule|].
  split; [intros pid; apply IsolationSpec.patient_rule_is_doctor_rule|].
  split.
  { intros clinic pid Hd. unfold ensure_patient_data_isolation.
    rewrite IsolationSpec.validate_data_isolation_table.
    unfold can_access_clinic_data, can_access_doctor_data, is_admin, is_doctor.
    simpl. apply String.eqb_neq in Hd. rewrite Hd.
    destruct (eq_str (clinic_id user) clinic), (role user),
      (eq_str (doctor_id user) d); simpl;
      (split; [intros Hres | intros [Hc Hdoc]]); try done; by split. }
  split.
  { intros clinic pid. unfold ensure_patient_data_isolation.
    rewrite IsolationSpec.validate_data_isolation_table.
    unfold can_access_clinic_data. cbn [truthy_opt]. simpl.
    rewrite andb_false_r. simpl.
    destruct (eq_str (clinic_id user) clinic); simpl; split; done. }
  split.
  { intros Hd. unfold can_view_analytics, can_access_doctor_data, is_admin, is_doctor.
    cbn [truthy_opt default]. apply String.eqb_neq in Hd. rewrite Hd.
    by destruct (role user). }
  unfold can_view_analytics, is_admin, is_doctor.
  split; by destruct (role user).
Qed.

(** A doctor D1 and a record of doctor D2 in the doctor's own clinic:
    refused; the same record filed under the empty doctor id: passed. *)
Lemma doctor_predicates_agree_witness :
  is_ok (ensure_patient_data_isolation (Fixture.identity DOCTOR "C1" (Some "D1"))
           "C1" "D2" (Some "P1")) = false
  ∧ ensure_patient_data_isolation (Fixture.identity DOCTOR "C1" (Some "D1"))
      "C1" "" (Some "P1") = Ok tt.
Proof.
  destruct (doctor_predicates_agree (Fixture.identity DOCTOR "C1" (Some "D1")) "D2")
    as (_ & _ & _ & _ & _ & Hensure & Hempty & _).
  split.
  - destruct (ensure_patient_data_isolation _ "C1" "D2" (Some "P1")) as [[]|e] eqn:Hres;
      [|reflexivity].
    apply (Hensure "C1" (Some "P1")) in Hres as [_ Hdoc]; discriminate.
  - apply Hempty. reflexivity.
Defined.

(** ** [filter_data_by_access_scope] *)

Lemma py_eq_VStr (v : value) (s : string) : py_eq v (VStr s) = eq_str v s.
Proof. by destruct v. Qed.

(** X4.  [filter_data_by_access_scope] returns a sub-list of the data, in
    order.  An admin gets all of it; a doctor without a doctor id gets
    nothing; a doctor with a non-empty doctor id gets exactly the items
    whose doctor field holds that id.  Whoever asks, every item returned
    with a string in its doctor field passes [can_access_doctor_data]
    for that string; and filtering twice is filtering once. *)
Theorem filter_data_by_access_scope_spec (user : JWTPayload)
    (data : list (gmap string value)) (field : string) :
  filter_data_by_access_scope user data field `sublist_of` data
  ∧ (role user = ADMIN → filter_data_by_access_scope user data field = data)
  ∧ (role user = DOCTOR → truthy (doctor_id user) = false →
     filter_data_by_access_scope user data field = [])
  ∧ (∀ d, role user = DOCTOR → doctor_id user = VStr d → d ≠ "" →
     ∀ item, item ∈ filter_data_by_access_scope user data field
             ↔ item ∈ data ∧ item !! field = Some (VStr d))
  ∧ (∀ item d, item ∈ filter_data_by_access_scope user data field →
               item !! field = Some (VStr d) →
               can_access_doctor_data user d = true)
  ∧ filter_data_by_access_scope user
      (filter_data_by_access_scope user data field) field
    = filter_data_by_access_scope user data field.
Proof.
  unfold filter_data_by_access_scope, can_access_doctor_data, is_admin, is_doctor.
  destruct (role user) eqn:Hrole; simpl.
  - split; [done|]. split; [done|]. split; [done|]. split; [done|]. split; done.
  - destruct (truthy (doctor_id user)) eqn:Htruthy.
    + split; [apply sublist_filter|]. split; [done|]. split; [done|].
      split.
      { intros d _ Hd Hne item. rewrite list_elem_of_filter, Hd, py_eq_VStr.
        unfold dict_get. split.
        - intros [Heq Hin]. split; [done|].
          destruct (item !! field) as [v|]; simpl in Heq; [|done].
          by apply IsolationSpec.eq_str_true in Heq as ->.
        - intros [Hin Hf]. split; [|done]. rewrite Hf. simpl. apply String.eqb_refl. }
      split.
      { intros item d Hin Hf. apply list_elem_of_filter in Hin as [Heq _].
        unfold dict_get in Heq. rewrite Hf in Heq. simpl in Heq.
        destruct (doctor_id user); simpl in *; try done. by rewrite String.eqb_sym. }
      apply list_filter_filter_l. done.
    + split; [apply sublist_nil_l|]. split; [done|]. split; [done|].
      split.
      { intros d _ Hd Hne. rewrite Hd in Htruthy. simpl in Htruthy.
        apply String.eqb_neq in Hne. by rewrite Hne in Htruthy. }
      split; [|done]. intros item d Hin. by apply elem_of_nil in Hin.
Qed.

(** Two visit records and doctor D1: the record of D2 is not returned. *)
Lemma filter_data_by_access_scope_witness :
  ¬ ({[ "doctorId" := VStr "D2" ]} : gmap string value)
    ∈ filter_data_by_access_scope (Fixture.identity DOCTOR "C1" (Some "D1"))
        [ {[ "doctorId" := VStr "D1" ]}; {[ "doctorId" := VStr "D2" ]} ] "doctorId".
Proof.
  intros Hin.
  destruct (filter_data_by_access_scope_spec (Fixture.identity DOCTOR "C1" (Some "D1"))
              [ {[ "doctorId" := VStr "D1" ]}; {[ "doctorId" := VStr "D2" ]} ] "doctorId")
    as (_ & _ & _ & Hown & _).
  apply (Hown "D1" eq_refl eq_refl) in Hin as [_ Hfield]; [|discriminate].
  vm_compute in Hfield. discriminate Hfield.
Defined.

End AccessSpec.

(* ===================================================================== *)
(** * The blacklist and the decoder, in general *)
(* ===================================================================== *)

Module SessionSpec.
Import Permissions Security TokenSpec.

(** The entries an instance holds; none when the attribute is not set. *)
Definition blacklist_of (self : JWTSecurity) : gmap string BlacklistEntry :=
  default ∅ (_token_blacklist self).

(** When [is_token_revoked] answers [True]. *)
Lemma is_token_revoked_true (self : JWTSecurity) (token : JWT.token) (now : Z) :
  (is_token_revoked self token now).1 = true
  ↔ ∃ claims jti entry,
      JWT.get_unverified_claims token = Ok claims
      ∧ claims !! "jti" = Some (VStr jti)
      ∧ jti ≠ ""
      ∧ blacklist_of self !! jti = Some entry
      ∧ (now ≤ expires_at entry)%Z.
Proof.
  unfold is_token_revoked, blacklist_of, dict_get. split.
  - destruct (JWT.get_unverified_claims token) as [claims|]; [|done].
    destruct (claims !! "jti") as [v|] eqn:Hjti; simpl; [|done].
    destruct (truthy v) eqn:Htruthy; simpl; [|done].
    destruct (_token_blacklist self) as [bl|]; simpl; [|done].
    destruct v as [| | |jti|]; simpl; try done.
    destruct (bl !! jti) as [entry|] eqn:Hentry; [|done].
    destruct (Z.ltb_spec (expires_at entry) now); simpl; [done|]. intros _.
    exists claims, jti, entry. repeat split; try done.
    simpl in Htruthy. apply negb_true_iff in Htruthy. by apply String.eqb_neq.
  - intros (claims & jti & entry & -> & -> & Hne & Hentry & Hnow). simpl.
    apply String.eqb_neq in Hne. rewrite Hne. simpl.
    destruct (_token_blacklist self) as [bl|]; simpl in *; [|done].
    rewrite Hentry. destruct (Z.ltb_spec (expires_at entry) now); [lia|done].
Qed.

(** The entries left after [is_token_revoked]. *)
Lemma is_token_revoked_state (self : JWTSecurity) (token : JWT.token) (now : Z)
    (jti : string) (entry : BlacklistEntry) :
  blacklist_of (is_token_revoked self token now).2 !! jti = Some entry →
  blacklist_of self !! jti = Some entry.
Proof.
  unfold is_token_revoked, blacklist_of, dict_get.
  destruct (JWT.get_unverified_claims token) as [claims|]; [|done].
  destruct (negb _); [done|].
  destruct (_token_blacklist self) as [bl|] eqn:Hbl;
    [|simpl; rewrite Hbl; simpl; done].
  destruct (blacklist_key _) as [key|]; [|simpl; rewrite Hbl; simpl; done].
  destruct (bl !! key) as [e|]; [|simpl; rewrite Hbl; simpl; done].
  destruct (_ <? _)%Z; [|simpl; rewrite Hbl; simpl; done].
  simpl. intros Hlook. apply lookup_delete_Some in Hlook as [_ Hlook]. done.
Qed.

(** X5.  [cleanup_expired_tokens] keeps exactly the entries that have not
    expired, unchanged; it leaves an instance without a blacklist as it
    is; it changes the answer of [is_token_revoked] for no token; and
    cleaning twice is cleaning once. *)
Theorem cleanup_expired_tokens_spec (self : JWTSecurity) (now : Z) :
  (∀ jti entry,
     blacklist_of (cleanup_expired_tokens self now) !! jti = Some entry
     ↔ blacklist_of self !! jti = Some entry ∧ (now ≤ expires_at entry)%Z)
  ∧ (_token_blacklist self = None → cleanup_expired_tokens self now = self)
  ∧ (∀ token,
       (is_token_revoked (cleanup_expired_tokens self now) token now).1
       = (is_token_revoked self token now).1)
  ∧ cleanup_expired_tokens (cleanup_expired_tokens self now) now
    = cleanup_expired_tokens self now.
Proof.
  assert (Hkeep : ∀ jti entry,
     blacklist_of (cleanup_expired_tokens self now) !! jti = Some entry
     ↔ blacklist_of self !! jti = Some entry ∧ (now ≤ expires_at entry)%Z).
  { intros jti entry. unfold cleanup_expired_tokens, blacklist_of.
    destruct (_token_blacklist self) as [bl|] eqn:Hbl; simpl.
    - rewrite map_lookup_filter_Some. simpl. split; intros [? ?]; split; try done; lia.
    - rewrite Hbl. simpl. rewrite lookup_empty. split; [done | by intros [? _]]. }
  split; [exact Hkeep|]. split.
  { intros Hnone. unfold cleanup_expired_tokens. by rewrite Hnone. }
  split.
  { intros token.
    destruct (is_token_revoked self token now).1 eqn:Hold.
    - apply is_token_revoked_true in Hold
        as (claims & jti & entry & Hc & Hj & Hne & Hentry & Hnow).
      apply is_token_revoked_true. exists claims, jti, entry.
      repeat split; try done. by apply Hkeep.
    - destruct (is_token_revoked (cleanup_expired_tokens self now) token now).1 eqn:Hnew;
        [|done].
      apply is_token_revoked_true in Hnew
        as (claims & jti & entry & Hc & Hj & Hne & Hentry & Hnow).
      apply Hkeep in Hentry as [Hentry _].
      assert (Htrue : (is_token_revoked self token now).1 = true).
      { apply is_token_revoked_true. by exists claims, jti, entry. }
      congruence. }
  unfold cleanup_expired_tokens.
  destruct (_token_blacklist self) as [bl|] eqn:Hbl; simpl; [|by rewrite Hbl].
  f_equal. f_equal. apply map_eq. intros jti. apply option_eq. intros entry.
  rewrite !map_lookup_filter_Some. simpl. split; [by intros [[? ?] ?] | by intros [? ?]].
Qed.

(** An instance with one stale and one live entry, cleaned at time 2000:
    the live entry stays. *)
Lemma cleanup_expired_tokens_witness :
  blacklist_of
    (cleanup_expired_tokens
       {| _token_blacklist :=
            Some (<["old" := {| revoked_at := 0; expires_at := 1000; token_hash := "" |}]>
                    {[ "new" := {| revoked_at := 0; expires_at := 3000;
                                   token_hash := "" |} ]}) |}
       2000) !! "new"
  = Some {| revoked_at := 0; expires_at := 3000; token_hash := "" |}.
Proof.
  apply cleanup_expired_tokens_spec. split; [reflexivity | simpl; lia].
Defined.

(** X6.  [is_token_revoked] adds no entry and changes none.  A token it
    reports revoked at some time is reported revoked at every earlier
    time; and once it has answered [False] for a token, the instance it
    leaves behind answers [False] for that token at any time. *)
Theorem revocation_only_lapses (self : JWTSecurity) (token : JWT.token) (now : Z) :
  (∀ jti entry,
     blacklist_of (is_token_revoked self token now).2 !! jti = Some entry →
     blacklist_of self !! jti = Some entry)
  ∧ (∀ earlier,
       (earlier ≤ now)%Z →
       (is_token_revoked self token now).1 = true →
       (is_token_revoked self token earlier).1 = true)
  ∧ ((is_token_revoked self token now).1 = false →
     ∀ later, (is_token_revoked (is_token_revoked self token now).2 token later).1 = false).
Proof.
  split; [intros jti entry; apply is_token_revoked_state|]. split.
  - intros earlier Hle Hrev.
    apply is_token_revoked_true in Hrev
      as (claims & jti & entry & Hc & Hj & Hne & Hentry & Hnow).
    apply is_token_revoked_true. exists claims, jti, entry. repeat split; try done. lia.
  - intros Hfalse later.
    destruct (is_token_revoked (is_token_revoked self token now).2 token later).1
      eqn:Hlater; [|done].
    apply is_token_revoked_true in Hlater
      as (claims & jti & entry & Hc & Hj & Hne & Hentry & Hnow).
    exfalso. revert Hfalse Hentry.
    unfold is_token_revoked, blacklist_of, dict_get. rewrite Hc, Hj. simpl.
    apply String.eqb_neq in Hne. rewrite Hne. simpl.
    destruct (_token_blacklist self) as [bl|] eqn:Hbl.
    + destruct (bl !! jti) as [e|] eqn:He.
      * destruct (_ <? _)%Z; simpl; [|done].
        intros _. by rewrite lookup_delete_eq.
      * simpl. rewrite Hbl. simpl. by rewrite He.
    + simpl. rewrite Hbl. simpl. by rewrite lookup_empty.
Qed.

(** The instance of the revocation theorem: the entry is reported at time
    1002 because it is reported at time 4600. *)
Lemma revocation_only_lapses_witness :
  (is_token_revoked RevocationSpec.instance_with_entry
     (create_access_token Fixture.auth "U1" "C1" "+919876543210" ADMIN None None None
        1000 "jti-1") 1002).1 = true.
Proof.
  apply (revocation_only_lapses RevocationSpec.instance_with_entry
           (create_access_token Fixture.auth "U1" "C1" "+919876543210" ADMIN None None
              None 1000 "jti-1") 4600 ).
  - lia.
  - vm_compute. reflexivity.
Defined.

End SessionSpec.

Module DecodeSpec.
Import Permissions Security TokenSpec.

Lemma check_required_Ok (fields : list string) (payload : gmap string value) :
  check_required fields payload = Ok tt ↔ ∀ f, f ∈ fields → is_Some (payload !! f).
Proof.
  induction fields as [|f fields IH]; simpl.
  - split; [intros _ f Hf; by apply elem_of_nil in Hf | done].
  - destruct (payload !! f) as [v|] eqn:Hf.
    + rewrite IH. split.
      * intros Hall g Hg. apply elem_of_cons in Hg as [->|Hg]; [by rewrite Hf | auto].
      * intros Hall g Hg. apply Hall. by right.
    + split; [done|]. intros Hall. specialize (Hall f (list_elem_of_here _ _)).
      rewrite Hf in Hall. by destruct Hall.
Qed.

Lemma signature_ok_Some (t : JWT.token) (key alg : string) (claims : gmap string value) :
  JWT.signature_ok t key alg = Some claims ↔ t = JWT.Signed claims key alg.
Proof.
  destruct t as [c k a|raw]; simpl; [|done].
  destruct (String.eqb_spec k key) as [->|Hk], (String.eqb_spec a alg) as [->|Ha];
    simpl; split; try done; intros [=]; subst; done.
Qed.

Section Decode.
Variable auth_config : AuthConfig.

Abbreviation secret := (jwt_secret_key auth_config).
Abbreviation algorithm := (jwt_algorithm auth_config).

Lemma decode_token_Ok (t : JWT.token) (now : Z) (p : gmap string value) :
  decode_token auth_config t now = Ok p
  ↔ t = JWT.Signed p secret algorithm
    ∧ (∀ f, f ∈ required_fields → is_Some (p !! f))
    ∧ ∃ e, p !! "exp" = Some (VInt e) ∧ (now ≤ e)%Z.
Proof.
  rewrite decode_token_unfold. unfold JWT.jose_decode. split.
  - destruct (JWT.signature_ok t secret algorithm) as [claims|] eqn:Hsig; [|done].
    apply signature_ok_Some in Hsig as ->.
    destruct (claims !! "exp") as [[| |e| |]|] eqn:Hexp; try done.
    + destruct (Z.ltb_spec e now); [done|].
      destruct (check_required required_fields claims) as [[]|] eqn:Hreq; [|done].
      intros [= <-]. pose proof (proj1 (check_required_Ok _ _) Hreq) as Hall. eauto.
    + destruct (check_required required_fields claims) as [[]|] eqn:Hreq; [|done].
      pose proof (proj1 (check_required_Ok _ _) Hreq) as Hall.
      destruct (Hall "exp") as [v Hv]; [unfold required_fields; set_solver|]. congruence.
  - intros (-> & Hreq & e & Hexp & Hnow).
    rewrite (proj2 (signature_ok_Some _ _ _ _) eq_refl), Hexp.
    destruct (Z.ltb_spec e now); [lia|].
    apply (proj2 (check_required_Ok _ _)) in Hreq. by rewrite Hreq.
Qed.



End Decode.



(** X8.  No refresh token issued by [create_refresh_token] can be
    exchanged: [refresh_access_token] raises on every one of them, at any
    time, because [decode_token] wants a [role] that the payload of a
    refresh token does not have. *)
Theorem issued_refresh_token_never_refreshes (auth_config : AuthConfig)
    (u c : string) (delta : option Z) (now : Z) (jti : string) (now' : Z)
    (jti' : string) :
  refresh_access_token auth_config
    (create_refresh_token auth_config u c delta now jti) now' jti'
  = (if (now + default (86400 * jwt_refresh_token_expire_days auth_config) delta <? now')%Z
     then Raise TokenExpiredError
     else Raise (InvalidTokenError (DetailsDict [("missing_field", VStr "role")])))
  ∧ is_ok (refresh_access_token auth_config
             (create_refresh_token auth_config u c delta now jti) now' jti') = false.
Proof.
  rewrite KindSpec.refresh_with_refresh_token. split; [done|]. by destruct (_ <? _)%Z.
Qed.

(** X9.  When [refresh_access_token] does return a token, the token it
    was given decodes to a payload of type [refresh] with a valid role,
    and the new token is an access token for that payload's user, clinic
    and role, issued now with the default lifetime, whose phone number is
    empty, whose doctor id is null and whose permission list is empty,
    whatever the role. *)
Theorem refreshed_token_contents (auth_config : AuthConfig) (t t' : JWT.token)
    (now : Z) (jti : string) :
  refresh_access_token auth_config t now jti = Ok t' →
  ∃ p r claims,
    decode_token auth_config t now = Ok p
    ∧ p !! "token_type" = Some (VStr "refresh")
    ∧ p !! "role" = Some (VStr (UserRole_value r))
    ∧ t' = JWT.Signed claims (jwt_secret_key auth_config) (jwt_algorithm auth_config)
    ∧ claims !! "token_type" = Some (VStr "access")
    ∧ claims !! "user_id" = p !! "user_id"
    ∧ claims !! "clinic_id" = p !! "clinic_id"
    ∧ claims !! "role" = p !! "role"
    ∧ claims !! "whatsapp_number" = Some (VStr "")
    ∧ claims !! "doctor_id" = Some VNone
    ∧ claims !! "permissions" = Some (VList [])
    ∧ claims !! "iat" = Some (VInt now)
    ∧ claims !! "exp"
      = Some (VInt (now + 60 * jwt_access_token_expire_minutes auth_config))
    ∧ claims !! "jti" = Some (VStr jti).
Proof.
  unfold refresh_access_token.
  destruct (decode_token auth_config t now) as [p|] eqn:Hdec; [|done].
  cbn [mbind result_bind].
  destruct (eq_str (dict_get p "token_type" VNone) "refresh") eqn:Htype; [|done].
  cbn [negb mbind result_bind].
  destruct (UserRole_of (dict_get p "role" VNone)) as [r|] eqn:Hrole; [|done].
  cbn [mbind result_bind]. intros [= <-].
  apply IsolationSpec.eq_str_true in Htype. apply UserRole_of_Ok in Hrole.
  apply dict_get_present in Htype; [|done].
  apply dict_get_present in Hrole; [|done].
  apply decode_token_Ok in Hdec as (_ & Hreq & _).
  destruct (Hreq "user_id") as [vu Hvu]; [unfold required_fields; set_solver|].
  destruct (Hreq "clinic_id") as [vc Hvc]; [unfold required_fields; set_solver|].
  exists p, r. eexists. split; [done|]. split; [done|]. split; [done|].
  split; [reflexivity|]. split; [reflexivity|].
  split; [unfold dict_get; rewrite Hvu; reflexivity|].
  split; [unfold dict_get; rewrite Hvc; reflexivity|].
  split; [by rewrite Hrole|].
  repeat (split; [reflexivity|]). reflexivity.
Qed.

(** A refresh payload to which a role was added, signed with the
    configured key: it is exchanged, for a token without a doctor id. *)
Lemma refreshed_token_contents_witness :
  ∃ t' claims,
    refresh_access_token Fixture.auth
      (JWT.Signed
         (<["role" := VStr "DOCTOR"]> (refresh_payload Fixture.auth "U1" "C1" None 1000 "r-1"))
         (jwt_secret_key Fixture.auth) (jwt_algorithm Fixture.auth)) 1001 "jti-2"
    = Ok t'
    ∧ t' = JWT.Signed claims (jwt_secret_key Fixture.auth) (jwt_algorithm Fixture.auth)
    ∧ claims !! "doctor_id" = Some VNone.
Proof.
  destruct (refresh_access_token Fixture.auth
              (JWT.Signed
                 (<["role" := VStr "DOCTOR"]>
                    (refresh_payload Fixture.auth "U1" "C1" None 1000 "r-1"))
                 (jwt_secret_key Fixture.auth) (jwt_algorithm Fixture.auth)) 1001 "jti-2")
    as [t'|e] eqn:Hres.
  - destruct (refreshed_token_contents _ _ _ _ _ Hres)
      as (p & r & claims & _ & _ & _ & Ht' & _ & _ & _ & _ & _ & Hdoc & _).
    exists t', claims. done.
  - vm_compute in Hres. discriminate Hres.
Defined.

End DecodeSpec.

Module OtpBindingSpec.
Import Security.

(** [c in s] *)
Fixpoint occurs (c : ascii) (s : string) : bool :=
  match s with
  | EmptyString => false
  | String a rest => Ascii.eqb a c || occurs c rest
  end.

(** One of the ten characters [0] to [9]. *)
Definition is_decimal_digit (a : ascii) : bool :=
  (48 <=? nat_of_ascii a)%nat && (nat_of_ascii a <=? 57)%nat.

(** [s.isascii() and s.isdecimal()], true of the empty string too. *)
Fixpoint all_digits (s : string) : bool :=
  match s with
  | EmptyString => true
  | String a rest => is_decimal_digit a && all_digits rest
  end.

Lemma concat_str_digit (d : nat) (l : list string) :
  String.concat "" (str_digit d :: l)
  = String (Ascii.ascii_of_nat (48 + d)) (String.concat "" l).
Proof. by destruct l. Qed.

Lemma str_digit_decimal (d : nat) :
  (d < 10)%nat →
  is_decimal_digit (Ascii.ascii_of_nat (48 + d)) = true
  ∧ Ascii.eqb (Ascii.ascii_of_nat (48 + d)) ":" = false.
Proof.
  intros Hd. do 10 (destruct d as [|d]; [by split|]). lia.
Qed.

Lemma digits_of_draws (randbelow : nat → nat) (n k : nat) :
  (∀ i, randbelow i < 10)%nat →
  let otp := String.concat "" ((λ i, str_digit (randbelow i)) <$> seq k n) in
  String.length otp = n
  ∧ (∀ i, (i < n)%nat →
          String.get i otp = Some (Ascii.ascii_of_nat (48 + randbelow (k + i)%nat)))
  ∧ all_digits otp = true
  ∧ occurs ":" otp = false.
Proof.
  intros Hdraw. revert k. induction n as [|n IH]; intros k; [by split; [|split; [intros; lia|]]|].
  cbn [seq fmap list_fmap]. cbv zeta. rewrite concat_str_digit.
  destruct (IH (S k)) as (Hlen & Hget & Hdig & Hcol).
  destruct (str_digit_decimal (randbelow k) (Hdraw k)) as [Hd Hc].
  split; [by cbn [String.length]; f_equal|]. split.
  - intros [|i] Hi; cbn [String.get].
    + by rewrite Nat.add_0_r.
    + rewrite Hget by lia. by replace (S k + i)%nat with (k + S i)%nat by lia.
  - cbn [all_digits occurs]. by rewrite Hd, Hc, Hdig, Hcol.
Qed.

Lemma append_assoc (a b c : string) : (a ++ b) ++ c = a ++ b ++ c.
Proof.
  induction a as [|x a IH]; [done|].
  change (String x ((a ++ b) ++ c) = String x (a ++ b ++ c)). by f_equal.
Qed.

Lemma length_append (a b : string) :
  String.length (a ++ b) = (String.length a + String.length b)%nat.
Proof.
  induction a as [|x a IH]; [done|].
  change (S (String.length (a ++ b)) = S (String.length a + String.length b)).
  by f_equal.
Qed.

Lemma append_cancel_r (a a' t : string) : a ++ t = a' ++ t → a = a'.
Proof.
  revert a'. induction a as [|x a IH]; intros [|x' a'] Heq; [done| | |].
  - apply (f_equal String.length) in Heq. rewrite !length_append in Heq.
    cbn [String.length] in Heq. lia.
  - apply (f_equal String.length) in Heq. rewrite !length_append in Heq.
    cbn [String.length] in Heq. lia.
  - change (String x (a ++ t) = String x' (a' ++ t)) in Heq.
    injection Heq as -> Heq. f_equal. by apply IH.
Qed.

(** Two strings cut at the first occurrence of [c] are cut alike. *)
Lemma split_at_first (c : ascii) (a a' b b' : string) :
  occurs c a = false → occurs c a' = false →
  a ++ String c b = a' ++ String c b' → a = a' ∧ b = b'.
Proof.
  revert a'. induction a as [|x a IH]; intros [|x' a'] Ha Ha' Heq;
    cbn [String.append occurs] in *.
  - by injection Heq as ->.
  - injection Heq as <- _. apply orb_false_iff in Ha' as [Hx _].
    by rewrite Ascii.eqb_refl in Hx.
  - injection Heq as -> _. apply orb_false_iff in Ha as [Hx _].
    by rewrite Ascii.eqb_refl in Hx.
  - injection Heq as -> Heq.
    apply orb_false_iff in Ha as [_ Ha]. apply orb_false_iff in Ha' as [_ Ha'].
    destruct (IH a' Ha Ha' Heq) as [-> ->]. done.
Qed.

Lemma digest_injective (x y : string) : Fixture.digest x = Fixture.digest y → x = y.
Proof. unfold Fixture.digest. cbn [String.append]. by intros [=]. Qed.

(** X10.  [generate_otp] draws as many digits as asked (the configured
    length when none is given) and joins them in the order drawn: the
    code has that length, its [i]-th character is the digit of the
    [i]-th draw, it consists of decimal digits and holds no colon. *)
Theorem generate_otp_digits (auth_config : AuthConfig) (length : option nat)
    (randbelow : nat → nat) :
  (∀ i, randbelow i < 10)%nat →
  let n := default (Z.to_nat (otp_length auth_config)) length in
  let otp := generate_otp auth_config length randbelow in
  String.length otp = n
  ∧ (∀ i, (i < n)%nat →
          String.get i otp = Some (Ascii.ascii_of_nat (48 + randbelow i)))
  ∧ all_digits otp = true
  ∧ occurs ":" otp = false.
Proof.
  intros Hdraw. apply (digits_of_draws randbelow _ 0 Hdraw).
Qed.

(** The configured six digits, drawn as 0, 1, 2, 3, 4, 5. *)
Lemma generate_otp_digits_witness :
  generate_otp Fixture.auth None (λ i, i `mod` 10)%nat = "012345"
  ∧ String.length (generate_otp Fixture.auth None (λ i, i `mod` 10)%nat) = 6%nat.
Proof.
  split; [reflexivity|].
  apply (generate_otp_digits Fixture.auth None (λ i, i `mod` 10)%nat).
  intros i. apply Nat.mod_upper_bound. discriminate.
Defined.

(** X11.  What the stored hash binds.  The hash made for a code and a
    request verifies that code under that request.  If the digest has no
    collisions and neither code holds a colon (as the generated codes do
    not), a code verifies against the hash only if it is the hashed code
    and is presented under the same request id.  The colon matters: the
    hash of code [a:b] under request [r] is the hash of code [a] under
    request [b:r], for any digest, since the three parts are joined by
    colons without escaping. *)
Theorem otp_hash_binds_request (sha256_hexdigest : string → string)
    (auth_config : AuthConfig) :
  (∀ otp request_id,
     verify_otp sha256_hexdigest auth_config otp
       (create_otp_hash sha256_hexdigest auth_config otp request_id) request_id = true)
  ∧ ((∀ x y, sha256_hexdigest x = sha256_hexdigest y → x = y) →
     ∀ otp otp' request_id request_id',
       occurs ":" otp = false → occurs ":" otp' = false →
       verify_otp sha256_hexdigest auth_config otp'
         (create_otp_hash sha256_hexdigest auth_config otp request_id) request_id' = true →
       otp' = otp ∧ request_id' = request_id)
  ∧ (∀ a b r,
       create_otp_hash sha256_hexdigest auth_config (a ++ ":" ++ b) r
       = create_otp_hash sha256_hexdigest auth_config a (b ++ ":" ++ r)).
Proof.
  split; [|split].
  - intros otp request_id. unfold verify_otp. apply String.eqb_refl.
  - intros Hinj otp otp' r r' Hotp Hotp' Hverify.
    unfold verify_otp, create_otp_hash in Hverify.
    apply String.eqb_eq, Hinj in Hverify.
    apply (split_at_first ":" otp' otp _ _ Hotp' Hotp) in Hverify as [-> Hrest].
    split; [done|].
    change (r' ++ ":" ++ jwt_secret_key auth_config)
      with (r' ++ (":" ++ jwt_secret_key auth_config)) in Hrest.
    by apply append_cancel_r in Hrest.
  - intros a b r. unfold create_otp_hash. f_equal.
    rewrite !append_assoc. done.
Qed.

(** With the tagging digest: the hash of ["123456"] for request
    ["req-1"] does not verify the same code under request ["req-2"]. *)
Lemma otp_hash_binds_request_witness :
  verify_otp Fixture.digest Fixture.auth "123456"
    (create_otp_hash Fixture.digest Fixture.auth "123456" "req-1") "req-2" = false.
Proof.
  destruct (verify_otp Fixture.digest Fixture.auth "123456"
              (create_otp_hash Fixture.digest Fixture.auth "123456" "req-1") "req-2")
    eqn:Hverify; [|reflexivity].
  destruct (otp_hash_binds_request Fixture.digest Fixture.auth) as (_ & Hbind & _).
  destruct (Hbind digest_injective "123456" "123456" "req-1" "req-2"
              eq_refl eq_refl Hverify) as [_ Hreq].
  discriminate Hreq.
Defined.

End OtpBindingSpec.

Module Limiter.
Import Py Security.

(** [rate_limited(limit, window_seconds, identifier_func)(func)], the
    wrapper it returns, called at time [now].  [identifier] is the
    string the wrapper extracts from the call (by [identifier_func], or
    the user id of [current_user], or ["anonymous"]) and [func] the
    outcome of the wrapped call; the limiter is the one the wrapper
    makes for itself on entry. *)
Definition rate_limited {B : Type} (limit window_seconds : Z) (identifier : string)
    (func : result B) (now : Z) : result B :=
  let rate_limiter := RateLimiter_new in
  match (check_rate_limit rate_limiter identifier limit window_seconds now).2 with
  | Ok _ => func
  | Raise e => Raise e
  end.

End Limiter.

Module LimiterSpec.
Import Py Security Limiter RateLimitSpec.
Local Close Scope string_scope.

Lemma otp_key_inj (w w' : string) : ("otp:" +:+ w = "otp:" +:+ w')%string → w = w'.
Proof. cbn. by intros [=]. Qed.

(** X12.  The [rate_limited] decorator counts nothing.  Each call makes
    its own limiter, whose history is empty, so with a limit of at least
    one every call reaches the wrapped function, however many calls
    are made and however close together; with a limit of zero or less
    every call raises [RateLimitExceededError] and the function is not
    run. *)
Theorem rate_limited_never_limits {B : Type} (limit window_seconds : Z)
    (identifier : string) (func : result B) :
  (∀ now,
     rate_limited limit window_seconds identifier func now
     = if (limit <=? 0)%Z
       then Raise (RateLimitExceededError identifier limit window_seconds)
       else func)
  ∧ (∀ times : list Z,
       (1 ≤ limit)%Z →
       (λ now, rate_limited limit window_seconds identifier func now) <$> times
       = replicate (length times) func).
Proof.
  assert (Hone : ∀ now,
            rate_limited limit window_seconds identifier func now
            = if (limit <=? 0)%Z
              then Raise (RateLimitExceededError identifier limit window_seconds)
              else func).
  { intros now. unfold rate_limited, check_rate_limit, RateLimiter_new.
    cbn [_requests]. rewrite lookup_empty. simpl.
    change (Z.of_nat 0) with 0%Z. destruct (limit <=? 0)%Z; reflexivity. }
  split; [exact Hone|].
  intros times Hlimit. induction times as [|now times IH]; [done|].
  cbn [fmap list_fmap length replicate]. f_equal; [|exact IH].
  rewrite Hone. by destruct (Z.leb_spec limit 0); [lia|].
Qed.

(** Six calls in the same second under a limit of five: all six run. *)
Lemma rate_limited_never_limits_witness :
  (λ now, rate_limited 5 60 "U1"%string (Ok "done"%string) now)
  <$> [100; 100; 100; 100; 100; 100]%Z
  = replicate 6 (Ok "done"%string).
Proof.
  apply (rate_limited_never_limits 5 60 "U1"%string (Ok "done"%string)). lia.
Defined.

(** X13.  The one-hour OTP limit of a number is kept in the same
    dictionary as every other limit, under the key [otp:] followed by
    the number; the dictionary [_otp_requests] is never written.  A
    check for one number leaves the history of every other key as it
    was, its outcome depends on that number's own history only, and a
    call of [check_rate_limit] accepted under the identifier
    [otp:<number>] is counted against the number's OTP limit: with a
    limit of one, the OTP request that follows within the hour is
    refused. *)
Theorem otp_rate_limit_namespace (auth_config : AuthConfig) (self : RateLimiter)
    (whatsapp_number : string) (now : Z) :
  let key := ("otp:" +:+ whatsapp_number)%string in
  let after := (check_otp_rate_limit auth_config self whatsapp_number now).1 in
  _otp_requests after = _otp_requests self
  ∧ (∀ other, other ≠ key → history after other = history self other)
  ∧ (∀ number, number ≠ whatsapp_number →
       history after ("otp:" +:+ number)%string
       = history self ("otp:" +:+ number)%string)
  ∧ (∀ self',
       history self' key = history self key →
       (check_otp_rate_limit auth_config self' whatsapp_number now).2
       = (check_otp_rate_limit auth_config self whatsapp_number now).2)
  ∧ (∀ limit window_seconds later,
       (check_rate_limit self key limit window_seconds now).2 = Ok true →
       (later - 3600 < now)%Z →
       (otp_rate_limit_per_hour auth_config ≤ 1)%Z →
       (check_otp_rate_limit auth_config
          (check_rate_limit self key limit window_seconds now).1
          whatsapp_number later).2
       = Raise (RateLimitExceededError key (otp_rate_limit_per_hour auth_config) 3600)).
Proof.
  intros key after. split; [|split; [|split; [|split]]].
  - unfold after, check_otp_rate_limit, check_rate_limit. cbv zeta.
    by destruct (_ <=? _)%Z.
  - intros other Hother. by apply check_other.
  - intros number Hnumber. apply check_other.
    intros Heq. by apply otp_key_inj in Heq.
  - intros self' Hhist. unfold check_otp_rate_limit, check_rate_limit. cbv zeta.
    fold key. fold (history self' key). fold (history self key). rewrite Hhist.
    by destruct (_ <=? _)%Z.
  - intros limit window_seconds later Hok Hlater Hlimit.
    unfold check_otp_rate_limit. fold key.
    set (kept := filter (λ t, now - window_seconds < t)%Z (history self key)).
    destruct (Z.lt_ge_cases (Z.of_nat (length kept)) limit) as [Hlt|Hge].
    + destruct (check_accepts key limit window_seconds self now Hlt) as [_ Hhist].
      fold kept in Hhist.
      apply check_rejects. rewrite Hhist, filter_app, length_app.
      rewrite (filter_cons_True _ now []) by lia. cbn [length filter list_filter]. lia.
    + destruct (check_rejects key limit window_seconds self now Hge) as [Hraise _].
      rewrite Hraise in Hok. discriminate Hok.
Qed.

(** One API call under the identifier [otp:+919876543210], then an OTP
    request for that number a minute later, with one OTP allowed per
    hour. *)
Lemma otp_rate_limit_namespace_witness :
  (check_otp_rate_limit
     {| jwt_secret_key := jwt_secret_key Fixture.auth;
        jwt_algorithm := jwt_algorithm Fixture.auth;
        jwt_access_token_expire_minutes := 60;
        jwt_refresh_token_expire_days := 7;
        otp_length := 6;
        otp_expire_minutes := 5;
        otp_max_attempts := 3;
        otp_rate_limit_per_hour := 1 |}
     (check_rate_limit RateLimiter_new "otp:+919876543210"%string 100 60 1000).1
     "+919876543210"%string 1060).2
  = Raise (RateLimitExceededError "otp:+919876543210"%string 1 3600).
Proof.
  apply (otp_rate_limit_namespace
           {| jwt_secret_key := jwt_secret_key Fixture.auth;
              jwt_algorithm := jwt_algorithm Fixture.auth;
              jwt_access_token_expire_minutes := 60;
              jwt_refresh_token_expire_days := 7;
              otp_length := 6;
              otp_expire_minutes := 5;
              otp_max_attempts := 3;
              otp_rate_limit_per_hour := 1 |}
           RateLimiter_new "+919876543210"%string 1000).
  - reflexivity.
  - lia.
  - cbn. lia.
Defined.

End LimiterSpec.

(** * Text utilities ([security.py])

    The functions below measure, index, cut and match strings
    character by character, so here a [str] is the list of its code
    points. *)
Module Text.
Import Py.
Local Close Scope string_scope.

Abbreviation str := (list N) (only parsing).

(** The code points of an ASCII literal. *)
Definition lit (s : string) : str := N_of_ascii <$> String.list_ascii_of_string s.

(** [bool(s)] *)
Definition nonempty (s : str) : bool :=
  match s with [] => false | _ => true end.

(** [s * n], empty when [n] is not positive. *)
Definition str_mul (s : str) (n : Z) : str := mjoin (replicate (Z.to_nat n) s).

(** [len(s)] *)
Definition len (s : str) : Z := Z.of_nat (length s).

(** [s[:n]]; a negative [n] counts from the end. *)
Definition slice_to (s : str) (n : Z) : str :=
  if (0 <=? n)%Z then take (Z.to_nat n) s else take (Z.to_nat (len s + n)) s.

(** [s[-n:]] for a literal [n > 0]: the last [n] characters, all of [s]
    when it is shorter. *)
Definition slice_last (s : str) (n : nat) : str := drop (length s - n) s.

(** [DataEncryption.mask_pii_data(self, data, mask_char)].  [data[0]]
    and [data[-1]], taken of a string of four characters or more, are
    its first and its last character. *)
Definition mask_pii_data (security_config : SecurityConfig) (data mask_char : str)
  : str :=
  if negb (pii_masking_enabled security_config) then data
  else if negb (nonempty data) || (len data <? 4)%Z then str_mul mask_char (len data)
  else take 1 data ++ str_mul mask_char (len data - 2) ++ slice_last data 1.

(** [DataEncryption.mask_phone_number(self, phone)] *)
Definition mask_phone_number (phone : str) : str :=
  if (len phone <=? 6)%Z then str_mul (lit "*") (len phone)
  else take 3 phone ++ str_mul (lit "*") (len phone - 6) ++ slice_last phone 3.

End Text.

Module MaskSpec.
Import Py Text.
Local Close Scope string_scope.
Local Open Scope nat_scope.

Lemma str_mul_single (c : N) (n : Z) : str_mul [c] n = replicate (Z.to_nat n) c.
Proof.
  unfold str_mul. induction (Z.to_nat n) as [|k IH]; [done|].
  simpl. by f_equal.
Qed.

(** The characters of [a ++ m * k ++ b], position by position. *)
Lemma lookup_masked {A : Type} (a b : list A) (k : nat) (m : A) (i : nat) :
  (a ++ replicate k m ++ b) !! i
  = if i <? length a then a !! i
    else if i <? length a + k then Some m
    else b !! (i - length a - k).
Proof.
  destruct (Nat.ltb_spec i (length a)) as [Ha|Ha].
  - by rewrite lookup_app_l.
  - rewrite lookup_app_r by done.
    destruct (Nat.ltb_spec i (length a + k)) as [Hk|Hk].
    + rewrite lookup_app_l by (rewrite length_replicate; lia).
      apply lookup_replicate_2. lia.
    + rewrite lookup_app_r by (rewrite length_replicate; lia).
      by rewrite length_replicate.
Qed.

(** X14.  [mask_phone_number] keeps the length of the number.  Of a
    number longer than six characters it shows the first three and the
    last three and puts an asterisk in every other place; a number of
    six characters or fewer is masked entirely.  It does so whether or
    not PII masking is switched on, since it never reads the setting. *)
Theorem mask_phone_number_shape (phone : str) :
  length (mask_phone_number phone) = length phone
  ∧ (∀ i c,
       phone !! i = Some c →
       mask_phone_number phone !! i
       = Some (if (6 <? length phone) && ((i <? 3) || (length phone - 3 <=? i))
               then c else 42%N)).
Proof.
  unfold mask_phone_number, len.
  change (lit "*") with [42%N]. rewrite !str_mul_single, Nat2Z.id.
  destruct (Z.leb_spec (Z.of_nat (length phone)) 6) as [Hle|Hgt].
  - replace (6 <? length phone) with false by (symmetry; apply Nat.ltb_ge; lia).
    split; [by rewrite length_replicate|].
    intros i c Hi. apply lookup_replicate_2. by apply lookup_lt_Some in Hi.
  - replace (6 <? length phone) with true by (symmetry; apply Nat.ltb_lt; lia).
    replace (Z.to_nat (Z.of_nat (length phone) - 6)) with (length phone - 6) by lia.
    unfold slice_last. split.
    + rewrite !length_app, length_take, length_replicate, length_drop. lia.
    + intros i c Hi. pose proof (lookup_lt_Some _ _ _ Hi) as Hlt.
      rewrite lookup_masked, length_take.
      replace (3 `min` length phone) with 3 by lia. cbn [andb].
      destruct (Nat.ltb_spec i 3) as [H3|H3]; cbn [orb].
      * by rewrite lookup_take_lt.
      * destruct (Nat.ltb_spec i (3 + (length phone - 6))) as [Hmid|Hend].
        -- by replace (length phone - 3 <=? i) with false
             by (symmetry; apply Nat.leb_gt; lia).
        -- replace (length phone - 3 <=? i) with true
             by (symmetry; apply Nat.leb_le; lia).
           rewrite lookup_drop, <- Hi. f_equal. lia.
Qed.

(** X15.  [mask_pii_data] returns its input unchanged when PII masking
    is off.  When it is on and the mask is a single character, the
    result has the length of the input; of an input of four characters
    or more the first and the last character are shown and every other
    place holds the mask, and a shorter input is masked entirely. *)
Theorem mask_pii_data_shape (security_config : SecurityConfig) (data : str) (m : N) :
  (pii_masking_enabled security_config = false →
   ∀ mask_char, mask_pii_data security_config data mask_char = data)
  ∧ (pii_masking_enabled security_config = true →
     length (mask_pii_data security_config data [m]) = length data
     ∧ ∀ i c,
         data !! i = Some c →
         mask_pii_data security_config data [m] !! i
         = Some (if (4 <=? length data) && ((i =? 0) || (i =? length data - 1))
                 then c else m)).
Proof.
  unfold mask_pii_data, len. split; intros ->; [done|]. cbn [negb].
  rewrite !str_mul_single, Nat2Z.id.
  destruct (Z.ltb_spec (Z.of_nat (length data)) 4) as [Hlt|Hge].
  - rewrite orb_true_r.
    replace (4 <=? length data) with false by (symmetry; apply Nat.leb_gt; lia).
    split; [by rewrite length_replicate|].
    intros i c Hi. apply lookup_replicate_2. by apply lookup_lt_Some in Hi.
  - replace (4 <=? length data) with true by (symmetry; apply Nat.leb_le; lia).
    destruct data as [|c0 data']; [cbn in Hge; lia|]. cbn [nonempty negb orb].
    set (data := c0 :: data') in *.
    replace (Z.to_nat (Z.of_nat (length data) - 2)) with (length data - 2) by lia.
    unfold slice_last. split.
    + rewrite !length_app, length_take, length_replicate, length_drop. lia.
    + intros i c Hi. pose proof (lookup_lt_Some _ _ _ Hi) as Hlt.
      rewrite lookup_masked, length_take.
      replace (1 `min` length data) with 1 by lia. cbn [andb].
      destruct (Nat.ltb_spec i 1) as [H1|H1].
      * replace (i =? 0) with true by (symmetry; apply Nat.eqb_eq; lia). cbn [orb].
        by rewrite lookup_take_lt.
      * replace (i =? 0) with false by (symmetry; apply Nat.eqb_neq; lia). cbn [orb].
        destruct (Nat.ltb_spec i (1 + (length data - 2))) as [Hmid|Hend].
        -- by replace (i =? length data - 1) with false
             by (symmetry; apply Nat.eqb_neq; lia).
        -- replace (i =? length data - 1) with true
             by (symmetry; apply Nat.eqb_eq; lia).
           rewrite lookup_drop, <- Hi. f_equal. lia.
Qed.

(** A name of six characters, masked with asterisks. *)
Lemma mask_pii_data_shape_witness :
  mask_pii_data Fixture.encryption_on (lit "Asha K") (lit "*") = lit "A****K"
  ∧ length (mask_pii_data Fixture.encryption_on (lit "Asha K") [42%N]) = 6.
Proof.
  split; [reflexivity|].
  apply (mask_pii_data_shape Fixture.encryption_on (lit "Asha K") 42%N). reflexivity.
Defined.

End MaskSpec.

Module Sanitize.
Import Py Text.
Local Close Scope string_scope.

(** [[<>]] *)
Definition is_angle (c : N) : bool := (c =? 60)%N || (c =? 62)%N.

(** [[\x00-\x1f\x7f-\x9f]] *)
Definition is_control (c : N) : bool :=
  (c <=? 31)%N || ((127 <=? c)%N && (c <=? 159)%N).

(** [re.sub(cls, "", s)] for a character class [cls]. *)
Definition remove (cls : N → bool) (s : str) : str := filter (λ c, cls c = false) s.

Section Unicode.

(** Two tables of the Unicode database: the characters that [\s] and
    [str.strip()] take for whitespace, and those that [\d] takes for
    decimal digits. *)
Variable isspace : N → bool.
Variable isdecimal : N → bool.

(** [re.sub(r"\s+", " ", s)]: every maximal run of whitespace becomes
    one space.  [in_run] tells that the character before was
    whitespace. *)
Fixpoint collapse_from (in_run : bool) (s : str) : str :=
  match s with
  | [] => []
  | c :: rest =>
      if isspace c
      then if in_run then collapse_from true rest else 32%N :: collapse_from true rest
      else c :: collapse_from false rest
  end.

Definition collapse_whitespace (s : str) : str := collapse_from false s.

(** [s.lstrip()], [s.rstrip()], [s.strip()] *)
Fixpoint lstrip (s : str) : str :=
  match s with
  | [] => []
  | c :: rest => if isspace c then lstrip rest else s
  end.

Definition rstrip (s : str) : str := reverse (lstrip (reverse s)).

Definition strip (s : str) : str := rstrip (lstrip s).

(** [sanitize_input(input_str, max_length)] *)
Definition sanitize_input (input_str : str) (max_length : Z) : str :=
  if negb (nonempty input_str) then []
  else
    let sanitized := slice_to input_str max_length in
    let sanitized := remove is_angle sanitized in
    let sanitized := remove is_control sanitized in
    let sanitized := collapse_whitespace sanitized in
    strip sanitized.

(** [validate_whatsapp_number(phone)]: [re.match] of
    [^\+91[6-9]\d{9}$], that is [+91], one of [6] to [9], nine decimal
    digits, and then the end of the string or a line feed that ends
    it. *)
Definition validate_whatsapp_number (phone : str) : bool :=
  match phone with
  | plus :: nine :: one :: c :: rest =>
      (plus =? 43)%N && (nine =? 57)%N && (one =? 49)%N
      && ((54 <=? c)%N && (c <=? 57)%N)
      && ((length (take 9 rest) =? 9)%nat && forallb isdecimal (take 9 rest))
      && match drop 9 rest with
         | [] => true
         | [c] => (c =? 10)%N
         | _ => false
         end
  | _ => false
  end.

End Unicode.

(** [validate_dynamodb_key(key_value, max_length)] *)
Definition validate_dynamodb_key (key_value : str) (max_length : Z) : result bool :=
  if negb (nonempty key_value) then Raise ValueError
  else if (max_length <? len key_value)%Z then Raise ValueError
  else
    let invalid_chars := [0; 1; 2; 3; 4; 5; 6; 7]%N in
    if existsb (λ char, bool_decide (char ∈ key_value)) invalid_chars
    then Raise ValueError
    else Ok true.

End Sanitize.

Module SanitizeSpec.
Import Py Text Sanitize.
Local Close Scope string_scope.
Local Open Scope nat_scope.

Lemma remove_id (cls : N → bool) (s : str) :
  (∀ c, c ∈ s → cls c = false) → remove cls s = s.
Proof.
  unfold remove. induction s as [|x s IH]; intros Hall; [done|].
  rewrite filter_cons_True by (apply Hall; left).
  f_equal. apply IH. intros c Hc. apply Hall. by right.
Qed.

Lemma slice_to_length (s : str) (n : Z) :
  length (slice_to s n) ≤ length s ∧ ((0 ≤ n)%Z → (len (slice_to s n) ≤ n)%Z).
Proof.
  unfold slice_to, len. destruct (Z.leb_spec 0 n); rewrite length_take; lia.
Qed.

Lemma slice_to_all (s : str) (n : Z) : (len s ≤ n)%Z → slice_to s n = s.
Proof.
  unfold slice_to, len. intros Hn. destruct (Z.leb_spec 0 n); [|lia].
  apply take_ge. lia.
Qed.

Section Sanitized.
Variable isspace : N → bool.

Definition head_nonspace (s : str) : Prop := ∀ c, head s = Some c → isspace c = false.

Definition last_nonspace (s : str) : Prop := ∀ c, last s = Some c → isspace c = false.

Definition no_adjacent (s : str) : Prop :=
  ∀ i a b, s !! i = Some a → s !! S i = Some b → isspace a = true → isspace b = false.

Definition spaces32 (s : str) : Prop := ∀ c, c ∈ s → isspace c = true → c = 32%N.

Definition harmless (s : str) : Prop :=
  ∀ c, c ∈ s → is_angle c = false ∧ is_control c = false.

(** What [sanitize_input] leaves: no markup or control character, no
    whitespace but single spaces, and none at either end. *)
Definition tidy (s : str) : Prop :=
  harmless s ∧ spaces32 s ∧ no_adjacent s ∧ head_nonspace s ∧ last_nonspace s.

Lemma collapse_from_elem (f : bool) (s : str) (c : N) :
  c ∈ collapse_from isspace f s → c = 32%N ∨ (c ∈ s ∧ isspace c = false).
Proof.
  revert f. induction s as [|x s IH]; intros f; cbn [collapse_from].
  - intros Hc. by apply elem_of_nil in Hc.
  - destruct (isspace x) eqn:Hx; [destruct f|].
    + intros Hc. destruct (IH _ Hc) as [->|[Hin Hsp]]; [by left|].
      right. split; [by right | done].
    + intros Hc. apply elem_of_cons in Hc as [->|Hc]; [by left|].
      destruct (IH _ Hc) as [->|[Hin Hsp]]; [by left|].
      right. split; [by right | done].
    + intros Hc. apply elem_of_cons in Hc as [->|Hc]; [right; split; [by left | done]|].
      destruct (IH _ Hc) as [->|[Hin Hsp]]; [by left|].
      right. split; [by right | done].
Qed.

Lemma collapse_from_length (f : bool) (s : str) :
  length (collapse_from isspace f s) ≤ length s.
Proof.
  revert f. induction s as [|x s IH]; intros f; cbn [collapse_from length]; [lia|].
  destruct (isspace x); [destruct f|]; cbn [length];
    [specialize (IH true) | specialize (IH true) | specialize (IH false)]; lia.
Qed.

Lemma collapse_from_shape (f : bool) (s : str) :
  no_adjacent (collapse_from isspace f s)
  ∧ (f = true → head_nonspace (collapse_from isspace f s)).
Proof.
  revert f. induction s as [|x s IH]; intros f; cbn [collapse_from].
  - split; [intros i a b Ha; by rewrite lookup_nil in Ha | intros _ c Hc; done].
  - destruct (isspace x) eqn:Hx; [destruct f|].
    + apply IH.
    + destruct (IH true) as [Hadj Hhead]. split; [|done].
      intros [|i] a b Ha Hb Hsa.
      * apply (Hhead eq_refl). by rewrite head_lookup.
      * by apply (Hadj i a b).
    + destruct (IH false) as [Hadj _]. split.
      * intros [|i] a b Ha Hb Hsa.
        -- injection Ha as <-. congruence.
        -- by apply (Hadj i a b).
      * intros _ c [= <-]. done.
Qed.

Lemma collapse_from_id (f : bool) (s : str) :
  spaces32 s → no_adjacent s → (f = true → head_nonspace s) →
  collapse_from isspace f s = s.
Proof.
  revert f. induction s as [|x s IH]; intros f Hsp Hadj Hhead; [done|].
  cbn [collapse_from].
  assert (Hsp' : spaces32 s) by (intros c Hc; apply Hsp; by right).
  assert (Hadj' : no_adjacent s) by (intros i a b Ha Hb; by apply (Hadj (S i) a b)).
  destruct (isspace x) eqn:Hx.
  - destruct f; [specialize (Hhead eq_refl x eq_refl); congruence|].
    rewrite (Hsp x) by (done || by left). f_equal.
    apply IH; [done | done |]. intros _ c Hc.
    apply (Hadj 0 x c); [done | by rewrite head_lookup in Hc | done].
  - f_equal. by apply IH.
Qed.

Lemma lstrip_suffix (s : str) : lstrip isspace s `suffix_of` s.
Proof.
  induction s as [|x s IH]; cbn [lstrip]; [done|].
  destruct (isspace x); [by apply suffix_cons_r | done].
Qed.

Lemma lstrip_head (s : str) : head_nonspace (lstrip isspace s).
Proof.
  induction s as [|x s IH]; cbn [lstrip]; [by intros c Hc|].
  destruct (isspace x) eqn:Hx; [done|]. by intros c [= <-].
Qed.

Lemma lstrip_id (s : str) : head_nonspace s → lstrip isspace s = s.
Proof.
  destruct s as [|x s]; [done|]. intros Hhead. cbn [lstrip].
  by rewrite (Hhead x eq_refl).
Qed.

Lemma rstrip_prefix (s : str) : rstrip isspace s `prefix_of` s.
Proof.
  destruct (lstrip_suffix (reverse s)) as [k Hk]. exists (reverse k).
  apply (f_equal reverse) in Hk. by rewrite reverse_involutive, reverse_app in Hk.
Qed.

Lemma rstrip_last (s : str) : last_nonspace (rstrip isspace s).
Proof.
  intros c Hc. unfold rstrip in Hc. rewrite last_reverse in Hc.
  by apply (lstrip_head (reverse s)).
Qed.

Lemma rstrip_id (s : str) : last_nonspace s → rstrip isspace s = s.
Proof.
  intros Hlast. unfold rstrip. rewrite lstrip_id; [apply reverse_involutive|].
  intros c Hc. rewrite head_reverse in Hc. by apply Hlast.
Qed.

Lemma strip_infix (s : str) : ∃ k1 k2, s = k1 ++ strip isspace s ++ k2.
Proof.
  destruct (lstrip_suffix s) as [k1 H1].
  destruct (rstrip_prefix (lstrip isspace s)) as [k2 H2].
  exists k1, k2. unfold strip. by rewrite <- H2.
Qed.

Lemma strip_head (s : str) : head_nonspace (strip isspace s).
Proof.
  intros c Hc. destruct (rstrip_prefix (lstrip isspace s)) as [k Hk].
  apply (lstrip_head s). rewrite Hk. fold (strip isspace s).
  rewrite head_app. by rewrite Hc.
Qed.

Lemma strip_id (s : str) : head_nonspace s → last_nonspace s → strip isspace s = s.
Proof.
  intros Hhead Hlast. unfold strip. rewrite lstrip_id by done. by apply rstrip_id.
Qed.

Lemma no_adjacent_infix (k1 s k2 : str) : no_adjacent (k1 ++ s ++ k2) → no_adjacent s.
Proof.
  intros Hadj i a b Ha Hb. apply (Hadj (length k1 + i) a b).
  - rewrite lookup_app_r by lia. replace (length k1 + i - length k1) with i by lia.
    by apply lookup_app_l_Some.
  - rewrite lookup_app_r by lia. replace (S (length k1 + i) - length k1) with (S i) by lia.
    by apply lookup_app_l_Some.
Qed.

Lemma sanitize_input_elem (input_str : str) (max_length : Z) (c : N) :
  c ∈ sanitize_input isspace input_str max_length →
  (c = 32%N ∨ (c ∈ input_str ∧ isspace c = false))
  ∧ is_angle c = false ∧ is_control c = false.
Proof.
  unfold sanitize_input. destruct (nonempty input_str); cbn [negb];
    [|intros Hc; by apply elem_of_nil in Hc].
  cbv zeta. intros Hc.
  destruct (strip_infix (collapse_whitespace isspace
              (remove is_control (remove is_angle (slice_to input_str max_length)))))
    as (k1 & k2 & Hk).
  assert (Hin : c ∈ collapse_whitespace isspace
                  (remove is_control (remove is_angle (slice_to input_str max_length)))).
  { rewrite Hk. apply elem_of_app. right. apply elem_of_app. by left. }
  apply collapse_from_elem in Hin as [->|[Hin Hsp]]; [by split; [left|]|].
  unfold remove in Hin.
  apply list_elem_of_filter in Hin as [Hctl Hin].
  apply list_elem_of_filter in Hin as [Hang Hin].
  split; [|done]. right. split; [|done].
  unfold slice_to in Hin. destruct (0 <=? max_length)%Z;
    by apply elem_of_take in Hin as (i & Hi & _); apply list_elem_of_lookup_2 in Hi.
Qed.

Lemma sanitize_input_length (input_str : str) (max_length : Z) :
  length (sanitize_input isspace input_str max_length) ≤ length input_str
  ∧ ((0 ≤ max_length)%Z →
     (len (sanitize_input isspace input_str max_length) ≤ max_length)%Z).
Proof.
  unfold sanitize_input. destruct (nonempty input_str); cbn [negb];
    [|split; [cbn; lia | done]].
  cbv zeta.
  destruct (strip_infix (collapse_whitespace isspace
              (remove is_control (remove is_angle (slice_to input_str max_length)))))
    as (k1 & k2 & Hk).
  apply (f_equal length) in Hk. rewrite !length_app in Hk.
  pose proof (collapse_from_length false
                (remove is_control (remove is_angle (slice_to input_str max_length)))) as H1.
  unfold collapse_whitespace in *.
  pose proof (length_filter (λ c, is_control c = false)
                (remove is_angle (slice_to input_str max_length))) as H2.
  pose proof (length_filter (λ c, is_angle c = false)
                (slice_to input_str max_length)) as H3.
  destruct (slice_to_length input_str max_length) as [H4 H5].
  unfold remove, len in *. split; [lia|]. intros Hmax. specialize (H5 Hmax). lia.
Qed.

Lemma sanitize_input_tidy (input_str : str) (max_length : Z) :
  tidy (sanitize_input isspace input_str max_length).
Proof.
  split; [|split; [|split; [|split]]].
  - intros c Hc. by apply sanitize_input_elem in Hc as (_ & Hang & Hctl).
  - intros c Hc Hsp. apply sanitize_input_elem in Hc as ([->|[_ Hns]] & _); [done|].
    congruence.
  - unfold sanitize_input. destruct (nonempty input_str); cbn [negb];
      [|intros i a b Ha; by rewrite lookup_nil in Ha].
    cbv zeta.
    destruct (strip_infix (collapse_whitespace isspace
                (remove is_control (remove is_angle (slice_to input_str max_length)))))
      as (k1 & k2 & Hk).
    apply (no_adjacent_infix k1 _ k2). rewrite <- Hk.
    apply (collapse_from_shape false).
  - unfold sanitize_input. destruct (nonempty input_str); cbn [negb]; [|by intros c Hc].
    apply strip_head.
  - unfold sanitize_input. destruct (nonempty input_str); cbn [negb]; [|by intros c Hc].
    apply rstrip_last.
Qed.

Lemma tidy_fixed (s : str) (max_length : Z) :
  tidy s → (len s ≤ max_length)%Z → sanitize_input isspace s max_length = s.
Proof.
  intros (Hharm & Hsp & Hadj & Hhead & Hlast) Hlen.
  unfold sanitize_input. destruct s as [|x s]; [done|]. cbn [nonempty negb]. cbv zeta.
  rewrite slice_to_all by done.
  rewrite (remove_id is_angle) by (intros c Hc; by apply Hharm).
  rewrite (remove_id is_control) by (intros c Hc; by apply Hharm).
  unfold collapse_whitespace. rewrite collapse_from_id by done.
  by apply strip_id.
Qed.

End Sanitized.

(** X16.  What [sanitize_input] returns, for any input and any
    [max_length]: it holds no [<], no [>] and no control character;
    each of its characters is a space or a character of the input that
    is not whitespace, so the only whitespace left is the plain space;
    a space is never followed by another whitespace character;
    it neither starts nor ends with whitespace; it is no longer than
    the input, and no longer than [max_length] when that is not
    negative. *)
Theorem sanitize_input_safe (isspace : N → bool) (input_str : str) (max_length : Z) :
  let out := sanitize_input isspace input_str max_length in
  (∀ c, c ∈ out →
        c ≠ 60%N ∧ c ≠ 62%N ∧ (31 < c)%N ∧ ¬ (127 ≤ c ≤ 159)%N
        ∧ (c = 32%N ∨ (c ∈ input_str ∧ isspace c = false)))
  ∧ (∀ i a b, out !! i = Some a → out !! S i = Some b →
              isspace a = true → isspace b = false)
  ∧ (∀ c, head out = Some c → isspace c = false)
  ∧ (∀ c, last out = Some c → isspace c = false)
  ∧ length out ≤ length input_str
  ∧ ((0 ≤ max_length)%Z → (len out ≤ max_length)%Z).
Proof.
  intros out.
  destruct (sanitize_input_tidy isspace input_str max_length)
    as (_ & _ & Hadj & Hhead & Hlast).
  destruct (sanitize_input_length isspace input_str max_length) as [Hlen Hmax].
  split; [|by repeat (split; [done|])].
  intros c Hc. apply sanitize_input_elem in Hc as (Horigin & Hang & Hctl).
  unfold is_angle in Hang. unfold is_control in Hctl.
  apply orb_false_iff in Hang as [H60 H62]. apply orb_false_iff in Hctl as [H31 H127].
  apply N.eqb_neq in H60, H62. apply N.leb_gt in H31.
  split; [done|]. split; [done|]. split; [done|]. split; [|done].
  intros [Hlo Hhi]. apply andb_false_iff in H127 as [H|H].
  - apply N.leb_gt in H. lia.
  - apply N.leb_gt in H. lia.
Qed.

(** X17.  [sanitize_input] is idempotent for a [max_length] that is not
    negative: sanitizing a sanitized string, under the same or a larger
    limit, changes nothing. *)
Theorem sanitize_input_idempotent (isspace : N → bool) (input_str : str)
    (max_length max_length' : Z) :
  (0 ≤ max_length ≤ max_length')%Z →
  sanitize_input isspace (sanitize_input isspace input_str max_length) max_length'
  = sanitize_input isspace input_str max_length.
Proof.
  intros [Hmax Hle]. apply tidy_fixed; [apply sanitize_input_tidy|].
  destruct (sanitize_input_length isspace input_str max_length) as [_ Hlen].
  specialize (Hlen Hmax). lia.
Qed.

(** ["  <b>Asha</b> \t Rao "] under a limit of forty characters, with
    the space and the tab for whitespace. *)
Lemma sanitize_input_idempotent_witness :
  sanitize_input (λ c, (c =? 32)%N || (c =? 9)%N)
    (lit "  <b>Asha</b> " ++ [9%N] ++ lit " Rao ") 40
  = lit "bAsha/b Rao"
  ∧ sanitize_input (λ c, (c =? 32)%N || (c =? 9)%N)
      (sanitize_input (λ c, (c =? 32)%N || (c =? 9)%N)
         (lit "  <b>Asha</b> " ++ [9%N] ++ lit " Rao ") 40) 40
    = sanitize_input (λ c, (c =? 32)%N || (c =? 9)%N)
        (lit "  <b>Asha</b> " ++ [9%N] ++ lit " Rao ") 40.
Proof.
  split; [reflexivity|].
  apply (sanitize_input_idempotent (λ c, (c =? 32)%N || (c =? 9)%N)
           (lit "  <b>Asha</b> " ++ [9%N] ++ lit " Rao ") 40 40).
  lia.
Defined.

(** X18.  [validate_dynamodb_key] never returns [False]: it returns
    [True] or raises [ValueError].  Whatever [sanitize_input] returns,
    if it is not empty, is a valid key under any limit that is at least
    the one it was sanitized with. *)
Theorem sanitized_input_is_valid_key (isspace : N → bool) (input_str : str)
    (max_length key_length : Z) :
  (∀ key, validate_dynamodb_key key key_length = Ok true
          ∨ validate_dynamodb_key key key_length = Raise ValueError)
  ∧ ((0 ≤ max_length ≤ key_length)%Z →
     sanitize_input isspace input_str max_length ≠ [] →
     validate_dynamodb_key (sanitize_input isspace input_str max_length) key_length
     = Ok true).
Proof.
  split.
  - intros key. unfold validate_dynamodb_key.
    destruct (negb (nonempty key)); [by right|].
    destruct (_ <? _)%Z; [by right|]. cbv zeta.
    destruct (existsb _ _); [by right | by left].
  - intros [Hmax Hle] Hne. unfold validate_dynamodb_key.
    destruct (sanitize_input_length isspace input_str max_length) as [_ Hlen].
    specialize (Hlen Hmax).
    destruct (sanitize_input isspace input_str max_length) as [|x out] eqn:Hout; [done|].
    cbn [nonempty negb].
    destruct (Z.ltb_spec key_length (len (x :: out))) as [Hlt|_]; [lia|]. cbv zeta.
    destruct (existsb _ _) eqn:Hex; [|done].
    apply existsb_exists in Hex as (char & Hchar & Hin).
    apply bool_decide_eq_true in Hin. rewrite <- Hout in Hin.
    apply sanitize_input_elem in Hin as (_ & _ & Hctl).
    unfold is_control in Hctl. apply orb_false_iff in Hctl as [H31 _].
    apply N.leb_gt in H31. cbn [In] in Hchar.
    destruct Hchar as [<-|[<-|[<-|[<-|[<-|[<-|[<-|[<-|[]]]]]]]]]; lia.
Qed.

(** A patient id with a tab in it, sanitized and then used as a key. *)
Lemma sanitized_input_is_valid_key_witness :
  validate_dynamodb_key
    (sanitize_input (λ c, (c =? 32)%N || (c =? 9)%N) (lit "PAT" ++ [9%N] ++ lit "001")
       1000) 1000
  = Ok true.
Proof.
  apply (sanitized_input_is_valid_key (λ c, (c =? 32)%N || (c =? 9)%N)
           (lit "PAT" ++ [9%N] ++ lit "001") 1000 1000).
  - lia.
  - discriminate.
Defined.

End SanitizeSpec.

Module PhoneSpec.
Import Py Text Sanitize.
Local Close Scope string_scope.
Local Open Scope nat_scope.

(** X19.  [validate_whatsapp_number] accepts exactly the strings made of
    [+91], one of the digits [6] to [9] and nine decimal digits, alone
    or followed by one line feed.  The line feed is accepted because
    [$] also matches before a newline that ends the string; the nine
    digits are whatever [\d] takes for a decimal digit, not only [0]
    to [9]. *)
Theorem validate_whatsapp_number_accepts (isdecimal : N → bool) (phone : str) :
  (validate_whatsapp_number isdecimal phone = true
   ↔ ∃ c digits tail,
       phone = lit "+91" ++ c :: digits ++ tail
       ∧ (54 ≤ c ≤ 57)%N
       ∧ length digits = 9
       ∧ Forall (λ d, isdecimal d = true) digits
       ∧ (tail = [] ∨ tail = [10%N]))
  ∧ (validate_whatsapp_number isdecimal phone = true →
     length phone = 13 →
     validate_whatsapp_number isdecimal (phone ++ [10%N]) = true)
  ∧ (validate_whatsapp_number isdecimal phone = true →
     length phone = 13 ∨ length phone = 14).
Proof.
  assert (Hiff : ∀ phone,
            validate_whatsapp_number isdecimal phone = true
            ↔ ∃ c digits tail,
                phone = lit "+91" ++ c :: digits ++ tail
                ∧ (54 ≤ c ≤ 57)%N
                ∧ length digits = 9
                ∧ Forall (λ d, isdecimal d = true) digits
                ∧ (tail = [] ∨ tail = [10%N])).
  { clear phone. intros phone. split.
    - destruct phone as [|p [|n [|o [|c rest]]]]; try done.
      cbn [validate_whatsapp_number]. intros H.
      apply andb_true_iff in H as [H Htail]. apply andb_true_iff in H as [H Hdigits].
      apply andb_true_iff in H as [H Hc]. apply andb_true_iff in H as [H Ho].
      apply andb_true_iff in H as [Hp Hn].
      apply N.eqb_eq in Hp as ->, Hn as ->, Ho as ->.
      apply andb_true_iff in Hc as [Hc1 Hc2]. apply N.leb_le in Hc1, Hc2.
      apply andb_true_iff in Hdigits as [Hlen Hall].
      apply Nat.eqb_eq in Hlen.
      pose proof (proj1 (forallb_forall _ _) Hall) as Hdec.
      exists c, (take 9 rest), (drop 9 rest).
      split; [by rewrite take_drop|]. split; [done|]. split; [done|]. split.
      + apply Forall_forall. intros d Hd. apply Hdec. by apply list_elem_of_In.
      + destruct (drop 9 rest) as [|t [|t' tail]]; [by left | | done].
        apply N.eqb_eq in Htail as ->. by right.
    - intros (c & digits & tail & -> & [Hc1 Hc2] & Hlen & Hall & Htail).
      change (lit "+91" ++ c :: digits ++ tail)
        with (43%N :: 57%N :: 49%N :: c :: digits ++ tail).
      cbn [validate_whatsapp_number].
      replace (take 9 (digits ++ tail)) with digits
        by (rewrite <- Hlen; by rewrite take_app_length).
      replace (drop 9 (digits ++ tail)) with tail
        by (rewrite <- Hlen; by rewrite drop_app_length).
      rewrite Hlen.
      apply N.leb_le in Hc1, Hc2. rewrite Hc1, Hc2. cbn.
      replace (forallb isdecimal digits) with true.
      + by destruct Htail as [->| ->].
      + symmetry. apply forallb_forall. intros d Hd.
        apply list_elem_of_In in Hd. by apply (proj1 (Forall_forall _ _) Hall). }
  split; [apply Hiff|]. split.
  - intros Hvalid Hlen13. apply Hiff in Hvalid
      as (c & digits & tail & -> & Hc & Hlen & Hall & Htail).
    apply Hiff. exists c, digits, [10%N].
    destruct Htail as [->| ->].
    + rewrite app_nil_r. split; [by rewrite <- app_assoc|].
      split; [done|]. split; [done|]. split; [done|]. by right.
    + rewrite length_app in Hlen13. simpl in Hlen13.
      rewrite length_app in Hlen13. simpl in Hlen13. lia.
  - intros Hvalid. apply Hiff in Hvalid
      as (c & digits & tail & -> & Hc & Hlen & Hall & Htail).
    rewrite length_app. cbn [length]. rewrite length_app, Hlen.
    destruct Htail as [->| ->]; cbn; lia.
Qed.

End PhoneSpec.

Module Healthcare.
Import Py Text Sanitize.
Local Close Scope string_scope.

(** [re.sub(pattern, "", s)] for a pattern that matches no empty string.
    [matcher t] tells whether the pattern matches at the head of [t],
    and gives what follows the match.  The scan consumes a character
    at each step, so the length of [s] is fuel enough. *)
Fixpoint delete_matches (matcher : str → option str) (fuel : nat) (s : str) : str :=
  match fuel with
  | O => s
  | S fuel =>
      match s with
      | [] => []
      | c :: rest =>
          match matcher s with
          | Some rest' => delete_matches matcher fuel rest'
          | None => c :: delete_matches matcher fuel rest
          end
      end
  end.

Definition re_sub_delete (matcher : str → option str) (s : str) : str :=
  delete_matches matcher (length s) s.

(** What follows the first [c] in [s]. *)
Fixpoint after_first (c : N) (s : str) : option str :=
  match s with
  | [] => None
  | x :: rest => if (x =? c)%N then Some rest else after_first c rest
  end.

(** [<[^>]*>] at the head of [s]. *)
Definition match_tag (s : str) : option str :=
  match s with
  | c :: rest => if (c =? 60)%N then after_first 62 rest else None
  | [] => None
  end.

(** [[a-zA-Z]] and [[0-9]] *)
Definition is_ascii_letter (c : N) : bool :=
  ((65 <=? c)%N && (c <=? 90)%N) || ((97 <=? c)%N && (c <=? 122)%N).

Definition is_ascii_digit (c : N) : bool := (48 <=? c)%N && (c <=? 57)%N.

Section Unicode.
Variable isspace : N → bool.

(** [ignorecase_eq p c]: under [re.IGNORECASE], the letter [p] of the
    pattern matches the character [c]. *)
Variable ignorecase_eq : N → N → bool.

(** The letters of [literal], case ignored, at the head of [s]. *)
Fixpoint starts_with_ignorecase (literal s : str) : option str :=
  match literal, s with
  | [], _ => Some s
  | p :: literal', c :: s' =>
      if ignorecase_eq p c then starts_with_ignorecase literal' s' else None
  | _ :: _, [] => None
  end.

(** [</script>] at the head of [s], case ignored. *)
Definition match_close_script (s : str) : option str :=
  match s with
  | lt :: slash :: rest =>
      if (lt =? 60)%N && (slash =? 47)%N
      then match starts_with_ignorecase (lit "script") rest with
           | Some (gt :: rest') => if (gt =? 62)%N then Some rest' else None
           | _ => None
           end
      else None
  | _ => None
  end.

(** [.*?</script>]: the nearest closing tag, with no line feed before
    it. *)
Fixpoint lazy_until_close (s : str) : option str :=
  match match_close_script s with
  | Some rest => Some rest
  | None =>
      match s with
      | [] => None
      | c :: s' => if (c =? 10)%N then None else lazy_until_close s'
      end
  end.

(** [<script[^>]*>.*?</script>] with [re.IGNORECASE], at the head of
    [s]. *)
Definition match_script (s : str) : option str :=
  match s with
  | c :: rest =>
      if (c =? 60)%N
      then match starts_with_ignorecase (lit "script") rest with
           | Some rest1 =>
               match after_first 62 rest1 with
               | Some rest2 => lazy_until_close rest2
               | None => None
               end
           | None => None
           end
      else None
  | [] => None
  end.

(** [[a-zA-Z\s\-\']] *)
Definition name_char (c : N) : bool :=
  is_ascii_letter c || isspace c || (c =? 45)%N || (c =? 39)%N.

(** [[a-zA-Z0-9\s\-\.,\(\)\/mg]] *)
Definition prescription_char (c : N) : bool :=
  is_ascii_letter c || is_ascii_digit c || isspace c
  || (c =? 45)%N || (c =? 46)%N || (c =? 44)%N || (c =? 40)%N || (c =? 41)%N
  || (c =? 47)%N || (c =? 109)%N || (c =? 103)%N.

(** [sanitize_healthcare_data(data, field_type)] *)
Definition sanitize_healthcare_data (data : str) (field_type : string) : str :=
  if negb (nonempty data) then []
  else
    let sanitized := sanitize_input isspace data 1000 in
    let sanitized :=
      if String.eqb field_type "name"
      then slice_to (filter (λ c, name_char c = true) sanitized) 100
      else if String.eqb field_type "diagnosis"
      then slice_to (re_sub_delete match_tag sanitized) 500
      else if String.eqb field_type "prescription"
      then slice_to (filter (λ c, prescription_char c = true) sanitized) 1000
      else if String.eqb field_type "notes"
      then slice_to (re_sub_delete match_script sanitized) 2000
      else sanitized in
    strip isspace sanitized.

End Unicode.
End Healthcare.

Module HealthcareSpec.
Import Py Text Sanitize Healthcare SanitizeSpec.
Local Close Scope string_scope.
Local Open Scope nat_scope.

Lemma delete_matches_none (matcher : str → option str) (fuel : nat) (s : str) :
  (∀ t rest, matcher t = Some rest → head t = Some 60%N) →
  60%N ∉ s →
  delete_matches matcher fuel s = s.
Proof.
  intros Hhead. revert s. induction fuel as [|fuel IH]; intros s Hs; [done|].
  destruct s as [|c s]; [done|]. cbn [delete_matches].
  destruct (matcher (c :: s)) as [rest|] eqn:Hm.
  - apply Hhead in Hm. injection Hm as ->. destruct Hs. by left.
  - f_equal. apply IH. intros Hin. apply Hs. by right.
Qed.

Lemma match_tag_head (t rest : str) : match_tag t = Some rest → head t = Some 60%N.
Proof.
  destruct t as [|c t]; [done|]. cbn [match_tag head].
  destruct (N.eqb_spec c 60) as [->|]; done.
Qed.

Lemma match_script_head (ignorecase_eq : N → N → bool) (t rest : str) :
  match_script ignorecase_eq t = Some rest → head t = Some 60%N.
Proof.
  destruct t as [|c t]; [done|]. cbn [match_script head].
  destruct (N.eqb_spec c 60) as [->|]; done.
Qed.

Lemma slice_to_elem (s : str) (n : Z) (c : N) : c ∈ slice_to s n → c ∈ s.
Proof.
  unfold slice_to. destruct (0 <=? n)%Z; intros Hc;
    by apply elem_of_take in Hc as (i & Hi & _); apply list_elem_of_lookup_2 in Hi.
Qed.

Lemma strip_elem (isspace : N → bool) (s : str) (c : N) : c ∈ strip isspace s → c ∈ s.
Proof.
  intros Hc. destruct (strip_infix isspace s) as (k1 & k2 & Hk). rewrite Hk.
  apply elem_of_app. right. apply elem_of_app. by left.
Qed.

Lemma strip_length (isspace : N → bool) (s : str) : length (strip isspace s) ≤ length s.
Proof.
  destruct (strip_infix isspace s) as (k1 & k2 & Hk).
  apply (f_equal length) in Hk. rewrite !length_app in Hk. lia.
Qed.

Lemma sanitized_no_angle (isspace : N → bool) (data : str) (n : Z) :
  60%N ∉ sanitize_input isspace data n.
Proof.
  intros Hin. by apply sanitize_input_elem in Hin as (_ & Hang & _).
Qed.

Lemma sanitized_fixed (isspace : N → bool) (data : str) (n : Z) :
  (1000 ≤ n)%Z →
  strip isspace (slice_to (sanitize_input isspace data 1000) n)
  = sanitize_input isspace data 1000.
Proof.
  intros Hn.
  destruct (sanitize_input_length isspace data 1000) as [_ Hlen].
  rewrite slice_to_all by (specialize (Hlen ltac:(lia)); lia).
  destruct (sanitize_input_tidy isspace data 1000) as (_ & _ & _ & Hhead & Hlast).
  by apply strip_id.
Qed.

(** X20.  [sanitize_healthcare_data], field by field.  The two patterns
    meant to strip markup never match, because [sanitize_input] has
    already removed every angle bracket: for [diagnosis] the result is
    the sanitized input cut to 500 characters and stripped, and for
    [notes], as for any field type the function does not know, it is
    the sanitized input itself.  For [name] the result holds ASCII
    letters, spaces, hyphens and apostrophes only and at most 100
    characters.  For every field type it holds only spaces and
    characters of the input, and no angle bracket or control
    character. *)
Theorem sanitize_healthcare_data_fields (isspace : N → bool)
    (ignorecase_eq : N → N → bool) (data : str) (field_type : string) :
  let out := sanitize_healthcare_data isspace ignorecase_eq data field_type in
  let sanitized := sanitize_input isspace data 1000 in
  (field_type = "diagnosis"%string → out = strip isspace (slice_to sanitized 500))
  ∧ (field_type = "notes"%string → out = sanitized)
  ∧ (field_type ∉ ["name"; "diagnosis"; "prescription"; "notes"]%string →
     out = sanitized)
  ∧ (field_type = "name"%string →
     length out ≤ 100
     ∧ ∀ c, c ∈ out →
            is_ascii_letter c = true ∨ c = 32%N ∨ c = 45%N ∨ c = 39%N)
  ∧ (∀ c, c ∈ out →
          c ∈ sanitized
          ∧ is_angle c = false ∧ is_control c = false
          ∧ (c = 32%N ∨ (c ∈ data ∧ isspace c = false))).
Proof.
  intros out sanitized.
  assert (Hout : out
            = strip isspace
                (if String.eqb field_type "name"
                 then slice_to (filter (λ c, name_char isspace c = true) sanitized) 100
                 else if String.eqb field_type "diagnosis"
                 then slice_to sanitized 500
                 else if String.eqb field_type "prescription"
                 then slice_to (filter (λ c, prescription_char isspace c = true) sanitized)
                        1000
                 else if String.eqb field_type "notes"
                 then slice_to sanitized 2000
                 else sanitized)).
  { unfold out, sanitize_healthcare_data. cbv zeta. fold sanitized.
    unfold re_sub_delete.
    rewrite (delete_matches_none match_tag) by
      (apply match_tag_head || apply sanitized_no_angle).
    rewrite (delete_matches_none (match_script ignorecase_eq)) by
      (apply match_script_head || apply sanitized_no_angle).
    destruct (nonempty data) eqn:Hdata; cbn [negb]; [done|].
    destruct data; [|done].
    by repeat (destruct (String.eqb _ _)). }
  assert (Hsub : ∀ c, c ∈ out → c ∈ sanitized).
  { intros c Hc. rewrite Hout in Hc. apply strip_elem in Hc.
    destruct (String.eqb field_type "name").
    { apply slice_to_elem in Hc. by apply list_elem_of_filter in Hc as [_ Hc]. }
    destruct (String.eqb field_type "diagnosis"); [by apply slice_to_elem in Hc|].
    destruct (String.eqb field_type "prescription").
    { apply slice_to_elem in Hc. by apply list_elem_of_filter in Hc as [_ Hc]. }
    destruct (String.eqb field_type "notes"); [by apply slice_to_elem in Hc | done]. }
  split; [|split; [|split; [|split]]].
  - intros ->. by rewrite Hout.
  - intros ->. rewrite Hout. cbn [String.eqb Ascii.eqb Bool.eqb].
    by apply sanitized_fixed.
  - intros Hother. rewrite Hout.
    destruct (String.eqb_spec field_type "name") as [->|_];
      [destruct Hother; set_solver|].
    destruct (String.eqb_spec field_type "diagnosis") as [->|_];
      [destruct Hother; set_solver|].
    destruct (String.eqb_spec field_type "prescription") as [->|_];
      [destruct Hother; set_solver|].
    destruct (String.eqb_spec field_type "notes") as [->|_];
      [destruct Hother; set_solver|].
    destruct (sanitize_input_tidy isspace data 1000) as (_ & _ & _ & Hhead & Hlast).
    by apply strip_id.
  - intros ->. rewrite Hout. cbn [String.eqb Ascii.eqb Bool.eqb]. split.
    + pose proof (strip_length isspace
                    (slice_to (filter (λ c, name_char isspace c = true) sanitized) 100)).
      destruct (slice_to_length (filter (λ c, name_char isspace c = true) sanitized) 100)
        as [_ Hlen].
      specialize (Hlen ltac:(lia)). unfold len in Hlen. lia.
    + intros c Hc. apply strip_elem, slice_to_elem in Hc.
      apply list_elem_of_filter in Hc as [Hname Hc].
      unfold name_char in Hname.
      apply orb_true_iff in Hname as [Hname|H39]; [|apply N.eqb_eq in H39; auto].
      apply orb_true_iff in Hname as [Hname|H45]; [|apply N.eqb_eq in H45; auto].
      apply orb_true_iff in Hname as [Hletter|Hspace]; [by left|].
      right. left.
      by destruct (sanitize_input_tidy isspace data 1000) as (_ & Hsp & _);
        apply Hsp.
  - intros c Hc. apply Hsub in Hc. split; [done|].
    apply sanitize_input_elem in Hc as (Horigin & Hang & Hctl). done.
Qed.

End HealthcareSpec.

(** * [class PasswordSecurity] *)
Module Password.
Import Py Text.
Local Close Scope string_scope.

(** The password settings of [AuthenticationConfig]. *)
Record PasswordConfig : Type := {
  password_min_length : Z;
  password_require_special_chars : bool;
  password_require_numbers : bool;
  password_require_uppercase : bool
}.

Definition uppercase : str := lit "ABCDEFGHIJKLMNOPQRSTUVWXYZ".
Definition lowercase : str := lit "abcdefghijklmnopqrstuvwxyz".
Definition numbers : str := lit "0123456789".
(** The twenty special characters of the source, by code point: the
    exclamation mark, the at sign, the hash, the dollar, the percent
    sign, the caret, the ampersand, the asterisk, the two parentheses,
    the comma, the full stop, the question mark, the double quote, the
    colon, the two braces, the bar and the two angle brackets. *)
Definition special : str :=
  [33; 64; 35; 36; 37; 94; 38; 42; 40; 41; 44; 46; 63; 34; 58; 123; 125; 124; 60; 62]%N.

(** [[A-Z]] *)
Definition is_upper (c : N) : bool := (65 <=? c)%N && (c <=? 90)%N.

(** The character class of the special characters. *)
Definition is_special (c : N) : bool := bool_decide (c ∈ special).

Definition weak_passwords : list str :=
  lit <$> ["password"; "123456"; "password123"; "admin"; "qwerty"; "letmein";
           "welcome"; "monkey"; "dragon"; "master"]%string.

Section Libraries.
Variable auth_config : PasswordConfig.

(** [isdecimal]: what [\d] matches; [lower]: [str.lower]; [pwd_hash]:
    [pwd_context.hash] with the salt it draws. *)
Variable isdecimal : N → bool.
Variable lower : str → str.
Variable pwd_hash : str → string.

(** [validate_password_strength(password)] *)
Definition validate_password_strength (password : str) : result unit :=
  if (len password <? password_min_length auth_config)%Z then Raise ValueError
  else if password_require_uppercase auth_config && negb (existsb is_upper password)
  then Raise ValueError
  else if password_require_numbers auth_config && negb (existsb isdecimal password)
  then Raise ValueError
  else if password_require_special_chars auth_config
          && negb (existsb is_special password)
  then Raise ValueError
  else if bool_decide (lower password ∈ weak_passwords) then Raise ValueError
  else Ok tt.

(** [hash_password(password)] *)
Definition hash_password (password : str) : result string :=
  _ ← validate_password_strength password;
  let hashed := pwd_hash password in
  Ok hashed.

(** [generate_secure_password(length)]: [choice i seq] is the [i]-th
    draw of [secrets.choice], [shuffle] what
    [secrets.SystemRandom().shuffle] makes of the list. *)
Definition generate_secure_password (length : Z) (choice : nat → str → N)
    (shuffle : str → str) : str :=
  let length := if (length <? 8)%Z then 8%Z else length in
  let password :=
    [choice 0%nat uppercase; choice 1%nat lowercase; choice 2%nat numbers;
     choice 3%nat special] in
  let all_chars := uppercase ++ lowercase ++ numbers ++ special in
  let password :=
    password ++ ((λ i, choice (4 + i)%nat all_chars) <$> seq 0 (Z.to_nat (length - 4))) in
  shuffle password.

End Libraries.
End Password.

Module PasswordSpec.
Import Py Text Password.
Local Close Scope string_scope.
Local Open Scope nat_scope.

Lemma existsb_elem (p : N → bool) (s : str) (c : N) :
  c ∈ s → p c = true → existsb p s = true.
Proof.
  intros Hc Hp. apply existsb_exists. exists c. split; [by apply list_elem_of_In | done].
Qed.

Lemma uppercase_is_upper (c : N) : c ∈ uppercase → is_upper c = true.
Proof.
  intros Hc. apply (proj1 (Forall_forall (λ c, is_upper c = true) uppercase)); [|done].
  by repeat constructor.
Qed.

Lemma special_is_special (c : N) : c ∈ special → is_special c = true.
Proof. intros Hc. by apply bool_decide_eq_true. Qed.

Lemma weak_passwords_plain (w : str) (c : N) :
  w ∈ weak_passwords → c ∈ w → is_special c = false.
Proof.
  intros Hw Hc.
  assert (Hall : Forall (Forall (λ c, is_special c = false)) weak_passwords)
    by (by repeat constructor).
  apply (proj1 (Forall_forall _ _) (proj1 (Forall_forall _ _) Hall w Hw)); done.
Qed.

(** X21.  A password made by [generate_secure_password] always passes
    [validate_password_strength], whatever is drawn and however the
    characters are shuffled, when the configured minimum length is at
    most eight: it has the length asked for (eight when fewer are
    asked), holds an uppercase letter, a digit and a special character,
    and is none of the listed weak passwords, which hold no special
    character.  So [hash_password] does not refuse it. *)
Theorem generated_password_is_strong (auth_config : PasswordConfig)
    (isdecimal : N → bool) (lower : str → str) (pwd_hash : str → string)
    (length_asked : Z) (choice : nat → str → N) (shuffle : str → str) :
  (∀ i seq, seq ≠ [] → choice i seq ∈ seq) →
  (∀ l, shuffle l ≡ₚ l) →
  (∀ c, (48 ≤ c ≤ 57)%N → isdecimal c = true) →
  (∀ s c, c ∈ s → is_special c = true → c ∈ lower s) →
  (password_min_length auth_config ≤ 8)%Z →
  let password := generate_secure_password length_asked choice shuffle in
  len password = Z.max length_asked 8
  ∧ validate_password_strength auth_config isdecimal lower password = Ok tt
  ∧ hash_password auth_config isdecimal lower pwd_hash password = Ok (pwd_hash password).
Proof.
  intros Hchoice Hshuffle Hdigit Hlower Hmin password.
  set (drawn := [choice 0 uppercase; choice 1 lowercase; choice 2 numbers;
                 choice 3 special]
                ++ ((λ i, choice (4 + i) (uppercase ++ lowercase ++ numbers ++ special))
                    <$> seq 0 (Z.to_nat ((if (length_asked <? 8)%Z then 8%Z
                                          else length_asked) - 4)))).
  assert (Hperm : password ≡ₚ drawn) by apply Hshuffle.
  assert (Hlen : len password = Z.max length_asked 8).
  { unfold len. rewrite Hperm. unfold drawn.
    rewrite length_app, length_fmap, length_seq. cbn [length].
    destruct (Z.ltb_spec length_asked 8); lia. }
  assert (Hin : ∀ c, c ∈ drawn → c ∈ password) by (intros c Hc; by rewrite Hperm).
  assert (Hu : existsb is_upper password = true).
  { apply (existsb_elem _ _ (choice 0 uppercase)).
    - apply Hin. unfold drawn. set_solver.
    - by apply uppercase_is_upper, Hchoice. }
  assert (Hd : existsb isdecimal password = true).
  { apply (existsb_elem _ _ (choice 2 numbers)).
    - apply Hin. unfold drawn. set_solver.
    - apply Hdigit.
      apply (proj1 (Forall_forall (λ c, (48 ≤ c ≤ 57)%N) numbers));
        [by repeat constructor | by apply Hchoice]. }
  assert (Hs : choice 3 special ∈ password).
  { apply Hin. unfold drawn. set_solver. }
  assert (Hsp : is_special (choice 3 special) = true)
    by (by apply special_is_special, Hchoice).
  assert (Hvalid : validate_password_strength auth_config isdecimal lower password
                   = Ok tt).
  { unfold validate_password_strength.
    destruct (Z.ltb_spec (len password) (password_min_length auth_config)); [lia|].
    rewrite Hu, Hd, (existsb_elem _ _ _ Hs Hsp). cbn [negb]. rewrite !andb_false_r.
    rewrite bool_decide_eq_false_2; [done|].
    intros Hweak.
    pose proof (weak_passwords_plain _ _ Hweak (Hlower _ _ Hs Hsp)) as Hplain.
    congruence. }
  split; [done|]. split; [done|].
  unfold hash_password. by rewrite Hvalid.
Qed.

(** Twelve characters, each draw taking the first of its alphabet, left
    in the order drawn. *)
Lemma generated_password_is_strong_witness :
  generate_secure_password 12 (λ _ seq, default 0%N (head seq)) id
  = lit "Aa0!AAAAAAAA"
  ∧ validate_password_strength
      {| password_min_length := 8;
         password_require_special_chars := true;
         password_require_numbers := true;
         password_require_uppercase := true |}
      (λ c, (48 <=? c)%N && (c <=? 57)%N) id
      (generate_secure_password 12 (λ _ seq, default 0%N (head seq)) id)
    = Ok tt.
Proof.
  split; [reflexivity|].
  apply (generated_password_is_strong
           {| password_min_length := 8;
              password_require_special_chars := true;
              password_require_numbers := true;
              password_require_uppercase := true |}
           (λ c, (48 <=? c)%N && (c <=? 57)%N) id (λ _, "$2b$"%string)
           12 (λ _ seq, default 0%N (head seq)) id).
  - intros _ [|c seq] Hseq; [done | by left].
  - done.
  - intros c [Hlo Hhi]. apply andb_true_iff. split; by apply N.leb_le.
  - done.
  - cbn. lia.
Defined.

End PasswordSpec.

Module AccessListSpec.
Import Py Permissions Access.

(** X22.  [get_accessible_doctor_ids] against [can_access_doctor_data].
    For a user who is not an admin the list names exactly the doctor
    ids the predicate grants, empty ids apart: a non-empty id is in the
    list if and only if the user may access that doctor's data.  For an
    admin the list is the placeholder ["*"] alone, although the
    predicate grants every id.  The list never holds more than one
    entry. *)
Theorem accessible_doctor_ids_match_predicate (user : JWTPayload) :
  (is_admin user = false →
   ∀ d, d ≠ "" →
     VStr d ∈ get_accessible_doctor_ids user ↔ can_access_doctor_data user d = true)
  ∧ (is_admin user = true →
     get_accessible_doctor_ids user = [VStr "*"]
     ∧ ∀ d, can_access_doctor_data user d = true)
  ∧ (List.length (get_accessible_doctor_ids user) ≤ 1)%nat.
Proof.
  unfold get_accessible_doctor_ids, can_access_doctor_data.
  split; [|split].
  - intros Hadm d Hd.
    assert (Hdoc : is_doctor user = true).
    { unfold is_doctor. apply bool_decide_eq_true.
      destruct (role user) eqn:Hrole; [|done].
      unfold is_admin in Hadm. apply bool_decide_eq_false in Hadm. by destruct Hadm. }
    rewrite Hadm, Hdoc.
    destruct (doctor_id user) as [|b|n|s|l] eqn:Hid; cbn [truthy eq_str].
    + split; [intros Hin; by apply elem_of_nil in Hin | done].
    + split; [|done]. destruct b; intros Hin;
        [apply list_elem_of_singleton in Hin; done | by apply elem_of_nil in Hin].
    + split; [|done]. destruct (negb (n =? 0)%Z); intros Hin;
        [apply list_elem_of_singleton in Hin; done | by apply elem_of_nil in Hin].
    + destruct (String.eqb_spec s "") as [->|Hs]; cbn [negb].
      * split; [intros Hin; by apply elem_of_nil in Hin|].
        intros Heq. apply String.eqb_eq in Heq. congruence.
      * rewrite list_elem_of_singleton. split.
        -- intros [= ->]. apply String.eqb_refl.
        -- intros Heq. apply String.eqb_eq in Heq. by subst.
    + split; [|done]. destruct l; intros Hin;
        [by apply elem_of_nil in Hin | apply list_elem_of_singleton in Hin; done].
  - intros ->. done.
  - destruct (is_admin user); [cbn; lia|].
    destruct (is_doctor user); [|cbn; lia].
    destruct (truthy (doctor_id user)); cbn; lia.
Qed.

End AccessListSpec.

Module CipherSpec.
Import Py Security.



End CipherSpec.

(** * Error responses ([exceptions.py]) *)
Module Errors.
Import Py Permissions.

Inductive ErrorCode : Type :=
| INVALID_CREDENTIALS
| TOKEN_EXPIRED
| INVALID_TOKEN
| INSUFFICIENT_PERMISSIONS
| OTP_EXPIRED
| OTP_INVALID
| OTP_MAX_ATTEMPTS
| OTP_RATE_LIMIT_EXCEEDED
| ACCOUNT_LOCKED
| PASSWORD_RESET_REQUIRED
| RESOURCE_NOT_FOUND
| RESOURCE_ALREADY_EXISTS
| RESOURCE_IN_USE
| RESOURCE_DELETED
| RESOURCE_EXPIRED
| QUEUE_NOT_ACTIVE
| QUEUE_ALREADY_STARTED
| QUEUE_ALREADY_CLOSED
| TOKEN_ALREADY_COMPLETED
| TOKEN_ALREADY_CANCELLED
| DOCTOR_LIMIT_EXCEEDED
| PATIENT_NOT_ASSOCIATED
| PATIENT_ALREADY_ASSOCIATED
| INVALID_QUEUE_STATUS
| INVALID_TOKEN_STATUS
| CONSULTATION_IN_PROGRESS
| APPOINTMENT_TIME_CONFLICT
| SUBSCRIPTION_EXPIRED
| SUBSCRIPTION_SUSPENDED
| PAYMENT_FAILED
| PAYMENT_REQUIRED
| BILLING_CYCLE_ERROR
| PLAN_DOWNGRADE_RESTRICTED
| INVALID_INPUT
| MISSING_REQUIRED_FIELD
| INVALID_FORMAT
| INVALID_PHONE_NUMBER
| INVALID_DATE_RANGE
| INVALID_TIME_SLOT
| DUPLICATE_ENTRY
| DATA_INTEGRITY_ERROR
| WHATSAPP_SERVICE_ERROR
| WHATSAPP_RATE_LIMIT
| PAYMENT_SERVICE_ERROR
| DATABASE_ERROR
| EXTERNAL_API_ERROR
| SMS_SERVICE_ERROR
| CONFIGURATION_ERROR
| INTERNAL_SERVER_ERROR
| SERVICE_UNAVAILABLE
| RATE_LIMIT_EXCEEDED
| MAINTENANCE_MODE
| SECURITY_ERROR
| ENCRYPTION_ERROR
| DECRYPTION_ERROR.

Definition ErrorCode_value (c : ErrorCode) : string :=
  match c with
  | INVALID_CREDENTIALS => "INVALID_CREDENTIALS"
  | TOKEN_EXPIRED => "TOKEN_EXPIRED"
  | INVALID_TOKEN => "INVALID_TOKEN"
  | INSUFFICIENT_PERMISSIONS => "INSUFFICIENT_PERMISSIONS"
  | OTP_EXPIRED => "OTP_EXPIRED"
  | OTP_INVALID => "OTP_INVALID"
  | OTP_MAX_ATTEMPTS => "OTP_MAX_ATTEMPTS"
  | OTP_RATE_LIMIT_EXCEEDED => "OTP_RATE_LIMIT_EXCEEDED"
  | ACCOUNT_LOCKED => "ACCOUNT_LOCKED"
  | PASSWORD_RESET_REQUIRED => "PASSWORD_RESET_REQUIRED"
  | RESOURCE_NOT_FOUND => "RESOURCE_NOT_FOUND"
  | RESOURCE_ALREADY_EXISTS => "RESOURCE_ALREADY_EXISTS"
  | RESOURCE_IN_USE => "RESOURCE_IN_USE"
  | RESOURCE_DELETED => "RESOURCE_DELETED"
  | RESOURCE_EXPIRED => "RESOURCE_EXPIRED"
  | QUEUE_NOT_ACTIVE => "QUEUE_NOT_ACTIVE"
  | QUEUE_ALREADY_STARTED => "QUEUE_ALREADY_STARTED"
  | QUEUE_ALREADY_CLOSED => "QUEUE_ALREADY_CLOSED"
  | TOKEN_ALREADY_COMPLETED => "TOKEN_ALREADY_COMPLETED"
  | TOKEN_ALREADY_CANCELLED => "TOKEN_ALREADY_CANCELLED"
  | DOCTOR_LIMIT_EXCEEDED => "DOCTOR_LIMIT_EXCEEDED"
  | PATIENT_NOT_ASSOCIATED => "PATIENT_NOT_ASSOCIATED"
  | PATIENT_ALREADY_ASSOCIATED => "PATIENT_ALREADY_ASSOCIATED"
  | INVALID_QUEUE_STATUS => "INVALID_QUEUE_STATUS"
  | INVALID_TOKEN_STATUS => "INVALID_TOKEN_STATUS"
  | CONSULTATION_IN_PROGRESS => "CONSULTATION_IN_PROGRESS"
  | APPOINTMENT_TIME_CONFLICT => "APPOINTMENT_TIME_CONFLICT"
  | SUBSCRIPTION_EXPIRED => "SUBSCRIPTION_EXPIRED"
  | SUBSCRIPTION_SUSPENDED => "SUBSCRIPTION_SUSPENDED"
  | PAYMENT_FAILED => "PAYMENT_FAILED"
  | PAYMENT_REQUIRED => "PAYMENT_REQUIRED"
  | BILLING_CYCLE_ERROR => "BILLING_CYCLE_ERROR"
  | PLAN_DOWNGRADE_RESTRICTED => "PLAN_DOWNGRADE_RESTRICTED"
  | INVALID_INPUT => "INVALID_INPUT"
  | MISSING_REQUIRED_FIELD => "MISSING_REQUIRED_FIELD"
  | INVALID_FORMAT => "INVALID_FORMAT"
  | INVALID_PHONE_NUMBER => "INVALID_PHONE_NUMBER"
  | INVALID_DATE_RANGE => "INVALID_DATE_RANGE"
  | INVALID_TIME_SLOT => "INVALID_TIME_SLOT"
  | DUPLICATE_ENTRY => "DUPLICATE_ENTRY"
  | DATA_INTEGRITY_ERROR => "DATA_INTEGRITY_ERROR"
  | WHATSAPP_SERVICE_ERROR => "WHATSAPP_SERVICE_ERROR"
  | WHATSAPP_RATE_LIMIT => "WHATSAPP_RATE_LIMIT"
  | PAYMENT_SERVICE_ERROR => "PAYMENT_SERVICE_ERROR"
  | DATABASE_ERROR => "DATABASE_ERROR"
  | EXTERNAL_API_ERROR => "EXTERNAL_API_ERROR"
  | SMS_SERVICE_ERROR => "SMS_SERVICE_ERROR"
  | CONFIGURATION_ERROR => "CONFIGURATION_ERROR"
  | INTERNAL_SERVER_ERROR => "INTERNAL_SERVER_ERROR"
  | SERVICE_UNAVAILABLE => "SERVICE_UNAVAILABLE"
  | RATE_LIMIT_EXCEEDED => "RATE_LIMIT_EXCEEDED"
  | MAINTENANCE_MODE => "MAINTENANCE_MODE"
  | SECURITY_ERROR => "SECURITY_ERROR"
  | ENCRYPTION_ERROR => "ENCRYPTION_ERROR"
  | DECRYPTION_ERROR => "DECRYPTION_ERROR"
  end.

(** What the [error_code] attribute of an exception holds.  The
    constructors annotate it as [ErrorCode]; the call sites pass a
    member of the enumeration or a bare [str], and nothing converts
    the one into the other. *)
Inductive code_attr : Type :=
| Member (c : ErrorCode)
| Bare (s : string).

Record PulseOpsException : Type := {
  error_code : code_attr;
  message : string;
  exc_details : details;
  http_status : Z
}.

(** [details or {}] *)
Definition or_empty_dict (d : details) : details :=
  match d with
  | NoDetails => DetailsDict []
  | DetailsStr s => if String.eqb s "" then DetailsDict [] else DetailsStr s
  | DetailsDict kv => DetailsDict kv
  end.

(** [PulseOpsException.__init__] *)
Definition PulseOpsException_init (error_code : code_attr) (message : string)
    (details : details) (http_status : Z) : PulseOpsException :=
  {| error_code := error_code;
     message := message;
     exc_details := or_empty_dict details;
     http_status := http_status |}.

(** [AuthenticationError.__init__] and [AuthorizationError.__init__] *)
Definition AuthenticationError_init (error_code : code_attr) (message : string)
    (details : details) : PulseOpsException :=
  PulseOpsException_init error_code message details 401.

Definition AuthorizationError_init (error_code : code_attr) (message : string)
    (details : details) : PulseOpsException :=
  PulseOpsException_init error_code message details 403.

(** [d[k] = v] and [d.update(other)] on a dict kept in insertion order. *)
Fixpoint set_item (d : list (string * value)) (k : string) (v : value)
  : list (string * value) :=
  match d with
  | [] => [(k, v)]
  | (k', v') :: rest =>
      if String.eqb k' k then (k, v) :: rest else (k', v') :: set_item rest k v
  end.

Definition dict_update (d other : list (string * value)) : list (string * value) :=
  foldl (λ acc kv, set_item acc kv.1 kv.2) d other.

(** [InsufficientPermissionsError.__init__]; a [details] that is a
    non-empty string has no [update]. *)
Definition InsufficientPermissionsError_init (required_permission user_role : string)
    (details : details) : result PulseOpsException :=
  match or_empty_dict details with
  | DetailsDict kv =>
      let details :=
        dict_update kv [("required_permission", VStr required_permission);
                        ("user_role", VStr user_role)] in
      Ok (AuthorizationError_init (Member INSUFFICIENT_PERMISSIONS)
            ("Insufficient permissions. Required: " ++ required_permission)
            (DetailsDict details))
  | _ => Raise AttributeError
  end.

(** [TokenExpiredError.__init__] and [InvalidTokenError.__init__] *)
Definition TokenExpiredError_init (details : details) : PulseOpsException :=
  AuthenticationError_init (Member TOKEN_EXPIRED)
    "Access token has expired. Please login again" details.

Definition InvalidTokenError_init (details : details) : PulseOpsException :=
  AuthenticationError_init (Member INVALID_TOKEN)
    "Invalid or malformed access token" details.

(** The dict that [to_dict] returns. *)
Record ErrorResponse : Type := {
  success : bool;
  error_code_value : string;
  error_message : string;
  error_details : details
}.

(** [PulseOpsException.to_dict(self)]: [self.error_code.value] exists for
    a member of the enumeration and not for a [str]. *)
Definition to_dict (self : PulseOpsException) : result ErrorResponse :=
  match error_code self with
  | Member c =>
      Ok {| success := false;
            error_code_value := ErrorCode_value c;
            error_message := message self;
            error_details := exc_details self |}
  | Bare _ => Raise AttributeError
  end.

Record HTTPException : Type := {
  status_code : Z;
  detail : ErrorResponse
}.

(** [create_http_exception(exception)] *)
Definition create_http_exception (exception : PulseOpsException)
  : result HTTPException :=
  detail ← to_dict exception;
  Ok {| status_code := http_status exception; detail := detail |}.

(** The exception that [validate_data_isolation] raises, if it raises
    one ([permissions.py]). *)
Definition isolation_error (jwt_payload : JWTPayload) (resource_clinic_id : string)
    (resource_doctor_id resource_patient_id : option string)
  : option PulseOpsException :=
  if negb (can_access_clinic_data jwt_payload resource_clinic_id)
  then Some (AuthorizationError_init (Bare "CLINIC_ACCESS_DENIED")
               "Access denied: Resource belongs to different clinic"
               (DetailsDict [("user_clinic_id", clinic_id jwt_payload);
                             ("resource_clinic_id", VStr resource_clinic_id)]))
  else if is_doctor jwt_payload && truthy_opt resource_doctor_id
          && negb (can_access_doctor_data jwt_payload (default "" resource_doctor_id))
  then Some (AuthorizationError_init (Bare "DOCTOR_ACCESS_DENIED")
               "Access denied: Resource belongs to different doctor"
               (DetailsDict [("user_doctor_id", doctor_id jwt_payload);
                             ("resource_doctor_id", of_opt resource_doctor_id)]))
  else if truthy_opt resource_patient_id && truthy_opt resource_doctor_id
          && negb (can_access_patient_data jwt_payload
                     (default "" resource_doctor_id) (default "" resource_patient_id))
  then Some (AuthorizationError_init (Bare "PATIENT_ACCESS_DENIED")
               "Access denied: Patient data not accessible"
               (DetailsDict [("user_role", VStr (UserRole_value (role jwt_payload)));
                             ("user_doctor_id", doctor_id jwt_payload);
                             ("resource_doctor_id", of_opt resource_doctor_id);
                             ("resource_patient_id", of_opt resource_patient_id)]))
  else None.

(** The exception that [validate_permission_access] raises, if it
    raises one. *)
Definition permission_error (user_permissions : gset Permission)
    (required_permission : Permission) (user_role : UserRole)
  : option (result PulseOpsException) :=
  if negb (bool_decide (required_permission ∈ user_permissions))
  then Some (InsufficientPermissionsError_init
               (Permission_value required_permission) (UserRole_value user_role)
               (DetailsDict
                  [("user_permissions",
                    VList ((λ p, VStr (Permission_value p)) <$> elements user_permissions));
                   ("required_permission",
                    VStr (Permission_value required_permission))]))
  else None.

(** The [error_code] with which the three decorators of
    [permissions.py] report a call without [current_user]. *)
Definition missing_user_context : PulseOpsException :=
  AuthenticationError_init (Bare "MISSING_USER_CONTEXT") "User context not found"
    NoDetails.

End Errors.

Module ErrorsSpec.
Import Py Permissions Errors.

Lemma to_dict_member (e : PulseOpsException) :
  is_ok (to_dict e) = true ↔ ∃ c, error_code e = Member c.
Proof.
  unfold to_dict. destruct (error_code e) as [c|s]; cbn [is_ok].
  - split; [by exists c | done].
  - split; [done | by intros [c Hc]].
Qed.

(** X24.  A failure of [validate_data_isolation] cannot be turned into an
    error response.  The function raises exactly when [isolation_error]
    gives an exception, an [AuthorizationError] of status 403 whose
    error code is one of the bare strings [CLINIC_ACCESS_DENIED],
    [DOCTOR_ACCESS_DENIED] and [PATIENT_ACCESS_DENIED]; since a string
    has no [value], [to_dict] and [create_http_exception] raise
    [AttributeError] on every one of them.  The same holds of the
    [MISSING_USER_CONTEXT] error of the decorators. *)
Theorem isolation_errors_have_no_response (jwt_payload : JWTPayload)
    (resource_clinic_id : string) (resource_doctor_id resource_patient_id : option string) :
  (validate_data_isolation jwt_payload resource_clinic_id resource_doctor_id
     resource_patient_id = Ok tt
   ↔ isolation_error jwt_payload resource_clinic_id resource_doctor_id
       resource_patient_id = None)
  ∧ (∀ e,
       isolation_error jwt_payload resource_clinic_id resource_doctor_id
         resource_patient_id = Some e →
       ∃ code,
         error_code e = Bare code
         ∧ validate_data_isolation jwt_payload resource_clinic_id resource_doctor_id
             resource_patient_id = Raise (AuthorizationError code)
         ∧ http_status e = 403%Z
         ∧ to_dict e = Raise AttributeError
         ∧ create_http_exception e = Raise AttributeError)
  ∧ create_http_exception missing_user_context = Raise AttributeError.
Proof.
  unfold isolation_error, validate_data_isolation.
  destruct (negb (can_access_clinic_data jwt_payload resource_clinic_id));
    cbn [mbind result_bind].
  { split; [done|]. split; [|done]. intros e [= <-]. by exists "CLINIC_ACCESS_DENIED". }
  destruct (is_doctor jwt_payload && truthy_opt resource_doctor_id) eqn:Hdoc;
    cbn [andb].
  - destruct (negb (can_access_doctor_data jwt_payload (default "" resource_doctor_id)))
      eqn:Hdeny; cbn [mbind result_bind].
    { split; [done|]. split; [|done]. intros e [= <-]. by exists "DOCTOR_ACCESS_DENIED". }
    destruct (truthy_opt resource_patient_id && truthy_opt resource_doctor_id); cbn [andb].
    + destruct (negb (can_access_patient_data jwt_payload _ _)).
      * split; [done|]. split; [|done]. intros e [= <-].
        by exists "PATIENT_ACCESS_DENIED".
      * split; [done|]. split; [by intros e|done].
    + split; [done|]. split; [by intros e|done].
  - destruct (truthy_opt resource_patient_id && truthy_opt resource_doctor_id); cbn [andb].
    + destruct (negb (can_access_patient_data jwt_payload _ _)).
      * split; [done|]. split; [|done]. intros e [= <-].
        by exists "PATIENT_ACCESS_DENIED".
      * split; [done|]. split; [by intros e|done].
    + split; [done|]. split; [by intros e|done].
Qed.

(** Doctor D1 asking for a record of doctor D2 in the same clinic. *)
Lemma isolation_errors_have_no_response_witness :
  ∃ e,
    isolation_error (Fixture.identity DOCTOR "C1" (Some "D1")) "C1" (Some "D2") None
    = Some e
    ∧ create_http_exception e = Raise AttributeError.
Proof.
  destruct (isolation_errors_have_no_response
              (Fixture.identity DOCTOR "C1" (Some "D1")) "C1" (Some "D2") None)
    as (_ & Hraise & _).
  eexists. split; [reflexivity|].
  destruct (Hraise _ eq_refl) as (code & _ & _ & _ & _ & Hhttp). exact Hhttp.
Defined.

(** X25.  Which exceptions have an error response.  [to_dict] returns a
    dict exactly for an exception whose error code is a member of
    [ErrorCode], and [create_http_exception] then carries the
    exception's status and that member's value.  So a failure of
    [validate_permission_access] is answered with status 403 and the
    code [INSUFFICIENT_PERMISSIONS], whose details name the required
    permission and the role; an expired and an invalid token are
    answered with status 401. *)
Theorem error_responses (e : PulseOpsException) :
  (is_ok (to_dict e) = true ↔ ∃ c, error_code e = Member c)
  ∧ (∀ c, error_code e = Member c →
       create_http_exception e
       = Ok {| status_code := http_status e;
               detail := {| success := false;
                            error_code_value := ErrorCode_value c;
                            error_message := message e;
                            error_details := exc_details e |} |})
  ∧ (∀ user_permissions required_permission user_role,
       validate_permission_access user_permissions required_permission user_role
       ≠ Ok tt →
       ∃ raised kv,
         permission_error user_permissions required_permission user_role
         = Some (Ok raised)
         ∧ create_http_exception raised
           = Ok {| status_code := 403;
                   detail := {| success := false;
                                error_code_value := "INSUFFICIENT_PERMISSIONS";
                                error_message :=
                                  "Insufficient permissions. Required: "
                                  ++ Permission_value required_permission;
                                error_details := DetailsDict kv |} |}
         ∧ ("required_permission", VStr (Permission_value required_permission)) ∈ kv
         ∧ ("user_role", VStr (UserRole_value user_role)) ∈ kv)
  ∧ (∀ d,
       (∃ body, create_http_exception (TokenExpiredError_init d)
                = Ok {| status_code := 401; detail := body |}
                ∧ error_code_value body = "TOKEN_EXPIRED")
       ∧ (∃ body, create_http_exception (InvalidTokenError_init d)
                  = Ok {| status_code := 401; detail := body |}
                  ∧ error_code_value body = "INVALID_TOKEN")).
Proof.
  split; [apply to_dict_member|]. split; [|split].
  - intros c Hc. unfold create_http_exception, to_dict. by rewrite Hc.
  - intros user_permissions required_permission user_role Hfail.
    unfold validate_permission_access in Hfail. unfold permission_error.
    destruct (bool_decide (required_permission ∈ user_permissions)); [done|].
    cbn [negb]. eexists _, _. split; [reflexivity|]. split; [reflexivity|].
    split; [apply list_elem_of_In; cbn; auto | apply list_elem_of_In; cbn; auto].
  - intros d. split; eexists; (split; [reflexivity|reflexivity]).
Qed.

End ErrorsSpec.
